(** * OTP authentication core of the job-matching backend

    A shallow embedding of [src/routes/auth.js] (the three auth routes and
    their helpers [generateOTP], [getClientInfo], [logEvent], [runQuery]),
    of the start-up sequence of [server.js] with [validateEnv] and of its
    stack of mounted middleware, of the [users] / [auth_logs] tables of the
    SQL schema they run against, and of the statements the other routers
    build from a request (the job list, the skill list, the status of an
    application, [bulkInsertSkills]).

    Conventions of the embedding:
    - instants are milliseconds since the epoch, in [Z];
    - strings are Rocq strings, and [.length] is [String.length];
    - request fields are typed as the route documents them (a string, or
      absent), so [None] is JavaScript's [undefined];
    - an [async] function is a function from the state of the world to a
      completion (a value or a thrown error) and a new state of the world;
    - what the PostgreSQL server and the connection pool may do wrong is an
      oracle carried by the world ([outage]); what [Math.random()] returns is
      another one ([entropy]). *)

From Stdlib Require Import ZArith Lia Ascii.
From stdpp Require Import base strings list gmap.

(* ================================================================== *)
(** ** The tables *)

(** [CREATE TYPE user_role AS ENUM ('candidate', 'employer', 'admin')] *)
Inductive user_role : Type := candidate | employer | admin.

Definition user_role_of_string (s : string) : option user_role :=
  if String.eqb s "candidate" then Some candidate
  else if String.eqb s "employer" then Some employer
  else if String.eqb s "admin" then Some admin
  else None.

Definition user_role_to_string (r : user_role) : string :=
  match r with
  | candidate => "candidate"
  | employer => "employer"
  | admin => "admin"
  end.

(** The value of [bcrypt.hash(password, rounds)], kept symbolic. *)
Inductive PasswordHash : Type :=
| bcrypt_hash (password : string) (rounds : nat).

(** A row of [users].  The columns [preferred_language], [created_at] and
    [updated_at] are neither read nor written by the auth routes and are left
    out; [id] is a [nat] drawn from a counter instead of a random UUID. *)
Record User : Type := mkUser {
  users_id : nat;
  users_email : option string;
  users_mobile : string;
  users_password_hash : option PasswordHash;
  users_role : user_role;
  users_is_active : bool;
  users_is_verified : bool;
  users_otp : option string;
  users_otp_expires_at : option Z
}.

(** The three literals the routes pass as [status]. *)
Inductive LogStatus : Type := success | warning | error.

(** What a [catch (err)] binds: [err.message] and [err.stack]. *)
Record Error : Type := mkError {
  err_message : string;
  err_stack : string
}.

(** A row of [auth_logs] (without the serial [id] and [created_at]). *)
Record AuthLog : Type := mkAuthLog {
  log_user_id : option nat;
  log_mobile : option string;
  log_user_role : string;
  log_step : string;
  log_status : LogStatus;
  log_message : string;
  log_error_stack : option string;
  log_ip_address : option string;
  log_device_info : option string
}.

(** The tables the auth routes read: [users] and, of the two profile
    tables, their [user_id] column.  The table [auth_logs], which the routes
    only append to, is kept beside them in the world. *)
Record Db : Type := mkDb {
  users : list User;
  users_next_id : nat;
  candidate_profiles : list nat;
  employer_profiles : list nat
}.

(* ================================================================== *)
(** ** The operational log *)

Inductive ConsoleLine : Type :=
| (** [console.log(req.body)] of /send-otp: the fields of the body *)
  LogBody (mobile role : option string)
| (** the line [logEvent] prints before it writes to the table:
      [[ts] [STATUS] [role] [mobile || "N/A"] (ip || "no-ip") step → message] *)
  LogEventLine (timestamp : Z) (status : LogStatus) (role mobile ip : string)
               (step message : string)
| (** [console.error("Failed to insert auth log:", err.message)] *)
  LogInsertFailed (message : string)
| (** [console.log(`OTP for ${mobile}: ${otp}`)] *)
  LogOtp (mobile otp : string).

(* ================================================================== *)
(** ** The world an async function runs in *)

Record World : Type := mkWorld {
  db : Db;
  auth_logs : list AuthLog;
  console : list ConsoleLine;
  (** what [Date.now()] and [new Date()] read *)
  clock : Z;
  (** connections checked out of the pool and not yet released *)
  pool_busy : nat;
  (** the n-th value [Math.random()] returns, as a numerator over 2^1074 *)
  entropy : nat -> Z;
  entropy_used : nat;
  (** whether the n-th call to the pool or the server fails, and how *)
  outage : nat -> option Error;
  pool_calls : nat
}.

(** The effect of an accepted statement: new tables, new audit rows. *)
Definition set_db (d : Db) (logs : list AuthLog) (w : World) : World :=
  mkWorld d (auth_logs w ++ logs) (console w) (clock w) (pool_busy w)
          (entropy w) (entropy_used w) (outage w) (pool_calls w).

Definition set_console (c : list ConsoleLine) (w : World) : World :=
  mkWorld (db w) (auth_logs w) c (clock w) (pool_busy w)
          (entropy w) (entropy_used w) (outage w) (pool_calls w).

Definition set_pool_busy (n : nat) (w : World) : World :=
  mkWorld (db w) (auth_logs w) (console w) (clock w) n
          (entropy w) (entropy_used w) (outage w) (pool_calls w).

Definition set_entropy_used (n : nat) (w : World) : World :=
  mkWorld (db w) (auth_logs w) (console w) (clock w) (pool_busy w)
          (entropy w) n (outage w) (pool_calls w).

Definition set_pool_calls (n : nat) (w : World) : World :=
  mkWorld (db w) (auth_logs w) (console w) (clock w) (pool_busy w)
          (entropy w) (entropy_used w) (outage w) n.

Definition set_users (us : list User) (next : nat) (d : Db) : Db :=
  mkDb us next (candidate_profiles d) (employer_profiles d).

(** How a call completes: with a value, or by throwing. *)
Inductive Completion (A : Type) : Type :=
| Normal (a : A)
| Throw (e : Error).
Arguments Normal {A} a.
Arguments Throw {A} e.

Definition Async (A : Type) : Type := World -> Completion A * World.

Definition ret {A} (a : A) : Async A := fun w => (Normal a, w).

Definition throw {A} (e : Error) : Async A := fun w => (Throw e, w).

Definition bind {A B} (m : Async A) (k : A -> Async B) : Async B :=
  fun w =>
    match m w with
    | (Normal a, w') => k a w'
    | (Throw e, w') => (Throw e, w')
    end.

(** [try { m } catch (err) { h err }] *)
Definition try_catch {A} (m : Async A) (h : Error -> Async A) : Async A :=
  fun w =>
    match m w with
    | (Normal a, w') => (Normal a, w')
    | (Throw e, w') => h e w'
    end.

(** [try { m } finally { f }]: [f] always runs; when it completes normally
    the completion of [m] stands. *)
Definition finally {A} (m : Async A) (f : Async unit) : Async A :=
  fun w =>
    match m w with
    | (c, w') =>
        match f w' with
        | (Normal _, w'') => (c, w'')
        | (Throw e, w'') => (Throw e, w'')
        end
    end.

Declare Scope async_scope.
Delimit Scope async_scope with async.
Bind Scope async_scope with Async.

Notation "'await' x ':=' m 'in' k" := (bind m (fun x => k))
  (at level 10, x name, m at level 100, k at level 200) : async_scope.
Notation "m '>>' k" := (bind m (fun _ => k))
  (at level 100, k at level 200, right associativity) : async_scope.

Open Scope async_scope.

Definition console_log (l : ConsoleLine) : Async unit :=
  fun w => (Normal tt, set_console (console w ++ [l]) w).

Definition Date_now : Async Z := fun w => (Normal (clock w), w).

(** The next answer of the failure oracle. *)
Definition next_outage : Async (option Error) :=
  fun w => (Normal (outage w (pool_calls w)),
            set_pool_calls (S (pool_calls w)) w).

(** [await pool.connect()] *)
Definition pool_connect : Async unit :=
  await o := next_outage in
  match o with
  | Some e => throw e
  | None => fun w => (Normal tt, set_pool_busy (S (pool_busy w)) w)
  end.

(** [client.release()] *)
Definition client_release : Async unit :=
  fun w => (Normal tt, set_pool_busy (Nat.pred (pool_busy w)) w).

(* ================================================================== *)
(** ** The SQL statements of the auth routes *)

(** The columns of [RETURNING id, mobile, email, role]. *)
Record RegisteredUser : Type := mkRegisteredUser {
  reg_id : nat;
  reg_mobile : string;
  reg_email : option string;
  reg_role : user_role
}.

Inductive Sql : Type -> Type :=
| (** [INSERT INTO auth_logs (...) VALUES ($1, ..., $9)] *)
  InsertAuthLog (e : AuthLog) : Sql unit
| (** [SELECT id FROM users WHERE mobile = $1] *)
  SelectIdByMobile (mobile : string) : Sql (list nat)
| (** [UPDATE users SET otp = $1, otp_expires_at = $2 WHERE mobile = $3] *)
  UpdateOtp (otp : string) (expires_at : Z) (mobile : string) : Sql unit
| (** [INSERT INTO users (mobile, role, otp, otp_expires_at, is_active,
      is_verified) VALUES ($1, $2, $3, $4, true, false) RETURNING id] *)
  InsertOtpUser (mobile role otp : string) (expires_at : Z) : Sql (list nat)
| (** [SELECT * FROM users WHERE mobile = $1 AND otp = $2] *)
  SelectUserByMobileOtp (mobile otp : string) : Sql (list User)
| (** [UPDATE users SET is_verified = true, otp = NULL,
      otp_expires_at = NULL WHERE id = $1] *)
  UpdateVerified (id : nat) : Sql unit
| (** [SELECT id FROM candidate_profiles WHERE user_id = $1] *)
  SelectCandidateProfile (user_id : nat) : Sql (list nat)
| (** [SELECT id FROM employer_profiles WHERE user_id = $1] *)
  SelectEmployerProfile (user_id : nat) : Sql (list nat)
| (** [INSERT INTO users (mobile, email, password_hash, role, is_active,
      is_verified) VALUES ($1, $2, $3, $4, true, false)
      RETURNING id, mobile, email, role] *)
  InsertRegUser (mobile : string) (email : option string)
                (password_hash : option PasswordHash) (role : string)
    : Sql (list RegisteredUser).

(** [VARCHAR(n)] *)
Definition varchar (n : nat) (s : string) : bool :=
  bool_decide (String.length s ≤ n).

Definition varchar_null (n : nat) (s : option string) : bool :=
  match s with
  | Some s => varchar n s
  | None => true
  end.

Definition sql_error (msg : string) : Error := mkError msg msg.

Definition set_otp (otp : string) (expires_at : Z) (u : User) : User :=
  mkUser (users_id u) (users_email u) (users_mobile u)
         (users_password_hash u) (users_role u) (users_is_active u)
         (users_is_verified u) (Some otp) (Some expires_at).

Definition set_verified (u : User) : User :=
  mkUser (users_id u) (users_email u) (users_mobile u)
         (users_password_hash u) (users_role u) (users_is_active u)
         true None None.

(** [mobile VARCHAR(15) UNIQUE NOT NULL] *)
Definition mobile_taken (mobile : string) (us : list User) : bool :=
  bool_decide (Exists (fun u => users_mobile u = mobile) us).

(** [email VARCHAR(255) UNIQUE]: nulls never collide. *)
Definition email_taken (email : option string) (us : list User) : bool :=
  match email with
  | Some e => bool_decide (Exists (fun u => users_email u = Some e) us)
  | None => false
  end.

(** What the server does with a statement on the tables of [Db]: an error
    (a constraint of the schema is violated) or the rows and the new tables. *)
Definition exec_sql {A} (q : Sql A) (d : Db) : Error + (A * Db) :=
  match q in Sql A return Error + (A * Db) with
  | InsertAuthLog e =>
      if varchar_null 15 (log_mobile e) && varchar 50 (log_user_role e)
         && varchar 100 (log_step e) && varchar_null 100 (log_ip_address e)
      then inr (tt, d)
      else inl (sql_error "value too long for type character varying")
  | SelectIdByMobile mobile =>
      inr (users_id <$> filter (fun u => users_mobile u = mobile) (users d), d)
  | UpdateOtp otp expires_at mobile =>
      if varchar 6 otp
      then inr (tt, set_users
                      ((fun u => if decide (users_mobile u = mobile)
                                 then set_otp otp expires_at u else u)
                         <$> users d)
                      (users_next_id d) d)
      else inl (sql_error "value too long for type character varying(6)")
  | InsertOtpUser mobile role otp expires_at =>
      match user_role_of_string role with
      | None => inl (sql_error "invalid input value for enum user_role")
      | Some r =>
          if negb (varchar 15 mobile && varchar 6 otp)
          then inl (sql_error "value too long for type character varying")
          else if mobile_taken mobile (users d)
          then inl (sql_error "duplicate key value violates unique constraint")
          else
            let u := mkUser (users_next_id d) None mobile None r true false
                            (Some otp) (Some expires_at) in
            inr ([users_id u],
                 set_users (users d ++ [u]) (S (users_next_id d)) d)
      end
  | SelectUserByMobileOtp mobile otp =>
      inr (filter (fun u => users_mobile u = mobile ∧ users_otp u = Some otp)
                  (users d), d)
  | UpdateVerified id =>
      inr (tt, set_users
                 ((fun u => if decide (users_id u = id)
                            then set_verified u else u) <$> users d)
                 (users_next_id d) d)
  | SelectCandidateProfile user_id =>
      inr (filter (fun p => p = user_id) (candidate_profiles d), d)
  | SelectEmployerProfile user_id =>
      inr (filter (fun p => p = user_id) (employer_profiles d), d)
  | InsertRegUser mobile email password_hash role =>
      match user_role_of_string role with
      | None => inl (sql_error "invalid input value for enum user_role")
      | Some r =>
          if negb (varchar 15 mobile && varchar_null 255 email)
          then inl (sql_error "value too long for type character varying")
          else if mobile_taken mobile (users d) || email_taken email (users d)
          then inl (sql_error "duplicate key value violates unique constraint")
          else
            let u := mkUser (users_next_id d) email mobile password_hash r
                            true false None None in
            inr ([mkRegisteredUser (users_id u) mobile email r],
                 set_users (users d ++ [u]) (S (users_next_id d)) d)
      end
  end.

(** The rows an accepted statement appends to [auth_logs]. *)
Definition audit_rows {A} (q : Sql A) : list AuthLog :=
  match q with
  | InsertAuthLog e => [e]
  | _ => []
  end.

(** [await client.query(q, params)]: the call may fail on its own (the
    oracle), or the server answers. *)
Definition client_query {A} (q : Sql A) : Async A :=
  await o := next_outage in
  match o with
  | Some e => throw e
  | None =>
      fun w =>
        match exec_sql q (db w) with
        | inl e => (Throw e, w)
        | inr (rows, d) => (Normal rows, set_db d (audit_rows q) w)
        end
  end.

(* ================================================================== *)
(** ** Helper functions of auth.js *)

(** [a || b] on a string that may be undefined: the empty string is falsy. *)
Definition js_or (a : option string) (b : string) : string :=
  match a with
  | Some s => if decide (s = "") then b else s
  | None => b
  end.

(** [!a] on a string that may be undefined. *)
Definition falsy (a : option string) : bool :=
  match a with
  | Some s => bool_decide (s = "")
  | None => true
  end.

(** The object [logEvent] is called with; [None] is a property left out. *)
Record LogEventArgs : Type := mkLogEventArgs {
  arg_mobile : option string;
  arg_userId : option nat;
  arg_role : option string;
  arg_step : string;
  arg_status : LogStatus;
  arg_message : string;
  arg_errorStack : option string;
  arg_ip : option string;
  arg_device : option string
}.

(** The parameters of the INSERT: [role] defaults to ["unknown"], the
    others to [null]. *)
Definition auth_log_row (a : LogEventArgs) : AuthLog :=
  mkAuthLog (arg_userId a) (arg_mobile a) (default "unknown" (arg_role a))
            (arg_step a) (arg_status a) (arg_message a) (arg_errorStack a)
            (arg_ip a) (arg_device a).

Definition logEvent (a : LogEventArgs) : Async unit :=
  await timestamp := Date_now in
  console_log (LogEventLine timestamp (arg_status a)
                 (default "unknown" (arg_role a))
                 (js_or (arg_mobile a) "N/A") (js_or (arg_ip a) "no-ip")
                 (arg_step a) (arg_message a)) >>
  pool_connect >>
  finally
    (try_catch
       (client_query (InsertAuthLog (auth_log_row a)))
       (fun err => console_log (LogInsertFailed (err_message err))))
    client_release.

(** The [meta] object of [runQuery]. *)
Record Meta : Type := mkMeta {
  meta_mobile : option string;
  meta_role : option string;
  meta_step : string;
  meta_ip : option string;
  meta_device : option string
}.

Definition runQuery {A} (query : Sql A) (meta : Meta) : Async A :=
  pool_connect >>
  finally
    (try_catch
       (await rows := client_query query in
        logEvent (mkLogEventArgs (meta_mobile meta) None (meta_role meta)
                    (meta_step meta) success "Query executed" None
                    (meta_ip meta) (meta_device meta)) >>
        ret rows)
       (fun err =>
          logEvent (mkLogEventArgs (meta_mobile meta) None (meta_role meta)
                      (meta_step meta) error (err_message err)
                      (Some (err_stack err))
                      (meta_ip meta) (meta_device meta)) >>
          throw err))
    client_release.

(* ================================================================== *)
(** ** Numbers: the doubles [generateOTP] computes with *)

(** A finite double that is not negative is [n / 2^1074] for a natural [n]
    with at most 53 significant bits; the numerator [n] stands for it. *)
Definition double_one : Z := 2 ^ 1074.

(** Rounding of an exact numerator to the nearest double, ties to even. *)
Definition round53 (n : Z) : Z :=
  let bits := (Z.log2 n + 1)%Z in
  if (bits <=? 53)%Z then n
  else
    let ulp := (2 ^ (bits - 53))%Z in
    let q := (n / ulp)%Z in
    let r := (n mod ulp)%Z in
    let up := (ulp <? 2 * r)%Z || ((2 * r =? ulp)%Z && Z.odd q) in
    ((if up then q + 1 else q) * ulp)%Z.

(** [x * k] and [k + x] for a double [x] and an integer literal [k]. *)
Definition double_mul (x k : Z) : Z := round53 (x * k).
Definition double_add (k x : Z) : Z := round53 (k * double_one + x).

(** [Math.floor(x)], an integer. *)
Definition Math_floor (x : Z) : Z := (x / double_one)%Z.

(** A value [Math.random()] may return: a double in [0, 1). *)
Definition unit_double (x : Z) : Prop :=
  (0 <= x < double_one)%Z ∧ round53 x = x.

Definition Math_random : Async Z :=
  fun w => (Normal (entropy w (entropy_used w)),
            set_entropy_used (S (entropy_used w)) w).

Definition digit (d : Z) : ascii := ascii_of_nat (48 + Z.to_nat d).

Fixpoint decimal (fuel : nat) (n : Z) (acc : string) : string :=
  match fuel with
  | O => acc
  | S fuel' =>
      let acc' := String (digit (n mod 10)) acc in
      if (n / 10 =? 0)%Z then acc' else decimal fuel' (n / 10) acc'
  end.

(** [n.toString()] for an integer [0 <= n < 10^21]: its decimal digits. *)
Definition Number_toString (n : Z) : string :=
  decimal (S (Z.to_nat (Z.log2 n))) n "".

(** [Math.floor(100000 + Math.random() * 900000).toString()] *)
Definition generateOTP : Async string :=
  await r := Math_random in
  ret (Number_toString (Math_floor (double_add 100000 (double_mul r 900000)))).

(* ================================================================== *)
(** ** Requests, responses, the process *)

Record Request : Type := mkRequest {
  body_mobile : option string;
  body_role : option string;
  body_otp : option string;
  body_email : option string;
  body_password : option string;
  header_x_forwarded_for : option string;
  socket_remoteAddress : option string;
  header_user_agent : option string
}.

(** [getClientInfo]: the pair [(ip, device)]. *)
Definition getClientInfo (req : Request) : string * string :=
  (js_or (header_x_forwarded_for req) (js_or (socket_remoteAddress req) "unknown"),
   js_or (header_user_agent req) "unknown-device").

(** The payload of a session token, and the token [jwt.sign] returns, kept
    symbolic. *)
Record Claims : Type := mkClaims {
  claim_userId : nat;
  claim_mobile : string;
  claim_role : user_role
}.

Inductive Token : Type :=
| jwt (payload : Claims) (secretOrPrivateKey : string) (expiresIn : string).

(** [jwt.sign(payload, secret, { expiresIn })] refuses an empty secret. *)
Definition jwt_sign (payload : Claims) (secret : string) (expiresIn : string)
  : Async Token :=
  if decide (secret = "")
  then throw (mkError "secretOrPrivateKey must have a value" "jwt.sign")
  else ret (jwt payload secret expiresIn).

Inductive Body : Type :=
| (** [{ error }] *)
  ErrorBody (error : string)
| (** [{ success, message, otp }] *)
  SendOtpBody (success : bool) (message : string) (otp : option string)
| (** [{ success, token, user: { id, mobile, role, isVerified },
        profileCompleted, redirectTo }] *)
  VerifyBody (success : bool) (token : Token)
             (id : nat) (mobile : string) (role : user_role) (isVerified : bool)
             (profileCompleted : bool) (redirectTo : option string)
| (** [{ success, token, user }] *)
  RegisterBody (success : bool) (token : Token) (user : RegisteredUser).

Record Response : Type := mkResponse {
  status : nat;
  body : Body
}.

(** [process.env] after [dotenv.config()], and the module constant of
    auth.js. *)
Record Process : Type := mkProcess {
  process_env : gmap string string;
  JWT_SECRET : string
}.

(* ================================================================== *)
(** ** The routes *)

Section Routes.

Variable process : Process.

Definition development : bool :=
  bool_decide (process_env process !! "NODE_ENV" = Some "development").

(** [router.post("/send-otp", ...)] *)
Definition send_otp (req : Request) : Async Response :=
  console_log (LogBody (body_mobile req) (body_role req)) >>
  let mobile := body_mobile req in
  let role := default "candidate" (body_role req) in
  let '(ip, device) := getClientInfo req in
  let step := "SEND_OTP" in
  try_catch
    (if falsy mobile || bool_decide (String.length (default "" mobile) < 10)
     then
       logEvent (mkLogEventArgs mobile None (Some role) step warning
                   "Invalid mobile number" None (Some ip) (Some device)) >>
       ret (mkResponse 400 (ErrorBody "Valid mobile number required"))
     else
       let m := default "" mobile in
       await otp := generateOTP in
       await now := Date_now in
       let otpExpiresAt := (now + 10 * 60 * 1000)%Z in
       await existing :=
         runQuery (SelectIdByMobile m)
           (mkMeta mobile (Some role) (step +:+ "_CHECK_USER")
                   (Some ip) (Some device)) in
       (match existing with
        | id0 :: _ =>
            runQuery (UpdateOtp otp otpExpiresAt m)
              (mkMeta mobile (Some role) (step +:+ "_UPDATE_OTP")
                      (Some ip) (Some device)) >>
            logEvent (mkLogEventArgs mobile (Some id0) (Some role) step
                        success "OTP updated for existing user" None
                        (Some ip) (Some device))
        | [] =>
            await inserted :=
              runQuery (InsertOtpUser m role otp otpExpiresAt)
                (mkMeta mobile (Some role) (step +:+ "_INSERT_USER")
                        (Some ip) (Some device)) in
            match inserted with
            | id0 :: _ =>
                logEvent (mkLogEventArgs mobile (Some id0) (Some role) step
                            success "New user created and OTP assigned" None
                            (Some ip) (Some device))
            | [] => throw (mkError "Cannot read properties of undefined"
                                   "TypeError")
            end
        end) >>
       (if development then console_log (LogOtp m otp) else ret tt) >>
       ret (mkResponse 200
              (SendOtpBody true "OTP sent successfully"
                 (if development then Some otp else None))))
    (fun err =>
       logEvent (mkLogEventArgs mobile None (Some role) step error
                   "Failed to send OTP" (Some (err_stack err))
                   (Some ip) (Some device)) >>
       ret (mkResponse 500 (ErrorBody "Failed to send OTP"))).

(** [new Date(user.otp_expires_at)]: [new Date(null)] is the epoch. *)
Definition Date_of (t : option Z) : Z := default 0%Z t.

(** Step 4 of /verify-otp. *)
Definition redirect_of (role : user_role) (hasProfile : bool) : option string :=
  match role with
  | candidate =>
      Some (if hasProfile then "/candidate/dashboard"
            else "/candidate/profile-form")
  | employer =>
      Some (if hasProfile then "/employer/dashboard"
            else "/employer/profile-form")
  | admin => Some "/admin/dashboard"
  end.

(** [router.post("/verify-otp", ...)] *)
Definition verify_otp (req : Request) : Async Response :=
  let mobile := body_mobile req in
  let otp := body_otp req in
  let '(ip, device) := getClientInfo req in
  let step := "VERIFY_OTP" in
  try_catch
    (if falsy mobile || falsy otp
     then
       logEvent (mkLogEventArgs mobile None None step warning
                   "Missing mobile or OTP" None (Some ip) (Some device)) >>
       ret (mkResponse 400 (ErrorBody "Mobile and OTP required"))
     else
       await rows :=
         runQuery (SelectUserByMobileOtp (default "" mobile) (default "" otp))
           (mkMeta mobile None (step +:+ "_CHECK") (Some ip) (Some device)) in
       match rows with
       | [] =>
           logEvent (mkLogEventArgs mobile None None step warning
                       "Invalid OTP" None (Some ip) (Some device)) >>
           ret (mkResponse 400 (ErrorBody "Invalid OTP"))
       | user :: _ =>
           await now := Date_now in
           if (Date_of (users_otp_expires_at user) <? now)%Z
           then
             logEvent (mkLogEventArgs mobile None None step warning
                         "OTP expired" None (Some ip) (Some device)) >>
             ret (mkResponse 400 (ErrorBody "OTP expired"))
           else
             let role := Some (user_role_to_string (users_role user)) in
             runQuery (UpdateVerified (users_id user))
               (mkMeta mobile role (step +:+ "_UPDATE_VERIFIED")
                       (Some ip) (Some device)) >>
             await hasProfile :=
               match users_role user with
               | candidate =>
                   await result :=
                     runQuery (SelectCandidateProfile (users_id user))
                       (mkMeta mobile role
                               (step +:+ "_CHECK_CANDIDATE_PROFILE")
                               (Some ip) (Some device)) in
                   ret (bool_decide (0 < length result))
               | employer =>
                   await result :=
                     runQuery (SelectEmployerProfile (users_id user))
                       (mkMeta mobile role
                               (step +:+ "_CHECK_EMPLOYER_PROFILE")
                               (Some ip) (Some device)) in
                   ret (bool_decide (0 < length result))
               | admin => ret false
               end in
             let redirectTo := redirect_of (users_role user) hasProfile in
             await token :=
               jwt_sign (mkClaims (users_id user) (users_mobile user)
                                  (users_role user))
                        (JWT_SECRET process) "30d" in
             logEvent (mkLogEventArgs mobile (Some (users_id user)) role step
                         success "OTP verified successfully" None
                         (Some ip) (Some device)) >>
             ret (mkResponse 200
                    (VerifyBody true token (users_id user) (users_mobile user)
                       (users_role user) true hasProfile redirectTo))
       end)
    (fun err =>
       logEvent (mkLogEventArgs mobile None None step error
                   "Failed to verify OTP" (Some (err_stack err))
                   (Some ip) (Some device)) >>
       ret (mkResponse 500 (ErrorBody "Failed to verify OTP"))).

(** [router.post("/register", ...)] *)
Definition register (req : Request) : Async Response :=
  let mobile := body_mobile req in
  let email := body_email req in
  let password := body_password req in
  let role := default "candidate" (body_role req) in
  let '(ip, device) := getClientInfo req in
  let step := "REGISTER" in
  try_catch
    (if falsy mobile
     then
       logEvent (mkLogEventArgs mobile None (Some role) step warning
                   "Mobile number missing" None (Some ip) (Some device)) >>
       ret (mkResponse 400 (ErrorBody "Mobile number required"))
     else
       let m := default "" mobile in
       await existing :=
         runQuery (SelectIdByMobile m)
           (mkMeta mobile (Some role) (step +:+ "_CHECK_EXISTING")
                   (Some ip) (Some device)) in
       if bool_decide (0 < length existing)
       then
         logEvent (mkLogEventArgs mobile None (Some role) step warning
                     "User already exists" None (Some ip) (Some device)) >>
         ret (mkResponse 400 (ErrorBody "User already exists"))
       else
         let passwordHash :=
           if falsy password then None
           else Some (bcrypt_hash (default "" password) 10) in
         await newUser :=
           runQuery (InsertRegUser m (if falsy email then None else email)
                       passwordHash role)
             (mkMeta mobile (Some role) (step +:+ "_INSERT_USER")
                     (Some ip) (Some device)) in
         match newUser with
         | [] => throw (mkError "Cannot read properties of undefined"
                                "TypeError")
         | user :: _ =>
             await token :=
               jwt_sign (mkClaims (reg_id user) (reg_mobile user)
                                  (reg_role user))
                        (JWT_SECRET process) "30d" in
             logEvent (mkLogEventArgs mobile (Some (reg_id user)) (Some role)
                         step success "Registration successful" None
                         (Some ip) (Some device)) >>
             ret (mkResponse 201 (RegisterBody true token user))
         end)
    (fun err =>
       logEvent (mkLogEventArgs mobile None (Some role) step error
                   "Registration failed" (Some (err_stack err))
                   (Some ip) (Some device)) >>
       ret (mkResponse 500 (ErrorBody "Registration failed"))).

End Routes.

(* ================================================================== *)
(** ** Start-up: server.js, after its imports *)

(** [dotenv.config()]: variables of the [.env] file are added, variables
    already set are kept. *)
Definition dotenv_config (dotenv_file env : gmap string string)
  : gmap string string := env ∪ dotenv_file.

(** [process.env.JWT_SECRET || "your-secret-key-change-in-production"],
    evaluated when auth.js is imported. *)
Definition auth_JWT_SECRET (env : gmap string string) : string :=
  js_or (env !! "JWT_SECRET") "your-secret-key-change-in-production".

(** [validateEnv]: the names of [requiredVars] that are missing. *)
Definition validateEnv_missing (env : gmap string string) : list string :=
  filter (fun key => falsy (env !! key) = true) ["DATABASE_URL"; "JWT_SECRET"].

Inductive Boot : Type :=
| (** [process.exit(code)] *)
  Exit (code : nat) (missing : list string)
| (** the server reached [httpServer.listen] with this process state *)
  Listening (p : Process).

(** Importing auth.js runs [dotenv.config()] and fixes [JWT_SECRET]; then
    the body of server.js runs [dotenv.config()] and [validateEnv()]. *)
Definition server_start (dotenv_file env : gmap string string) : Boot :=
  let env1 := dotenv_config dotenv_file env in
  let secret := auth_JWT_SECRET env1 in
  let env2 := dotenv_config dotenv_file env1 in
  match validateEnv_missing env2 with
  | [] => Listening (mkProcess env2 secret)
  | missing => Exit 1 missing
  end.

(* ================================================================== *)
(** ** Vocabulary of the statements below *)

(** What a statement about a run looks at: the tables and the operational
    log.  The clock and [Math.random]'s values are fixed during a run. *)
Record View : Type := mkView {
  v_db : Db;
  v_console : list ConsoleLine
}.

Definition view (w : World) : View := mkView (db w) (console w).

(** [holds t en I m Q], for a run of [m] at instant [t] with random source
    [en], whatever the pool and the server answer and however [m] completes:
    [I], true before, is true after; and a value [m] returns satisfies [Q]. *)
Definition holds (t : Z) (en : nat -> Z) {A} (I : View -> Prop)
    (m : Async A) (Q : A -> View -> Prop) : Prop :=
  forall w, clock w = t -> entropy w = en -> I (view w) ->
    clock (m w).2 = t /\ entropy (m w).2 = en /\ I (view (m w).2)
    /\ forall a, (m w).1 = Normal a -> Q a (view (m w).2).

(** The pool and the server answer every call. *)
Definition healthy (w : World) : Prop := forall n, outage w n = None.

(** [succeeds t en P m Q]: from a healthy world satisfying [P], [m] returns
    a value, and [Q] holds of it and of the world it leaves. *)
Definition succeeds (t : Z) (en : nat -> Z) {A} (P : View -> Prop)
    (m : Async A) (Q : A -> View -> Prop) : Prop :=
  forall w, healthy w -> clock w = t -> entropy w = en -> P (view w) ->
    exists a, (m w).1 = Normal a /\ healthy (m w).2
              /\ clock (m w).2 = t /\ entropy (m w).2 = en
              /\ Q a (view (m w).2).

(** The lines [logEvent] prints. *)
Definition audit_line (l : ConsoleLine) : bool :=
  match l with
  | LogEventLine _ _ _ _ _ _ _ => true
  | LogInsertFailed _ => true
  | _ => false
  end.

(** A statement that stays true when [logEvent] prints. *)
Definition audit_stable (I : View -> Prop) : Prop :=
  forall d c l, audit_line l = true ->
    I (mkView d c) -> I (mkView d (c ++ [l])).

(** The code [generateOTP] makes of a value of [Math.random()]. *)
Definition otp_of_random (r : Z) : string :=
  Number_toString (Math_floor (double_add 100000 (double_mul r 900000))).

(** The session token a response carries, if any, and the key it was signed
    with. *)
Definition response_token (r : Response) : option Token :=
  match body r with
  | VerifyBody _ token _ _ _ _ _ _ => Some token
  | RegisterBody _ token _ => Some token
  | _ => None
  end.

Definition token_secret (t : Token) : string :=
  match t with jwt _ secret _ => secret end.

(** Any token in the response was signed with the constant of the process. *)
Definition signed_by_process (process : Process) (r : Response) : Prop :=
  forall t, response_token r = Some t -> token_secret t = JWT_SECRET process.

(** *** Sample worlds and requests *)

Definition ECONNREFUSED : Error :=
  mkError "connect ECONNREFUSED 127.0.0.1:5432"
          "Error: connect ECONNREFUSED 127.0.0.1:5432".

(** An empty database, a store that always answers, the clock at 1000. *)
Definition world_empty : World :=
  mkWorld (mkDb [] 1 [] []) [] [] 1000%Z 0 (fun _ => 0%Z) 0 (fun _ => None) 0.

(** One candidate who was sent the code 123456, valid until 5000. *)
Definition user_pending : User :=
  mkUser 1 None "9999999999" None candidate true false
         (Some "123456") (Some 5000%Z).

Definition world_pending : World :=
  mkWorld (mkDb [user_pending] 2 [] []) [] [] 1000%Z 0
          (fun _ => 0%Z) 0 (fun _ => None) 0.

(** The same, with a pool that refuses every connection. *)
Definition world_pool_down : World :=
  mkWorld (mkDb [user_pending] 2 [] []) [] [] 1000%Z 0
          (fun _ => 0%Z) 0 (fun _ => Some ECONNREFUSED) 0.

(** The same, with a pool that answers six calls and then refuses. *)
Definition world_pool_lost : World :=
  mkWorld (mkDb [user_pending] 2 [] []) [] [] 1000%Z 0
          (fun _ => 0%Z) 0
          (fun n => if bool_decide (n < 6) then None else Some ECONNREFUSED) 0.

Definition process_dev : Process :=
  mkProcess (<["NODE_ENV" := "development"]> ∅) "s3cret".

Definition process_test : Process :=
  mkProcess (<["NODE_ENV" := "test"]> ∅) "s3cret".

Definition process_prod : Process :=
  mkProcess (<["NODE_ENV" := "production"]> ∅) "s3cret".

Definition request_mobile (mobile : string) : Request :=
  mkRequest (Some mobile) None None None None None None None.

Definition request_verify (mobile otp : string) : Request :=
  mkRequest (Some mobile) None (Some otp) None None None None None.

Definition sample_log : LogEventArgs :=
  mkLogEventArgs (Some "9999999999") None None "VERIFY_OTP" warning
                 "Invalid OTP" None (Some "10.0.0.7") (Some "curl").

(** *** Shapes of a one-time code *)

Definition is_digit (c : ascii) : bool :=
  bool_decide (48 ≤ nat_of_ascii c ≤ 57).

(** Six characters, all of them decimal digits. *)
Definition six_digits (s : string) : Prop :=
  match s with
  | String c1 (String c2 (String c3 (String c4 (String c5 (String c6 EmptyString))))) =>
      Forall (fun c => is_digit c = true) [c1; c2; c3; c4; c5; c6]
  | _ => False
  end.

Definition first_char (s : string) : option ascii :=
  match s with
  | String c _ => Some c
  | EmptyString => None
  end.

(** *** What the routes promise about their responses *)

(** The row with this id is verified and holds no code. *)
Definition verified_and_cleared (id : nat) (d : Db) : Prop :=
  forall u, u ∈ users d -> users_id u = id ->
    users_is_verified u = true /\ users_otp u = None
    /\ users_otp_expires_at u = None.

(** The rows [SELECT * FROM users WHERE mobile = $1 AND otp = $2] returns. *)
Definition matching (mobile otp : string) (us : list User) : list User :=
  filter (fun u => users_mobile u = mobile /\ users_otp u = Some otp) us.

(** What a response of /verify-otp tells, at instant [t], about a run that
    maintains [I]: a 200 comes from a row that matched and had not expired,
    found in tables that satisfied [I], and leaves that row verified and
    cleared. *)
Definition verify_otp_post (t : Z) (process : Process) (I : View -> Prop)
    (req : Request) (resp : Response) (v : View) : Prop :=
  match body resp with
  | VerifyBody ok token id mobile role isVerified profileCompleted redirectTo =>
      status resp = 200
      /\ exists m o d_sel c_sel user rest,
           body_mobile req = Some m /\ body_otp req = Some o
           /\ m <> "" /\ o <> ""
           /\ I (mkView d_sel c_sel)
           /\ matching m o (users d_sel) = user :: rest
           /\ ¬ (Date_of (users_otp_expires_at user) < t)%Z
           /\ token = jwt (mkClaims (users_id user) (users_mobile user)
                                    (users_role user))
                          (JWT_SECRET process) "30d"
           /\ ok = true /\ id = users_id user /\ mobile = users_mobile user
           /\ role = users_role user /\ isVerified = true
           /\ redirectTo = redirect_of role profileCompleted
           /\ verified_and_cleared (users_id user) (v_db v)
  | ErrorBody e =>
      (status resp = 400
       /\ (e = "Mobile and OTP required" \/ e = "Invalid OTP"
           \/ e = "OTP expired"))
      \/ (status resp = 500 /\ e = "Failed to verify OTP")
  | _ => False
  end.

(** Every row with this mobile holds this code and this expiry. *)
Definition stored_code (mobile otp : string) (expires_at : Z) (d : Db) : Prop :=
  forall u, u ∈ users d -> users_mobile u = mobile ->
    users_otp u = Some otp /\ users_otp_expires_at u = Some expires_at.

(** What a response of /send-otp tells, at instant [t] with random source
    [en]: a 200 echoes the generated code exactly in development mode, after
    a line of the operational log showed it, and the row of the mobile holds
    that code with the expiry [t + 10 minutes]. *)
Definition send_otp_post (t : Z) (en : nat -> Z) (process : Process)
    (req : Request) (resp : Response) (v : View) : Prop :=
  match body resp with
  | SendOtpBody ok message echoed =>
      status resp = 200 /\ ok = true
      /\ exists m k,
           body_mobile req = Some m /\ 10 <= String.length m
           /\ echoed = (if development process
                        then Some (otp_of_random (en k)) else None)
           /\ (development process = true ->
               LogOtp m (otp_of_random (en k)) ∈ v_console v)
           /\ stored_code m (otp_of_random (en k)) (t + 10 * 60 * 1000)%Z
                          (v_db v)
  | ErrorBody e =>
      (status resp = 400 /\ e = "Valid mobile number required"
       /\ falsy (body_mobile req)
          || bool_decide (String.length (default "" (body_mobile req)) < 10)
          = true)
      \/ (status resp = 500 /\ e = "Failed to send OTP")
  | _ => False
  end.

(** The row [INSERT ... RETURNING] reported is in the table, unverified and
    without a code. *)
Definition registered (user : RegisteredUser) (d : Db) : Prop :=
  exists u, u ∈ users d /\ users_id u = reg_id user
            /\ users_mobile u = reg_mobile user
            /\ users_is_verified u = false /\ users_otp u = None.

(** What a response of /register tells. *)
Definition register_post (process : Process) (req : Request)
    (resp : Response) (v : View) : Prop :=
  match body resp with
  | RegisterBody ok token user =>
      status resp = 201 /\ ok = true
      /\ exists m,
           body_mobile req = Some m /\ m <> "" /\ reg_mobile user = m
           /\ token = jwt (mkClaims (reg_id user) (reg_mobile user)
                                    (reg_role user))
                          (JWT_SECRET process) "30d"
           /\ registered user (v_db v)
  | ErrorBody e =>
      (status resp = 400
       /\ ((e = "Mobile number required"
            /\ falsy (body_mobile req) = true)
           \/ (e = "User already exists"
               /\ falsy (body_mobile req) = false)))
      \/ (status resp = 500 /\ e = "Registration failed")
  | _ => False
  end.

(** *** Statements about the [users] table *)

(** Every row that was verified in [l0] is still there, still verified. *)
Definition still_verified (l0 l : list User) : Prop :=
  forall u, u ∈ l0 -> users_is_verified u = true ->
    exists u', u' ∈ l /\ users_id u' = users_id u
               /\ users_is_verified u' = true.

Definition keeps_verified (l0 : list User) : View -> Prop :=
  fun v => still_verified l0 (users (v_db v)).

(** At most one row per mobile. *)
Definition mobiles_unique (l : list User) : Prop :=
  NoDup (users_mobile <$> l).

(** Row by row, [l] is [l0] with some rows verified and cleared at once. *)
Definition verified_atomically (l0 l : list User) : Prop :=
  Forall2 (fun u u' => u' = u \/ u' = set_verified u) l0 l.


Definition is_LogOtp (l : ConsoleLine) : Prop :=
  exists mobile otp, l = LogOtp mobile otp.

(** *** Sequences of calls *)

Inductive Call : Type :=
| CallSendOtp (req : Request)
| CallVerifyOtp (req : Request)
| CallRegister (req : Request)
| (** time passes between two requests *)
  Elapse (ms : Z).

Definition set_clock (t : Z) (w : World) : World :=
  mkWorld (db w) (auth_logs w) (console w) t (pool_busy w)
          (entropy w) (entropy_used w) (outage w) (pool_calls w).

Definition call (process : Process) (c : Call) (w : World) : World :=
  match c with
  | CallSendOtp req => (send_otp process req w).2
  | CallVerifyOtp req => (verify_otp process req w).2
  | CallRegister req => (register process req w).2
  | Elapse ms => set_clock (clock w + ms) w
  end.

Definition calls (process : Process) (cs : list Call) (w : World) : World :=
  fold_left (fun w c => call process c w) cs w.

(** One candidate, verified, without a pending code. *)
Definition user_verified : User :=
  mkUser 1 None "9999999999" None candidate true true None None.

Definition world_verified : World :=
  mkWorld (mkDb [user_verified] 2 [] []) [] [] 1000%Z 0
          (fun _ => 0%Z) 0 (fun _ => None) 0.


(** No line showing a code was printed beyond those of [c0]. *)
Definition no_new_LogOtp (c0 : list ConsoleLine) : View -> Prop :=
  fun v => forall l, l ∈ v_console v -> is_LogOtp l -> l ∈ c0.

(** [Math.random()] only returns doubles of [0, 1). *)
Definition random_source (w : World) : Prop :=
  forall k, unit_double (entropy w k).


Definition keeps_verified_atomically (l0 : list User) : View -> Prop :=
  fun v => verified_atomically l0 (users (v_db v)).

(** The tables are those of [d0]. *)
Definition unchanged (d0 : Db) : View -> Prop := fun v => v_db v = d0.

(** The code 123456 expires at 5000; the clock shows 5000. *)
Definition world_at_expiry : World :=
  mkWorld (mkDb [user_pending] 2 [] []) [] [] 5000%Z 0
          (fun _ => 0%Z) 0 (fun _ => None) 0.

(** The code 123456 expired at 5000; the clock shows 5001. *)
Definition world_expired : World :=
  mkWorld (mkDb [user_pending] 2 [] []) [] [] 5001%Z 0
          (fun _ => 0%Z) 0 (fun _ => None) 0.

(** *** Two runs side by side *)

(** The pool and the server will fail at the same calls in both worlds. *)
Definition same_faults (w1 w2 : World) : Prop :=
  outage w1 = outage w2 /\ pool_calls w1 = pool_calls w2.

(** [alike P1 P2 m1 m2 R]: run from worlds with the same faults to come,
    whose tables satisfy [P1] and [P2], the two calls complete alike (both
    return, values related by [R], or both throw the same error) and leave
    such worlds. *)
Definition alike {A B} (P1 P2 : Db -> Prop) (m1 : Async A) (m2 : Async B)
    (R : A -> B -> Prop) : Prop :=
  forall w1 w2, same_faults w1 w2 -> P1 (db w1) -> P2 (db w2) ->
    same_faults (m1 w1).2 (m2 w2).2
    /\ P1 (db (m1 w1).2) /\ P2 (db (m2 w2).2)
    /\ match (m1 w1).1, (m2 w2).1 with
       | Normal a, Normal b => R a b
       | Throw e1, Throw e2 => e1 = e2
       | _, _ => False
       end.

(* ================================================================== *)
(** ** Vocabulary: what a run leaves of the world *)

(** [keeps R m]: whatever the pool and the server answer and however [m]
    completes, the world [m] leaves is related by [R] to the world it
    started in. *)
Definition keeps {A} (R : World -> World -> Prop) (m : Async A) : Prop :=
  forall w, R w (m w).2.

(** As many connections are checked out of the pool after as before. *)
Definition same_pool_busy (w w' : World) : Prop := pool_busy w' = pool_busy w.

(** [auth_logs] only grew, and by rows that satisfy [P]. *)
Definition audit_appended (P : AuthLog -> Prop) (w w' : World) : Prop :=
  exists rows, auth_logs w' = auth_logs w ++ rows /\ Forall P rows.

(** A row of [auth_logs] that names this request: its mobile, the client
    address and device [getClientInfo] read, and a step of this route. *)
Definition audit_of (req : Request) (step : string) (e : AuthLog) : Prop :=
  log_mobile e = body_mobile req
  /\ log_ip_address e = Some (getClientInfo req).1
  /\ log_device_info e = Some (getClientInfo req).2
  /\ exists suffix, log_step e = step +:+ suffix.



(** The line [logEvent] prints first. *)
Definition log_event_line (a : LogEventArgs) (timestamp : Z) : ConsoleLine :=
  LogEventLine timestamp (arg_status a) (default "unknown" (arg_role a))
               (js_or (arg_mobile a) "N/A") (js_or (arg_ip a) "no-ip")
               (arg_step a) (arg_message a).

Definition request_long_mobile : Request :=
  request_mobile "+91-99999-99999-0".

(** The row [runQuery] asks [logEvent] to write for a query run with
    [meta]. *)
Definition runQuery_log (meta : Meta) (st : LogStatus) (message : string)
    (stack : option string) : AuthLog :=
  auth_log_row (mkLogEventArgs (meta_mobile meta) None (meta_role meta)
                  (meta_step meta) st message stack
                  (meta_ip meta) (meta_device meta)).

(** The values of [meta] fit the columns of [auth_logs]. *)
Definition meta_fits (meta : Meta) : bool :=
  varchar_null 15 (meta_mobile meta)
  && varchar 50 (default "unknown" (meta_role meta))
  && varchar 100 (meta_step meta)
  && varchar_null 100 (meta_ip meta).

Definition sample_meta : Meta :=
  mkMeta (Some "9999999999") (Some "candidate") "SEND_OTP_CHECK_USER"
         (Some "10.0.0.7") (Some "curl").

(* ================================================================== *)
(** ** Vocabulary: what the routes keep of the [users] table *)

(** A row holds a code and its expiry, or neither. *)
Definition code_paired (u : User) : Prop :=
  users_otp u = None <-> users_otp_expires_at u = None.

(** The columns of a row that no route writes once the row exists. *)
Definition same_identity (u u' : User) : Prop :=
  users_id u' = users_id u
  /\ users_mobile u' = users_mobile u
  /\ users_email u' = users_email u
  /\ users_password_hash u' = users_password_hash u
  /\ users_role u' = users_role u
  /\ users_is_active u' = users_is_active u.

(** [l] is [l0], row by row with the same identity, followed by new rows. *)
Definition rows_kept (l0 l : list User) : Prop :=
  exists l1 added, l = l1 ++ added /\ Forall2 same_identity l0 l1.

(** Every verified row of [l] was a verified row of [l0]. *)
Definition verified_before (l0 l : list User) : Prop :=
  forall u, u ∈ l -> users_is_verified u = true ->
    exists u0, u0 ∈ l0 /\ same_identity u0 u /\ users_is_verified u0 = true.

Definition is_verify_call (c : Call) : bool :=
  match c with
  | CallVerifyOtp _ => true
  | _ => false
  end.

(* ================================================================== *)
(** ** Vocabulary: a call that throws *)

(** [fails t en P m Q]: from a healthy world that satisfies [P], [m] throws
    an error, and [Q] holds of it and of the world [m] leaves. *)
Definition fails (t : Z) (en : nat -> Z) {A} (P : View -> Prop)
    (m : Async A) (Q : Error -> View -> Prop) : Prop :=
  forall w, healthy w -> clock w = t -> entropy w = en -> P (view w) ->
    exists e, (m w).1 = Throw e /\ healthy (m w).2
              /\ clock (m w).2 = t /\ entropy (m w).2 = en
              /\ Q e (view (m w).2).

(** The world [ms] milliseconds later. *)
Definition later (ms : Z) (w : World) : World := set_clock (clock w + ms) w.

(** One employer who registered with an email, verified. *)
Definition user_registered : User :=
  mkUser 1 (Some "asha@example.org") "9999999999" None employer true true
         None None.

Definition world_registered : World :=
  mkWorld (mkDb [user_registered] 2 [] [1]) [] [] 1000%Z 0
          (fun _ => 0%Z) 0 (fun _ => None) 0.

Definition request_register (mobile email : string) : Request :=
  mkRequest (Some mobile) None None (Some email) None None None None.

(** The texts of the [error] property of the responses of auth.js. *)
Definition auth_error_messages : list string :=
  ["Valid mobile number required"; "Failed to send OTP";
   "Mobile and OTP required"; "Invalid OTP"; "OTP expired";
   "Failed to verify OTP";
   "Mobile number required"; "User already exists"; "Registration failed"].

(** The status goes with the shape of the body, and an error body holds one
    of the fixed texts. *)
Definition well_formed_response (resp : Response) : Prop :=
  match body resp with
  | ErrorBody e =>
      (status resp = 400 \/ status resp = 500) /\ e ∈ auth_error_messages
  | SendOtpBody _ _ _ => status resp = 200
  | VerifyBody _ _ _ _ _ _ _ _ => status resp = 200
  | RegisterBody _ _ _ => status resp = 201
  end.

(** The failure oracle is the one the run started with. *)
Definition same_outage (w w' : World) : Prop := outage w' = outage w.

(* ================================================================== *)
(** ** server.js: where the middlewares are mounted *)

(** The middlewares and routers server.js passes to [app.use], in order. *)
Inductive Middleware : Type :=
| morgan | helmet | compression | cors | express_json | express_urlencoded
| generalLimiter | otpLimiter
| authRoutes | candidateRoutes | employerRoutes | jobRoutes | skillRoutes
| applicationRoutes.

(** [app.use(fn)] mounts at ["/"]. *)
Definition server_stack : list (string * Middleware) :=
  [("/", morgan); ("/", helmet); ("/", compression); ("/", cors);
   ("/", express_json); ("/", express_urlencoded);
   ("/api/", generalLimiter);
   ("/api/auth/send-otp", otpLimiter);
   ("/api/v1/auth", authRoutes);
   ("/api/v1/candidate", candidateRoutes);
   ("/api/v1/employer", employerRoutes);
   ("/api/v1/jobs", jobRoutes);
   ("/api/v1/skills", skillRoutes);
   ("/api/v1/applications", applicationRoutes)].

Definition to_lower (c : ascii) : ascii :=
  let n := nat_of_ascii c in
  if bool_decide (65 <= n <= 90) then ascii_of_nat (n + 32) else c.

(** [prefix] is the start of [path], letter case apart, up to the end of
    [path] or to a ["/"]. *)
Fixpoint starts_segments (prefix path : string) : bool :=
  match prefix, path with
  | EmptyString, EmptyString => true
  | EmptyString, String c _ => bool_decide (c = "/"%char)
  | String _ _, EmptyString => false
  | String a prefix', String b path' =>
      bool_decide (to_lower a = to_lower b) && starts_segments prefix' path'
  end.

(** A mount path without its trailing ["/"]. *)
Fixpoint strip_trailing_slash (s : string) : string :=
  match s with
  | EmptyString => EmptyString
  | String c EmptyString => if bool_decide (c = "/"%char) then "" else s
  | String c s' => String c (strip_trailing_slash s')
  end.

(** Whether Express runs a middleware mounted at [mount] for a request to
    [path]: routing is not case sensitive and not strict by default. *)
Definition mounted (mount path : string) : bool :=
  starts_segments (strip_trailing_slash mount) path.

(** The middlewares a request to [path] goes through. *)
Definition layers_for (path : string) : list Middleware :=
  (filter (fun layer => mounted layer.1 path = true) server_stack).*2.

Definition routers : list Middleware :=
  [authRoutes; candidateRoutes; employerRoutes; jobRoutes; skillRoutes;
   applicationRoutes].

(** Whether the profile table of the role of [u] has a row for [u]; an
    admin has no profile table. *)
Definition has_profile (u : User) (d : Db) : bool :=
  match users_role u with
  | candidate => bool_decide (users_id u ∈ candidate_profiles d)
  | employer => bool_decide (users_id u ∈ employer_profiles d)
  | admin => false
  end.

(** One employer with a pending code and a profile. *)
Definition user_employer : User :=
  mkUser 7 None "7777777777" None employer true false
         (Some "654321") (Some 5000%Z).

Definition world_employer : World :=
  mkWorld (mkDb [user_employer] 8 [] [7]) [] [] 1000%Z 0
          (fun _ => 0%Z) 0 (fun _ => None) 0.

(* ================================================================== *)
(** ** The statements the other routes build

    The routes of job.js, employer.js and skill.js that filter or update
    build the text of their statement and the array of its values side by
    side.  The fields of [req.query] and [req.body] are typed as in the auth
    routes: a string, or absent. *)

(** A value of the array passed to [client.query]. *)
Inductive Param : Type :=
| PString (s : string)
| PNumber (n : Z).

(** [list.join(sep)] *)
Fixpoint join (sep : string) (l : list string) : string :=
  match l with
  | [] => ""
  | [x] => x
  | x :: l' => x +:+ sep +:+ join sep l'
  end.

(** A line break of a template literal. *)
Definition LF : string := String "010" "".

(** *** GET /api/v1/jobs *)

Record JobsFilter : Type := mkJobsFilter {
  query_city : option string;
  query_state : option string;
  query_job_type : option string;
  query_experience_level : option string;
  query_search : option string;
  query_limit : option string;
  query_offset : option string
}.

Record JobsStatement : Type := mkJobsStatement {
  jobs_conditions : list string;
  jobs_query : string;
  jobs_values : list Param
}.

Definition get_jobs_statement (f : JobsFilter) : JobsStatement :=
  let limit := match query_limit f with
               | Some l => PString l
               | None => PNumber 20
               end in
  let offset := match query_offset f with
                | Some o => PString o
                | None => PNumber 0
                end in
  let conditions := ["status=$1"] in
  let values := [PString "active"] in
  let idx := 2%Z in
  let '(conditions, values, idx) :=
    if falsy (query_city f) then (conditions, values, idx)
    else (conditions ++ ["city=$" +:+ Number_toString idx],
          values ++ [PString (default "" (query_city f))], (idx + 1)%Z) in
  let '(conditions, values, idx) :=
    if falsy (query_state f) then (conditions, values, idx)
    else (conditions ++ ["state=$" +:+ Number_toString idx],
          values ++ [PString (default "" (query_state f))], (idx + 1)%Z) in
  let '(conditions, values, idx) :=
    if falsy (query_job_type f) then (conditions, values, idx)
    else (conditions ++ ["job_type=$" +:+ Number_toString idx],
          values ++ [PString (default "" (query_job_type f))], (idx + 1)%Z) in
  let '(conditions, values, idx) :=
    if falsy (query_experience_level f) then (conditions, values, idx)
    else (conditions ++ ["experience_level=$" +:+ Number_toString idx],
          values ++ [PString (default "" (query_experience_level f))],
          (idx + 1)%Z) in
  let whereClause :=
    if bool_decide (length conditions = 0) then ""
    else "WHERE " +:+ join " AND " conditions in
  let query :=
    LF +:+ "      SELECT j.*, "
    +:+ LF +:+ "             jsonb_build_object('company_name', e.company_name, 'logo_url', e.logo_url, 'city', e.city, 'state', e.state) AS employer"
    +:+ LF +:+ "      FROM jobs j"
    +:+ LF +:+ "      JOIN employer_profiles e ON e.id=j.employer_id"
    +:+ LF +:+ "      " +:+ whereClause
    +:+ LF +:+ "      ORDER BY posted_at DESC"
    +:+ LF +:+ "      LIMIT $" +:+ Number_toString idx
    +:+ " OFFSET $" +:+ Number_toString (idx + 1)
    +:+ LF +:+ "    " in
  mkJobsStatement conditions query (values ++ [limit; offset]).

(** *** Placeholders *)

Definition digit_value (c : ascii) : option Z :=
  let n := nat_of_ascii c in
  if (48 <=? n) && (n <=? 57) then Some (Z.of_nat (n - 48)) else None.

(** The number the digits at the start of [s] write, if [s] starts with a
    digit; [acc] is what was read already. *)
Fixpoint read_number (s : string) (acc : option Z) : option Z :=
  match s with
  | EmptyString => acc
  | String c s' =>
      match digit_value c with
      | Some d => read_number s' (Some (10 * default 0 acc + d)%Z)
      | None => acc
      end
  end.

(** The numbers [n] of the placeholders [$n] of a statement, in the order of
    the text. *)
Fixpoint placeholders (s : string) : list Z :=
  match s with
  | EmptyString => []
  | String c s' =>
      if Ascii.eqb c "$"
      then match read_number s' None with
           | Some n => n :: placeholders s'
           | None => placeholders s'
           end
      else placeholders s'
  end.

(** [$1], ..., [$n] *)
Definition one_to (n : nat) : list Z := Z.of_nat <$> seq 1 n.

(** *** The columns of the two tables the job list joins *)

Definition jobs_columns : list string :=
  ["id"; "employer_id"; "title"; "description"; "requirements"; "job_type";
   "experience_level"; "salary_min"; "salary_max"; "location"; "state";
   "city"; "pincode"; "shift_timing"; "benefits"; "contact_details";
   "status"; "posted_at"; "expires_at"; "created_at"; "updated_at"].

Definition employer_profiles_columns : list string :=
  ["id"; "user_id"; "company_name"; "company_description"; "industry";
   "company_size"; "website_url"; "gst_number"; "pan_number"; "address";
   "city"; "state"; "pincode"; "contact_person"; "contact_designation";
   "logo_url"; "is_verified"; "created_at"; "updated_at"].

(** What PostgreSQL makes of a column named without its table in
    [FROM jobs j JOIN employer_profiles e]. *)
Inductive Resolution : Type :=
| column_of_jobs
| column_of_employer_profiles
| column_ambiguous
| column_unknown.

Definition resolve (column : string) : Resolution :=
  match existsb (String.eqb column) jobs_columns,
        existsb (String.eqb column) employer_profiles_columns with
  | true, true => column_ambiguous
  | true, false => column_of_jobs
  | false, true => column_of_employer_profiles
  | false, false => column_unknown
  end.

(** The column a condition [column=$n] compares. *)
Fixpoint condition_column (condition : string) : string :=
  match condition with
  | EmptyString => ""
  | String c s' =>
      if Ascii.eqb c "=" then "" else String c (condition_column s')
  end.

Definition filter_city_state (city state : string) : JobsFilter :=
  mkJobsFilter (Some city) (Some state) None None None None None.

(** [v === s] for a field that may be absent. *)
Definition strict_equal (v : option string) (s : string) : bool :=
  match v with
  | Some x => String.eqb x s
  | None => false
  end.

(** *** PATCH /api/v1/employer/applications/:id/status *)

Record StatusUpdate : Type := mkStatusUpdate {
  update_status : option string;
  update_employer_notes : option string;
  update_interview_scheduled_at : option string;
  update_rejection_reason : option string
}.

Record UpdateStatement : Type := mkUpdateStatement {
  update_data : list string;
  update_query : string;
  update_values : list string
}.

Definition update_status_statement (id : string) (b : StatusUpdate)
  : UpdateStatement :=
  let updateData := [] in
  let values := [] in
  let idx := 1%Z in
  let '(updateData, values, idx) :=
    if falsy (update_status b) then (updateData, values, idx)
    else (updateData ++ ["status=$" +:+ Number_toString idx],
          values ++ [default "" (update_status b)], (idx + 1)%Z) in
  let '(updateData, values, idx) :=
    match update_employer_notes b with
    | None => (updateData, values, idx)
    | Some employer_notes =>
        (updateData ++ ["employer_notes=$" +:+ Number_toString idx],
         values ++ [employer_notes], (idx + 1)%Z)
    end in
  let '(updateData, values, idx) :=
    match update_rejection_reason b with
    | None => (updateData, values, idx)
    | Some rejection_reason =>
        (updateData ++ ["rejection_reason=$" +:+ Number_toString idx],
         values ++ [rejection_reason], (idx + 1)%Z)
    end in
  let updateData :=
    if strict_equal (update_status b) "shortlisted"
    then updateData ++ ["shortlisted_at=NOW()"]
    else updateData in
  let '(updateData, values, idx) :=
    if strict_equal (update_status b) "interview_scheduled"
       && negb (falsy (update_interview_scheduled_at b))
    then (updateData ++ ["interview_scheduled_at=$" +:+ Number_toString idx],
          values ++ [default "" (update_interview_scheduled_at b)],
          (idx + 1)%Z)
    else (updateData, values, idx) in
  let updateData := updateData ++ ["updated_at=NOW()"] in
  let query :=
    "UPDATE applications SET " +:+ join ", " updateData
    +:+ " WHERE id=$" +:+ Number_toString idx +:+ " RETURNING *" in
  mkUpdateStatement updateData query (values ++ [id]).

(** *** GET /api/v1/skills *)

Definition get_skills_statement (category search : option string)
  : string * list string :=
  let baseQuery := "SELECT * FROM skills WHERE is_active = true" in
  let params := [] in
  let '(baseQuery, params) :=
    if falsy category then (baseQuery, params)
    else
      let params := params ++ [default "" category] in
      (baseQuery +:+ " AND category = $"
       +:+ Number_toString (Z.of_nat (length params)), params) in
  let '(baseQuery, params) :=
    if falsy search then (baseQuery, params)
    else
      let params := params ++ ["%" +:+ default "" search +:+ "%"] in
      (baseQuery +:+ " AND name ILIKE $"
       +:+ Number_toString (Z.of_nat (length params)), params) in
  (baseQuery +:+ " ORDER BY name ASC", params).

(** *** [bulkInsertSkills] *)

(** An entry of the [skills] array of the body. *)
Record SkillInput : Type := mkSkillInput {
  skill_name : option string;
  skill_proficiency_level : option string;
  skill_years_of_experience : option Z
}.

(** A row of [SELECT id, name FROM skills WHERE name = ANY($1)]; [name] is
    NOT NULL. *)
Record SkillRow : Type := mkSkillRow {
  skill_row_id : string;
  skill_row_name : string
}.

(** [skillRows.find((s) => s.name === skill.name)] *)
Definition find_skill (skillRows : list SkillRow) (skill : SkillInput)
  : option SkillRow :=
  find (fun s => match skill_name skill with
                 | Some name => String.eqb (skill_row_name s) name
                 | None => false
                 end) skillRows.

(** [`($${idx}, $${idx + 1}, $${idx + 2}, $${idx + 3}, NOW())`] *)
Definition insert_tuple (idx : Z) : string :=
  "($" +:+ Number_toString idx
  +:+ ", $" +:+ Number_toString (idx + 1)
  +:+ ", $" +:+ Number_toString (idx + 2)
  +:+ ", $" +:+ Number_toString (idx + 3) +:+ ", NOW())".

(** The four values pushed for a skill whose row is [skillObj]. *)
Definition tuple_values (userId : string) (skillObj : SkillRow)
    (skill : SkillInput) : list Param :=
  [PString userId; PString (skill_row_id skillObj);
   PString (js_or (skill_proficiency_level skill) "basic");
   PNumber (default 0%Z (skill_years_of_experience skill))].

(** The body of the [for] loop on [(insertValues, values, idx)]: a skill
    without a row is skipped. *)
Definition bulkInsertSkills_step (userId : string) (skillRows : list SkillRow)
    (st : list string * list Param * Z) (skill : SkillInput)
  : list string * list Param * Z :=
  let '(insertValues, values, idx) := st in
  match find_skill skillRows skill with
  | None => st
  | Some skillObj =>
      (insertValues ++ [insert_tuple idx],
       values ++ tuple_values userId skillObj skill,
       (idx + 4)%Z)
  end.

(** The INSERT [bulkInsertSkills] sends, given the rows its SELECT
    returned: the text and the values; [None] when it sends none. *)
Definition bulkInsertSkills_statement (userId : string)
    (skills : option (list SkillInput)) (skillRows : list SkillRow)
  : option (string * list Param) :=
  match skills with
  | None | Some [] => None
  | Some skills =>
      if bool_decide (length skillRows = 0) then None
      else
        let '(insertValues, values, idx) :=
          fold_left (bulkInsertSkills_step userId skillRows) skills
                    ([], [], 1%Z) in
        if bool_decide (0 < length insertValues)
        then Some ("INSERT INTO user_skills (user_id, skill_id, proficiency_level, years_of_experience, created_at)"
                   +:+ LF +:+ "       VALUES " +:+ join ", " insertValues,
                   values)
        else None
  end.

(** The values of one skill of the request: none when it has no row. *)
Definition skill_values (userId : string) (skillRows : list SkillRow)
    (skill : SkillInput) : list Param :=
  match find_skill skillRows skill with
  | None => []
  | Some skillObj => tuple_values userId skillObj skill
  end.

(** [idx], [idx + 4], ...: where the tuples of [m] skills start. *)
Fixpoint tuple_starts (idx : Z) (m : nat) : list Z :=
  match m with
  | O => []
  | S m' => idx :: tuple_starts (idx + 4) m'
  end.

(** The pair (user_id, skill_id) of each row of the INSERT: its values
    taken four at a time.  [user_skills] is UNIQUE(user_id, skill_id). *)
Fixpoint inserted_keys (values : list Param) : list (Param * Param) :=
  match values with
  | user_id :: skill_id :: _ :: _ :: rest =>
      (user_id, skill_id) :: inserted_keys rest
  | _ => []
  end.

(** A request of two entries for the same skill. *)
Definition skills_twice : list SkillInput :=
  [mkSkillInput (Some "Welding") (Some "expert") (Some 5%Z);
   mkSkillInput (Some "Welding") None None].

(** A text without [$]. *)
Fixpoint no_dollar (s : string) : bool :=
  match s with
  | EmptyString => true
  | String c s' => negb (Ascii.eqb c "$") && no_dollar s'
  end.

(* ================================================================== *)
(** ** Rules for [holds] *)

Section Holds.

Variables (t : Z) (en : nat -> Z).

Lemma holds_ret {A} (I : View -> Prop) (Q : A -> View -> Prop) a :
  (forall v, I v -> Q a v) -> holds t en I (ret a) Q.
Proof.
  intros H w Ht Hen HI. simpl. repeat split; auto.
  intros a' E. inversion E; subst. auto.
Qed.

Lemma holds_throw {A} (I : View -> Prop) (Q : A -> View -> Prop) e :
  holds t en I (throw e) Q.
Proof. intros w Ht Hen HI. simpl. repeat split; auto. discriminate. Qed.

Lemma holds_bind {A B} (I : View -> Prop) (Q1 : B -> View -> Prop)
    (Q : A -> View -> Prop) (m : Async B) (k : B -> Async A) :
  holds t en I m Q1 ->
  (forall b, holds t en (fun v => I v /\ Q1 b v) (k b) Q) ->
  holds t en I (bind m k) Q.
Proof.
  intros Hm Hk w Ht Hen HI. unfold bind.
  destruct (Hm w Ht Hen HI) as (Ht1 & Hen1 & HI1 & HQ1).
  destruct (m w) as [[b|e] w1]; simpl in *.
  - destruct (Hk b w1 Ht1 Hen1) as (Ht2 & Hen2 & [HI2 _] & HQ2); auto.
  - repeat split; auto. discriminate.
Qed.

Lemma holds_try_catch {A} (I : View -> Prop) (Q : A -> View -> Prop)
    (m : Async A) (h : Error -> Async A) :
  holds t en I m Q -> (forall e, holds t en I (h e) Q) ->
  holds t en I (try_catch m h) Q.
Proof.
  intros Hm Hh w Ht Hen HI. unfold try_catch.
  destruct (Hm w Ht Hen HI) as (Ht1 & Hen1 & HI1 & HQ1).
  destruct (m w) as [[b|e] w1]; simpl in *.
  - repeat split; auto.
  - apply Hh; auto.
Qed.

Lemma holds_finally_release {A} (I : View -> Prop) (Q : A -> View -> Prop)
    (m : Async A) :
  holds t en I m Q -> holds t en I (finally m client_release) Q.
Proof.
  intros Hm w Ht Hen HI. unfold finally, client_release.
  destruct (Hm w Ht Hen HI) as (Ht1 & Hen1 & HI1 & HQ1).
  destruct (m w) as [c w1]; simpl in *. repeat split; auto.
Qed.

Lemma holds_weaken {A} (I : View -> Prop) (Q Q' : A -> View -> Prop)
    (m : Async A) :
  holds t en I m Q -> (forall a v, I v -> Q a v -> Q' a v) ->
  holds t en I m Q'.
Proof.
  intros Hm HQ w Ht Hen HI.
  destruct (Hm w Ht Hen HI) as (Ht1 & Hen1 & HI1 & HQ1).
  repeat split; auto.
Qed.

Lemma holds_console_log (I : View -> Prop) (Q : unit -> View -> Prop) l :
  (forall d c, I (mkView d c) ->
     I (mkView d (c ++ [l])) /\ Q tt (mkView d (c ++ [l]))) ->
  holds t en I (console_log l) Q.
Proof.
  intros H w Ht Hen HI. unfold console_log. simpl.
  destruct (H _ _ HI) as [H1 H2]. repeat split; auto.
  intros [] _. exact H2.
Qed.

Lemma holds_Date_now (I : View -> Prop) :
  holds t en I Date_now (fun now _ => now = t).
Proof.
  intros w Ht Hen HI. unfold Date_now. simpl. repeat split; auto.
  intros a E. inversion E; subst. reflexivity.
Qed.

Lemma holds_generateOTP (I : View -> Prop) :
  holds t en I generateOTP (fun otp _ => exists k, otp = otp_of_random (en k)).
Proof.
  intros w Ht Hen HI. unfold generateOTP, bind, Math_random, ret. simpl.
  repeat split; auto.
  intros a E. inversion E; subst. eexists. reflexivity.
Qed.

Lemma holds_jwt_sign (I : View -> Prop) c secret e :
  holds t en I (jwt_sign c secret e) (fun token _ => token = jwt c secret e).
Proof.
  unfold jwt_sign. case_decide; [apply holds_throw |].
  apply holds_ret. reflexivity.
Qed.

Lemma holds_pool_connect (I : View -> Prop) :
  holds t en I pool_connect (fun _ _ => True).
Proof.
  intros w Ht Hen HI. unfold pool_connect, bind, next_outage, throw.
  destruct (outage w (pool_calls w)); simpl; repeat split; auto.
Qed.

Lemma holds_client_query {A} (I : View -> Prop) (Q : A -> View -> Prop)
    (q : Sql A) :
  (forall d c rows d', I (mkView d c) -> exec_sql q d = inr (rows, d') ->
     I (mkView d' c) /\ Q rows (mkView d' c)) ->
  holds t en I (client_query q) Q.
Proof.
  intros H w Ht Hen HI. unfold client_query, bind, next_outage, throw.
  destruct (outage w (pool_calls w)); simpl.
  { repeat split; auto. discriminate. }
  destruct (exec_sql q (db w)) as [e|[rows d']] eqn:E; simpl.
  { repeat split; auto. discriminate. }
  destruct (H _ _ _ _ HI E) as [H1 H2]. repeat split; auto.
  intros a Ea. inversion Ea; subst. exact H2.
Qed.

Lemma holds_logEvent (I : View -> Prop) a :
  audit_stable I -> holds t en I (logEvent a) (fun _ _ => True).
Proof.
  intros HS. unfold logEvent.
  eapply holds_bind; [apply holds_Date_now | intros ts].
  eapply holds_bind.
  { apply (holds_console_log _ (fun _ _ => True)).
    intros d c [HI Hts]. repeat split; auto. }
  intros ?.
  eapply holds_bind; [apply holds_pool_connect | intros ?].
  apply holds_finally_release. apply holds_try_catch.
  - apply holds_client_query. intros d c rows d' HI E. simpl in E.
    destruct (_ && _) in E; inversion E; subst. auto.
  - intros err. apply holds_console_log.
    intros d c (((HI & ?) & ?) & ?). repeat split; auto.
Qed.

Lemma holds_runQuery {A} (I : View -> Prop) (Q : A -> View -> Prop)
    (q : Sql A) meta :
  audit_stable I -> (forall rows, audit_stable (Q rows)) ->
  (forall d c rows d', I (mkView d c) -> exec_sql q d = inr (rows, d') ->
     I (mkView d' c) /\ Q rows (mkView d' c)) ->
  holds t en I (runQuery q meta) Q.
Proof.
  intros HS HSQ H. unfold runQuery.
  eapply holds_bind; [apply holds_pool_connect | intros ?].
  apply holds_finally_release. apply holds_try_catch.
  - eapply holds_bind.
    { apply (holds_client_query _ Q). intros d c rows d' [HI _] E.
      destruct (H _ _ _ _ HI E). auto. }
    intros rows. eapply holds_bind.
    { apply holds_logEvent. intros d c l Hl [[HI ?] HQ].
      repeat split; auto; first [apply HS | apply HSQ]; auto. }
    intros ?. apply holds_ret. tauto.
  - intros err. eapply holds_bind.
    { apply holds_logEvent. intros d c l Hl [HI ?]. split; auto. }
    intros ?. apply holds_throw.
Qed.

End Holds.

(* ================================================================== *)
(** ** Rules for [succeeds] *)

Section Succeeds.

Variables (t : Z) (en : nat -> Z).

Lemma succeeds_ret {A} (P : View -> Prop) (Q : A -> View -> Prop) a :
  (forall v, P v -> Q a v) -> succeeds t en P (ret a) Q.
Proof. intros H w Hw Ht Hen HP. exists a. simpl. repeat split; auto. Qed.

Lemma succeeds_bind {A B} (P : View -> Prop) (Q1 : B -> View -> Prop)
    (Q : A -> View -> Prop) (m : Async B) (k : B -> Async A) :
  succeeds t en P m Q1 -> (forall b, succeeds t en (Q1 b) (k b) Q) ->
  succeeds t en P (bind m k) Q.
Proof.
  intros Hm Hk w Hw Ht Hen HP. unfold bind.
  destruct (Hm w Hw Ht Hen HP) as (b & E & Hw1 & Ht1 & Hen1 & HQ1).
  destruct (m w) as [c w1]; simpl in *. subst c.
  apply Hk; auto.
Qed.

Lemma succeeds_try_catch {A} (P : View -> Prop) (Q : A -> View -> Prop)
    (m : Async A) (h : Error -> Async A) :
  succeeds t en P m Q -> succeeds t en P (try_catch m h) Q.
Proof.
  intros Hm w Hw Ht Hen HP. unfold try_catch.
  destruct (Hm w Hw Ht Hen HP) as (b & E & Hw1 & Ht1 & Hen1 & HQ1).
  destruct (m w) as [c w1]; simpl in *. subst c. simpl. eauto 10.
Qed.

Lemma succeeds_finally_release {A} (P : View -> Prop) (Q : A -> View -> Prop)
    (m : Async A) :
  succeeds t en P m Q -> succeeds t en P (finally m client_release) Q.
Proof.
  intros Hm w Hw Ht Hen HP. unfold finally, client_release.
  destruct (Hm w Hw Ht Hen HP) as (b & E & Hw1 & Ht1 & Hen1 & HQ1).
  destruct (m w) as [c w1]; simpl in *. subst c. simpl. eauto 10.
Qed.

(** A fact that does not depend on the world can be taken out of the
    precondition. *)
Lemma succeeds_pure {A} (F : Prop) (P : View -> Prop) (Q : A -> View -> Prop)
    (m : Async A) :
  (F -> succeeds t en P m Q) -> succeeds t en (fun v => F /\ P v) m Q.
Proof. intros H w Hw Ht Hen [HF HP]. apply H; auto. Qed.

Lemma succeeds_console_log (P : View -> Prop) (Q : unit -> View -> Prop) l :
  (forall d c, P (mkView d c) -> Q tt (mkView d (c ++ [l]))) ->
  succeeds t en P (console_log l) Q.
Proof.
  intros H w Hw Ht Hen HP. exists tt. unfold console_log. simpl.
  repeat split; auto. apply H. exact HP.
Qed.

Lemma succeeds_Date_now (P : View -> Prop) :
  succeeds t en P Date_now (fun now v => now = t /\ P v).
Proof.
  intros w Hw Ht Hen HP. exists (clock w). unfold Date_now. simpl.
  repeat split; auto.
Qed.

Lemma succeeds_generateOTP (P : View -> Prop) :
  succeeds t en P generateOTP
    (fun otp v => (exists k, otp = otp_of_random (en k)) /\ P v).
Proof.
  intros w Hw Ht Hen HP. unfold generateOTP, bind, Math_random, ret. simpl.
  eexists. repeat split; eauto. subst en. eexists. reflexivity.
Qed.

Lemma succeeds_jwt_sign (P : View -> Prop) c secret e :
  secret <> "" ->
  succeeds t en P (jwt_sign c secret e)
    (fun token v => token = jwt c secret e /\ P v).
Proof.
  intros Hs. unfold jwt_sign. case_decide; [contradiction |].
  apply succeeds_ret. auto.
Qed.

Lemma succeeds_pool_connect (P : View -> Prop) :
  succeeds t en P pool_connect (fun _ v => P v).
Proof.
  intros w Hw Ht Hen HP. exists tt.
  unfold pool_connect, bind, next_outage. rewrite Hw. simpl.
  repeat split; auto.
Qed.

Lemma succeeds_client_query {A} (P : View -> Prop) (Q : A -> View -> Prop)
    (q : Sql A) :
  (forall d c, P (mkView d c) ->
     exists rows d', exec_sql q d = inr (rows, d') /\ Q rows (mkView d' c)) ->
  succeeds t en P (client_query q) Q.
Proof.
  intros H w Hw Ht Hen HP.
  destruct (H _ _ HP) as (rows & d' & E & HQ).
  exists rows. unfold client_query, bind, next_outage. rewrite Hw.
  simpl. rewrite E. simpl. repeat split; auto.
Qed.

Lemma succeeds_logEvent (P : View -> Prop) a :
  audit_stable P -> succeeds t en P (logEvent a) (fun _ v => P v).
Proof.
  intros HS. unfold logEvent.
  eapply succeeds_bind; [apply succeeds_Date_now | intros ts].
  eapply succeeds_bind.
  { apply (succeeds_console_log _ (fun _ v => P v)).
    intros d c [_ HP]. apply HS; auto. }
  intros ?.
  eapply succeeds_bind; [apply succeeds_pool_connect | intros ?].
  apply succeeds_finally_release.
  intros w Hw Ht Hen HP. exists tt.
  unfold try_catch, client_query, bind, next_outage, throw, console_log.
  rewrite Hw. simpl.
  destruct (_ && _); simpl; repeat split; auto.
  apply HS; auto.
Qed.

Lemma succeeds_runQuery {A} (P : View -> Prop) (Q : A -> View -> Prop)
    (q : Sql A) meta :
  (forall rows, audit_stable (Q rows)) ->
  (forall d c, P (mkView d c) ->
     exists rows d', exec_sql q d = inr (rows, d') /\ Q rows (mkView d' c)) ->
  succeeds t en P (runQuery q meta) Q.
Proof.
  intros HSQ H. unfold runQuery.
  eapply succeeds_bind; [apply succeeds_pool_connect | intros ?].
  apply succeeds_finally_release. apply succeeds_try_catch.
  eapply succeeds_bind; [apply succeeds_client_query, H | intros rows].
  eapply succeeds_bind; [apply succeeds_logEvent, HSQ | intros ?].
  apply succeeds_ret. auto.
Qed.

End Succeeds.

(* ================================================================== *)
(** ** The audit log sink: [logEvent] *)

(** Once the connection is acquired, [logEvent] completes normally whatever
    happens to its INSERT: the [catch] swallows the failure. *)
Lemma logEvent_completes_once_connected a w :
  outage w (pool_calls w) = None ->
  exists w', logEvent a w = (Normal tt, w').
Proof.
  intros H. unfold logEvent, bind, Date_now, console_log, pool_connect,
    bind, next_outage, finally, try_catch, client_query, bind, next_outage,
    client_release, throw.
  cbn. rewrite H. cbn.
  destruct (outage w (S (pool_calls w))) as [e|]; cbn; [eauto |].
  destruct (_ && _); cbn; eauto.
Qed.

(** C3.  [logEvent] does throw to its caller: [pool.connect()] is awaited
    before the [try], so a refused connection rejects the call.  With a
    pool that is lost after /verify-otp committed its UPDATE, the route ends
    with an exception and no response, the user already verified. *)
Theorem logEvent_throws_when_pool_connect_fails :
  (logEvent sample_log world_pool_down).1 = Throw ECONNREFUSED
  /\ (verify_otp process_dev (request_verify "9999999999" "123456")
        world_pool_lost).1 = Throw ECONNREFUSED
  /\ users (db (verify_otp process_dev (request_verify "9999999999" "123456")
                  world_pool_lost).2)
     = [set_verified user_pending].
Proof. vm_compute. auto. Qed.

(* ================================================================== *)
(** ** The routes, whatever the store does *)

(** Side conditions of the rules: a conjunction of facts stays true when
    [logEvent] prints if the invariant does. *)
Ltac stable :=
  let HH := fresh "HH" in
  unfold audit_stable; intros ? ? ? ? HH;
  cbn beta iota delta [v_db v_console] in HH |- *;
  repeat match goal with
         | X : _ /\ _ |- _ => destruct X
         end;
  repeat match goal with
         | |- _ /\ _ => split
         end;
  try assumption; eauto.

Ltac unpack :=
  repeat match goal with
         | X : _ /\ _ |- _ => destruct X
         | X : exists _, _ |- _ => destruct X
         end.

Lemma falsy_false (a : option string) :
  falsy a = false -> exists s, a = Some s /\ s <> "".
Proof.
  destruct a as [s|]; simpl; [| discriminate].
  intros H. apply bool_decide_eq_false in H. eauto.
Qed.

Lemma exec_sql_UpdateVerified id d rows d' :
  exec_sql (UpdateVerified id) d = inr (rows, d') ->
  candidate_profiles d' = candidate_profiles d
  /\ employer_profiles d' = employer_profiles d
  /\ users d' = (fun u => if decide (users_id u = id) then set_verified u else u)
                  <$> users d.
Proof. simpl. intros E. inversion E; subst. simpl. auto. Qed.

Lemma UpdateVerified_verifies id d rows d' :
  exec_sql (UpdateVerified id) d = inr (rows, d') ->
  verified_and_cleared id d'.
Proof.
  intros E. apply exec_sql_UpdateVerified in E as (_ & _ & Hu).
  intros u Hin Hid. rewrite Hu in Hin.
  apply list_elem_of_fmap in Hin as (u0 & -> & _).
  destruct (decide (users_id u0 = id)); [simpl; auto | contradiction].
Qed.

Section HoldsVerify.

Variables (t : Z) (en : nat -> Z) (process : Process).
Variables (Inv : View -> Prop) (req : Request).

Hypothesis Inv_stable : audit_stable Inv.

Hypothesis Inv_UpdateVerified :
  forall m o d_sel c_sel user rest d c rows d',
    body_mobile req = Some m -> body_otp req = Some o ->
    Inv (mkView d_sel c_sel) ->
    matching m o (users d_sel) = user :: rest ->
    ¬ (Date_of (users_otp_expires_at user) < t)%Z ->
    Inv (mkView d c) ->
    exec_sql (UpdateVerified (users_id user)) d = inr (rows, d') ->
    Inv (mkView d' c).

Lemma holds_verify_otp :
  holds t en Inv (verify_otp process req) (verify_otp_post t process Inv req).
Proof using Inv_stable Inv_UpdateVerified.
  unfold verify_otp, getClientInfo. cbv zeta.
  apply holds_try_catch.
  2:{ intros err. eapply holds_bind; [apply holds_logEvent, Inv_stable | intros ?].
      apply holds_ret. intros v _. unfold verify_otp_post. simpl. auto. }
  destruct (falsy (body_mobile req) || falsy (body_otp req)) eqn:Hin.
  { eapply holds_bind; [apply holds_logEvent, Inv_stable | intros ?].
    apply holds_ret. intros v _. unfold verify_otp_post. simpl. auto. }
  apply orb_false_iff in Hin as [Hm Ho].
  apply falsy_false in Hm as (m & Hm & Hmne).
  apply falsy_false in Ho as (o & Ho & Hone).
  rewrite Hm, Ho. cbn [default from_option id].
  eapply holds_bind.
  { apply (holds_runQuery _ _ _
             (fun rows _ => exists d_sel c_sel,
                  Inv (mkView d_sel c_sel) /\ rows = matching m o (users d_sel))).
    - exact Inv_stable.
    - intros rows. stable.
    - intros d c rows d' HI E. simpl in E. inversion E; subst.
      split; [exact HI |]. eauto. }
  intros [|user rest].
  { eapply holds_bind; [apply holds_logEvent; stable; try (apply Inv_stable; auto) | intros ?].
    apply holds_ret. intros v _. unfold verify_otp_post. simpl. auto. }
  eapply holds_bind; [apply holds_Date_now | intros now].
  destruct (Date_of (users_otp_expires_at user) <? now)%Z eqn:Hexp.
  { eapply holds_bind; [apply holds_logEvent; stable; try (apply Inv_stable; auto) | intros ?].
    apply holds_ret. intros v _. unfold verify_otp_post. simpl. auto. }
  eapply holds_bind.
  { apply (holds_runQuery _ _ _
             (fun _ v => verified_and_cleared (users_id user) (v_db v))).
    - stable; try (apply Inv_stable; auto).
    - intros rows. stable.
    - intros d c rows d' [[HI (d_sel & c_sel & HIsel & Hrows)] Hnow] E.
      subst now. apply Z.ltb_ge in Hexp.
      split; [| eapply UpdateVerified_verifies; eauto].
      repeat split; eauto.
      eapply (Inv_UpdateVerified m o d_sel c_sel user rest); eauto. lia. }
  intros ?.
  eapply holds_bind.
  { instantiate (1 := fun _ _ => True).
    destruct (users_role user).
    - eapply holds_bind.
      { apply (holds_runQuery _ _ _ (fun _ _ => True)).
        + stable; try (apply Inv_stable; auto).
        + intros rows. stable.
        + intros d c rows d' HI E. simpl in E. inversion E; subst. auto. }
      intros result. apply holds_ret. auto.
    - eapply holds_bind.
      { apply (holds_runQuery _ _ _ (fun _ _ => True)).
        + stable; try (apply Inv_stable; auto).
        + intros rows. stable.
        + intros d c rows d' HI E. simpl in E. inversion E; subst. auto. }
      intros result. apply holds_ret. auto.
    - apply holds_ret. auto. }
  intros hasProfile.
  eapply holds_bind; [apply holds_jwt_sign | intros token].
  eapply holds_bind;
    [apply holds_logEvent; stable; try (apply Inv_stable; auto) | intros ?].
  apply holds_ret. intros v HH. unpack. subst now token.
  apply Z.ltb_ge in Hexp.
  unfold verify_otp_post. simpl. split; [reflexivity |].
  match goal with
  | H1 : Inv (mkView ?d ?c), H2 : _ = matching _ _ (users ?d) |- _ =>
      exists m, o, d, c, user, rest
  end.
  repeat match goal with |- _ /\ _ => split end; auto; lia.
Qed.

End HoldsVerify.

Lemma valid_mobile (a : option string) :
  falsy a || bool_decide (String.length (default "" a) < 10) = false ->
  exists m, a = Some m /\ 10 <= String.length m.
Proof.
  intros H. apply orb_false_iff in H as [H1 H2].
  apply falsy_false in H1 as (m & -> & _). simpl in H2.
  apply bool_decide_eq_false in H2. exists m. split; [reflexivity | lia].
Qed.

Lemma UpdateOtp_stores otp e m d rows d' :
  exec_sql (UpdateOtp otp e m) d = inr (rows, d') -> stored_code m otp e d'.
Proof.
  simpl. destruct (varchar 6 otp); [| discriminate].
  intros E. inversion E; subst. intros u Hin Hm. simpl in Hin.
  apply list_elem_of_fmap in Hin as (u0 & -> & _).
  destruct (decide (users_mobile u0 = m)); [simpl; auto | contradiction].
Qed.

Lemma mobile_taken_false m us :
  mobile_taken m us = false -> forall u, u ∈ us -> users_mobile u <> m.
Proof.
  unfold mobile_taken. intros H u Hin Hm.
  apply bool_decide_eq_false in H. apply H.
  apply Exists_exists. eauto.
Qed.

Lemma exec_sql_InsertOtpUser m role otp e d rows d' :
  exec_sql (InsertOtpUser m role otp e) d = inr (rows, d') ->
  exists r,
    user_role_of_string role = Some r
    /\ varchar 15 m = true /\ varchar 6 otp = true
    /\ mobile_taken m (users d) = false
    /\ rows = [users_next_id d]
    /\ users d' = users d ++ [mkUser (users_next_id d) None m None r true false
                                     (Some otp) (Some e)]
    /\ users_next_id d' = S (users_next_id d)
    /\ candidate_profiles d' = candidate_profiles d
    /\ employer_profiles d' = employer_profiles d.
Proof.
  simpl. destruct (user_role_of_string role) as [r|]; [| discriminate].
  destruct (varchar 15 m); simpl; [| discriminate].
  destruct (varchar 6 otp); simpl; [| discriminate].
  destruct (mobile_taken m (users d)); [discriminate |].
  intros E. inversion E; subst. simpl. eauto 12.
Qed.

Lemma InsertOtpUser_stores m role otp e d rows d' :
  exec_sql (InsertOtpUser m role otp e) d = inr (rows, d') ->
  stored_code m otp e d'.
Proof.
  intros E. apply exec_sql_InsertOtpUser in E
    as (r & _ & _ & _ & Hfree & _ & Hu & _).
  intros u Hin Hm. rewrite Hu in Hin.
  apply elem_of_app in Hin as [Hin | Hin].
  - exfalso. eapply mobile_taken_false; eauto.
  - apply list_elem_of_singleton in Hin. subst u. simpl. auto.
Qed.

Section HoldsSendOtp.

Variables (t : Z) (en : nat -> Z) (process : Process).
Variables (Inv : View -> Prop) (req : Request).

Hypothesis Inv_stable : audit_stable Inv.

Hypothesis Inv_LogBody :
  forall d c, Inv (mkView d c) ->
    Inv (mkView d (c ++ [LogBody (body_mobile req) (body_role req)])).

Hypothesis Inv_UpdateOtp :
  forall m k d c rows d',
    body_mobile req = Some m -> 10 <= String.length m -> Inv (mkView d c) ->
    exec_sql (UpdateOtp (otp_of_random (en k)) (t + 10 * 60 * 1000)%Z m) d
    = inr (rows, d') ->
    Inv (mkView d' c).

Hypothesis Inv_InsertOtpUser :
  forall m k d c rows d',
    body_mobile req = Some m -> 10 <= String.length m -> Inv (mkView d c) ->
    exec_sql (InsertOtpUser m (default "candidate" (body_role req))
                (otp_of_random (en k)) (t + 10 * 60 * 1000)%Z) d
    = inr (rows, d') ->
    Inv (mkView d' c).

Hypothesis Inv_LogOtp :
  forall m k d c,
    body_mobile req = Some m -> development process = true ->
    Inv (mkView d c) ->
    Inv (mkView d (c ++ [LogOtp m (otp_of_random (en k))])).

Lemma holds_send_otp :
  holds t en Inv (send_otp process req) (send_otp_post t en process req).
Proof using Inv_stable Inv_LogBody Inv_UpdateOtp Inv_InsertOtpUser Inv_LogOtp.
  unfold send_otp, getClientInfo. cbv zeta.
  eapply holds_bind.
  { apply (holds_console_log _ _ _ (fun _ _ => True)). auto. }
  intros ?. apply holds_try_catch.
  2:{ intros err.
      eapply holds_bind;
        [apply holds_logEvent; stable; try (apply Inv_stable; auto) | intros ?].
      apply holds_ret. intros v _. unfold send_otp_post. simpl. auto. }
  destruct (falsy (body_mobile req) || _) eqn:Hin.
  { eapply holds_bind;
      [apply holds_logEvent; stable; try (apply Inv_stable; auto) | intros ?].
    apply holds_ret. intros v _. unfold send_otp_post. simpl. auto. }
  apply valid_mobile in Hin as (m & Hm & Hlen).
  rewrite Hm. cbn [default from_option id].
  eapply holds_bind; [apply holds_generateOTP | intros otp].
  eapply holds_bind; [apply holds_Date_now | intros now].
  eapply holds_bind.
  { apply (holds_runQuery _ _ _ (fun _ _ => True)).
    - stable; try (apply Inv_stable; auto).
    - intros rows. stable.
    - intros d c rows d' HI E. simpl in E. inversion E; subst. auto. }
  intros existing.
  eapply holds_bind.
  { instantiate (1 := fun _ v =>
       stored_code m otp (now + 10 * 60 * 1000)%Z (v_db v)).
    destruct existing as [|id0 ?].
    - eapply holds_bind.
      { apply (holds_runQuery _ _ _
                 (fun _ v => stored_code m otp (now + 10 * 60 * 1000)%Z (v_db v))).
        + stable; try (apply Inv_stable; auto).
        + intros rows. stable.
        + intros d c rows d' HH E. unpack. subst otp now.
          split; [| eapply InsertOtpUser_stores; eauto].
          repeat match goal with |- _ /\ _ => split end; eauto. }
      intros [|id0 ?]; [apply holds_throw |].
      eapply holds_weaken;
        [apply holds_logEvent; stable; try (apply Inv_stable; auto) |].
      intros a v HH _. unpack. assumption.
    - eapply holds_bind.
      { apply (holds_runQuery _ _ _
                 (fun _ v => stored_code m otp (now + 10 * 60 * 1000)%Z (v_db v))).
        + stable; try (apply Inv_stable; auto).
        + intros rows. stable.
        + intros d c rows d' HH E. unpack. subst otp now.
          split; [| eapply UpdateOtp_stores; eauto].
          repeat match goal with |- _ /\ _ => split end; eauto. }
      intros ?.
      eapply holds_weaken;
        [apply holds_logEvent; stable; try (apply Inv_stable; auto) |].
      intros a v HH _. unpack. assumption. }
  intros ?.
  eapply holds_bind.
  { instantiate (1 := fun _ v =>
       development process = true -> LogOtp m otp ∈ v_console v).
    destruct (development process) eqn:Hdev.
    - apply holds_console_log. intros d c HH.
      cbn beta iota delta [v_db v_console] in HH |- *. unpack. subst otp now.
      split.
      + repeat match goal with |- _ /\ _ => split end; eauto.
      + intros _. apply elem_of_app. right. apply list_elem_of_singleton.
        reflexivity.
    - apply holds_ret. intros v _. discriminate. }
  intros ?. apply holds_ret. intros v HH. unpack. subst otp now.
  unfold send_otp_post. simpl. repeat split.
  eexists m, _. repeat match goal with |- _ /\ _ => split end; eauto.
Qed.

End HoldsSendOtp.

Lemma exec_sql_InsertRegUser m email h role d rows d' :
  exec_sql (InsertRegUser m email h role) d = inr (rows, d') ->
  exists r,
    user_role_of_string role = Some r
    /\ varchar 15 m = true /\ varchar_null 255 email = true
    /\ mobile_taken m (users d) = false
    /\ email_taken email (users d) = false
    /\ rows = [mkRegisteredUser (users_next_id d) m email r]
    /\ users d' = users d ++ [mkUser (users_next_id d) email m h r true false
                                     None None]
    /\ users_next_id d' = S (users_next_id d)
    /\ candidate_profiles d' = candidate_profiles d
    /\ employer_profiles d' = employer_profiles d.
Proof.
  simpl. destruct (user_role_of_string role) as [r|]; [| discriminate].
  destruct (varchar 15 m); simpl; [| discriminate].
  destruct (varchar_null 255 email); simpl; [| discriminate].
  destruct (mobile_taken m (users d)); simpl; [discriminate |].
  destruct (email_taken email (users d)); [discriminate |].
  intros E. inversion E; subst. simpl. eauto 12.
Qed.

Section HoldsRegister.

Variables (t : Z) (en : nat -> Z) (process : Process).
Variables (Inv : View -> Prop) (req : Request).

Hypothesis Inv_stable : audit_stable Inv.

Hypothesis Inv_InsertRegUser :
  forall m e h r d c rows d',
    body_mobile req = Some m -> Inv (mkView d c) ->
    exec_sql (InsertRegUser m e h r) d = inr (rows, d') ->
    Inv (mkView d' c).

Lemma holds_register :
  holds t en Inv (register process req) (register_post process req).
Proof using Inv_stable Inv_InsertRegUser.
  unfold register, getClientInfo. cbv zeta.
  apply holds_try_catch.
  2:{ intros err.
      eapply holds_bind;
        [apply holds_logEvent; stable; try (apply Inv_stable; auto) | intros ?].
      apply holds_ret. intros v _. unfold register_post. simpl. auto. }
  destruct (falsy (body_mobile req)) eqn:Hin.
  { eapply holds_bind;
      [apply holds_logEvent; stable; try (apply Inv_stable; auto) | intros ?].
    apply holds_ret. intros v _. unfold register_post. simpl. auto. }
  pose proof Hin as Hfalsy.
  apply falsy_false in Hin as (m & Hm & Hne).
  rewrite Hm. cbn [default from_option id].
  eapply holds_bind.
  { apply (holds_runQuery _ _ _ (fun _ _ => True)).
    - stable; try (apply Inv_stable; auto).
    - intros rows. stable.
    - intros d c rows d' HI E. simpl in E. inversion E; subst. auto. }
  intros existing.
  destruct (bool_decide (0 < length existing)).
  { eapply holds_bind;
      [apply holds_logEvent; stable; try (apply Inv_stable; auto) | intros ?].
    apply holds_ret. intros v _. unfold register_post. simpl. auto. }
  eapply holds_bind.
  { apply (holds_runQuery _ _ _
             (fun rows v => forall user, user ∈ rows ->
                              reg_mobile user = m /\ registered user (v_db v))).
    - stable; try (apply Inv_stable; auto).
    - intros rows. stable.
    - intros d c rows d' HH E. unpack.
      split; [repeat match goal with |- _ /\ _ => split end; eauto |].
      apply exec_sql_InsertRegUser in E
        as (r & _ & _ & _ & _ & _ & -> & Hu & _).
      intros user Hin. apply list_elem_of_singleton in Hin. subst user.
      split; [reflexivity |]. unfold registered. simpl. rewrite Hu.
      eexists. split; [apply elem_of_app; right; apply list_elem_of_singleton;
                       reflexivity |].
      simpl. auto. }
  intros [|user ?]; [apply holds_throw |].
  eapply holds_bind; [apply holds_jwt_sign | intros token].
  eapply holds_bind;
    [apply holds_logEvent; stable; try (apply Inv_stable; auto) | intros ?].
  apply holds_ret. intros v HH. unpack. subst token.
  unfold register_post. simpl. repeat split.
  match goal with
  | H : forall u, u ∈ _ :: _ -> _ |- _ =>
      destruct (H user ltac:(apply list_elem_of_here)) as [? ?]
  end.
  exists m. repeat match goal with |- _ /\ _ => split end; auto.
Qed.

End HoldsRegister.

(* ================================================================== *)
(** ** [is_verified] never goes back to false *)

Lemma still_verified_refl l : still_verified l l.
Proof. intros u Hin Hv. eauto. Qed.

Lemma still_verified_trans l1 l2 l3 :
  still_verified l1 l2 -> still_verified l2 l3 -> still_verified l1 l3.
Proof.
  intros H12 H23 u Hin Hv.
  destruct (H12 u Hin Hv) as (u2 & Hin2 & Hid2 & Hv2).
  destruct (H23 u2 Hin2 Hv2) as (u3 & Hin3 & Hid3 & Hv3).
  exists u3. repeat split; auto. congruence.
Qed.

Lemma still_verified_fmap (f : User -> User) l :
  (forall u, users_id (f u) = users_id u) ->
  (forall u, users_is_verified u = true -> users_is_verified (f u) = true) ->
  still_verified l (f <$> l).
Proof.
  intros Hid Hv u Hin Hu. exists (f u).
  split; [apply list_elem_of_fmap_2; exact Hin |]. auto.
Qed.

Lemma still_verified_app l k : still_verified l (l ++ k).
Proof.
  intros u Hin Hu. exists u. split; [apply elem_of_app; auto | auto].
Qed.

(** No statement of the core takes a verification back. *)
Lemma exec_sql_still_verified {A} (q : Sql A) d rows d' :
  exec_sql q d = inr (rows, d') -> still_verified (users d) (users d').
Proof.
  destruct q; intros E.
  - simpl in E. destruct (_ && _) in E; inversion E; subst.
    apply still_verified_refl.
  - simpl in E. inversion E; subst. apply still_verified_refl.
  - simpl in E. destruct (varchar 6 otp); inversion E; subst. simpl.
    apply still_verified_fmap; intros u; case_decide; simpl; auto.
  - apply exec_sql_InsertOtpUser in E as (r & _ & _ & _ & _ & _ & -> & _).
    apply still_verified_app.
  - simpl in E. inversion E; subst. apply still_verified_refl.
  - apply exec_sql_UpdateVerified in E as (_ & _ & ->).
    apply still_verified_fmap; intros u; case_decide; simpl; auto.
  - simpl in E. inversion E; subst. apply still_verified_refl.
  - simpl in E. inversion E; subst. apply still_verified_refl.
  - apply exec_sql_InsertRegUser in E as (r & _ & _ & _ & _ & _ & _ & -> & _).
    apply still_verified_app.
Qed.

Section StillVerified.

Variables (process : Process) (l0 : list User).

Lemma keeps_verified_sql {A} (q : Sql A) d c rows d' :
  keeps_verified l0 (mkView d c) -> exec_sql q d = inr (rows, d') ->
  keeps_verified l0 (mkView d' c).
Proof.
  unfold keeps_verified. simpl. intros H E.
  eapply still_verified_trans; [exact H |].
  eapply exec_sql_still_verified; eauto.
Qed.

Lemma call_still_verified c w :
  still_verified l0 (users (db w)) ->
  still_verified l0 (users (db (call process c w))).
Proof.
  intros H. destruct c as [req|req|req|ms]; simpl; [| | | exact H].
  - refine (proj1 (proj2 (proj2
      (holds_send_otp (clock w) (entropy w) process (keeps_verified l0) req _ _ _ _ _
         w eq_refl eq_refl H)))); unfold keeps_verified; try (stable; fail); auto;
      intros; eapply keeps_verified_sql; eauto.
  - refine (proj1 (proj2 (proj2
      (holds_verify_otp (clock w) (entropy w) process (keeps_verified l0) req _ _
         w eq_refl eq_refl H)))); unfold keeps_verified; try (stable; fail);
      intros; eapply keeps_verified_sql; eauto.
  - refine (proj1 (proj2 (proj2
      (holds_register (clock w) (entropy w) process (keeps_verified l0) req _ _
         w eq_refl eq_refl H)))); unfold keeps_verified; try (stable; fail);
      intros; eapply keeps_verified_sql; eauto.
Qed.

End StillVerified.

Lemma calls_still_verified process cs w :
  still_verified (users (db w)) (users (db (calls process cs w))).
Proof.
  unfold calls.
  assert (H : forall l0 w, still_verified l0 (users (db w)) ->
            still_verified l0
              (users (db (fold_left (fun w c => call process c w) cs w)))).
  { induction cs as [|c cs IH]; intros l0 w0 H0; simpl; [exact H0 |].
    apply IH. apply call_still_verified. exact H0. }
  apply H. apply still_verified_refl.
Qed.

(** C9.  Through any sequence of calls of the three routes, and through
    every SQL statement of the core, a row that is verified stays in the
    table and stays verified. *)
Theorem is_verified_is_monotonic process (cs : list Call) (w : World) (u : User) :
  u ∈ users (db w) -> users_is_verified u = true ->
  (exists u', u' ∈ users (db (calls process cs w))
              /\ users_id u' = users_id u /\ users_is_verified u' = true)
  /\ (forall A (q : Sql A) rows d',
         exec_sql q (db w) = inr (rows, d') ->
         exists u', u' ∈ users d'
                    /\ users_id u' = users_id u
                    /\ users_is_verified u' = true).
Proof.
  intros Hin Hv. split.
  - exact (calls_still_verified process cs w u Hin Hv).
  - intros A q rows d' E.
    exact (exec_sql_still_verified q (db w) rows d' E u Hin Hv).
Qed.

Lemma is_verified_is_monotonic_witness :
  exists u', u' ∈ users (db (calls process_dev
                               [CallSendOtp (request_mobile "9999999999");
                                Elapse 1000;
                                CallRegister (request_mobile "9999999999")]
                               world_verified))
             /\ users_id u' = 1 /\ users_is_verified u' = true.
Proof.
  apply (is_verified_is_monotonic process_dev
           [CallSendOtp (request_mobile "9999999999");
            Elapse 1000;
            CallRegister (request_mobile "9999999999")]
           world_verified user_verified).
  - apply list_elem_of_here.
  - reflexivity.
Defined.

(* ================================================================== *)
(** ** Start-up and the signing secret *)

Lemma audit_stable_True : audit_stable (fun _ => True).
Proof. intros d c l _ _. exact I. Qed.

Section Tokens.

Variables (process : Process) (req : Request) (w : World) (resp : Response).

Lemma send_otp_token :
  (send_otp process req w).1 = Normal resp -> signed_by_process process resp.
Proof.
  intros E.
  pose proof (holds_send_otp (clock w) (entropy w) process (fun _ => True) req
                audit_stable_True ltac:(auto) ltac:(auto) ltac:(auto)
                ltac:(auto) w eq_refl eq_refl I) as (_ & _ & _ & H).
  specialize (H resp E). unfold send_otp_post in H.
  intros t Ht. unfold response_token in Ht.
  destruct (body resp); try discriminate; contradiction.
Qed.

Lemma verify_otp_token :
  (verify_otp process req w).1 = Normal resp -> signed_by_process process resp.
Proof.
  intros E.
  pose proof (holds_verify_otp (clock w) (entropy w) process (fun _ => True)
                req audit_stable_True ltac:(auto) w eq_refl eq_refl I)
    as (_ & _ & _ & H).
  specialize (H resp E). unfold verify_otp_post in H.
  intros t Ht. unfold response_token in Ht.
  destruct (body resp); try discriminate; try contradiction.
  inversion Ht; subst t. unpack. subst token. reflexivity.
Qed.

Lemma register_token :
  (register process req w).1 = Normal resp -> signed_by_process process resp.
Proof.
  intros E.
  pose proof (holds_register (clock w) (entropy w) process (fun _ => True)
                req audit_stable_True ltac:(auto) w eq_refl eq_refl I)
    as (_ & _ & _ & H).
  specialize (H resp E). unfold register_post in H.
  intros t Ht. unfold response_token in Ht.
  destruct (body resp); try discriminate; try contradiction.
  inversion Ht; subst t. unpack. subst token. reflexivity.
Qed.

End Tokens.

Lemma dotenv_config_twice (dotenv_file env : gmap string string) :
  dotenv_config dotenv_file (dotenv_config dotenv_file env)
  = dotenv_config dotenv_file env.
Proof.
  unfold dotenv_config. apply map_eq. intros i. rewrite !lookup_union.
  destruct (env !! i), (dotenv_file !! i); reflexivity.
Qed.

Lemma js_or_truthy (a : option string) (b : string) :
  falsy a <> true -> a = Some (js_or a b) /\ js_or a b <> "".
Proof.
  destruct a as [s|]; simpl; [| congruence].
  intros H. case_decide as Hs.
  - subst s. exfalso. apply H. reflexivity.
  - auto.
Qed.

Lemma server_start_cases (dotenv_file env : gmap string string) :
  let env1 := dotenv_config dotenv_file env in
  (falsy (env1 !! "JWT_SECRET") = true /\
   exists missing, server_start dotenv_file env = Exit 1 missing
                   /\ "JWT_SECRET" ∈ missing)
  \/ (falsy (env1 !! "JWT_SECRET") <> true /\
      ((exists missing, server_start dotenv_file env = Exit 1 missing)
       \/ server_start dotenv_file env
          = Listening (mkProcess env1 (auth_JWT_SECRET env1)))).
Proof.
  intros env1. unfold server_start, validateEnv_missing.
  rewrite dotenv_config_twice. fold env1.
  rewrite !filter_cons, filter_nil.
  destruct (decide (falsy (env1 !! "JWT_SECRET") = true)) as [Hj|Hj].
  - left. split; [exact Hj |].
    destruct (decide (falsy (env1 !! "DATABASE_URL") = true));
      eexists; (split; [reflexivity | set_solver]).
  - right. split; [exact Hj |].
    destruct (decide (falsy (env1 !! "DATABASE_URL") = true)); eauto.
Qed.

(** C4.  Without [JWT_SECRET] in the environment the process exits with
    code 1 before it listens; a process that listens holds the supplied,
    non-empty secret, [jwt.sign] never fails on it, and every token a route
    returns is signed with it. *)
Theorem signing_secret_fatal_at_startup (dotenv_file env : gmap string string) :
  let supplied := dotenv_config dotenv_file env !! "JWT_SECRET" in
  (falsy supplied = true ->
   exists missing, server_start dotenv_file env = Exit 1 missing
                   /\ "JWT_SECRET" ∈ missing)
  /\ (forall p, server_start dotenv_file env = Listening p ->
      supplied = Some (JWT_SECRET p)
      /\ JWT_SECRET p <> ""
      /\ (forall c e w,
             jwt_sign c (JWT_SECRET p) e w = (Normal (jwt c (JWT_SECRET p) e), w))
      /\ (forall req w resp,
             (send_otp p req w).1 = Normal resp
             \/ (verify_otp p req w).1 = Normal resp
             \/ (register p req w).1 = Normal resp ->
             signed_by_process p resp)).
Proof.
  intros supplied.
  destruct (server_start_cases dotenv_file env)
    as [[Hf Hexit] | [Hf Hrun]]; fold supplied in Hf.
  - split; [intros _; exact Hexit |].
    intros p Hp. destruct Hexit as (missing & E & _). congruence.
  - split; [intros Hf'; contradiction |].
    intros p Hp.
    destruct Hrun as [[missing E] | E]; [congruence |].
    rewrite E in Hp. inversion Hp; subst p; clear Hp. simpl.
    unfold auth_JWT_SECRET. fold supplied.
    destruct (js_or_truthy supplied "your-secret-key-change-in-production" Hf)
      as [Hs Hne].
    split; [exact Hs |]. split; [exact Hne |].
    split.
    { intros c e w. unfold jwt_sign. case_decide; [contradiction | reflexivity]. }
    intros req w resp [H | [H | H]].
    + eapply send_otp_token; eauto.
    + eapply verify_otp_token; eauto.
    + eapply register_token; eauto.
Qed.

Lemma signing_secret_fatal_at_startup_witness :
  (exists missing,
      server_start ∅ (<["DATABASE_URL" := "postgres://db"]> ∅) = Exit 1 missing
      /\ "JWT_SECRET" ∈ missing)
  /\ JWT_SECRET (mkProcess (<["JWT_SECRET" := "k3y"]>
                              (<["DATABASE_URL" := "postgres://db"]> ∅)) "k3y")
     <> "".
Proof.
  split.
  - apply (signing_secret_fatal_at_startup ∅
             (<["DATABASE_URL" := "postgres://db"]> ∅)).
    vm_compute. reflexivity.
  - apply (signing_secret_fatal_at_startup ∅
             (<["JWT_SECRET" := "k3y"]>
                (<["DATABASE_URL" := "postgres://db"]> ∅))).
    vm_compute. reflexivity.
Defined.

(* ================================================================== *)
(** ** The doubles of [generateOTP] *)

Section Round53.

Local Open Scope Z_scope.

Lemma round53_exact n : Z.log2 n + 1 <= 53 -> round53 n = n.
Proof.
  intros H. unfold round53. cbv zeta.
  destruct (Z.leb_spec (Z.log2 n + 1) 53); [reflexivity | lia].
Qed.

(** Above 53 bits the result is one of the two neighbouring multiples of the
    unit in the last place, the upper one only from the midpoint on. *)
Lemma round53_inexact n :
  53 < Z.log2 n + 1 ->
  let ulp := 2 ^ (Z.log2 n + 1 - 53) in
  round53 n = n / ulp * ulp
  \/ (round53 n = (n / ulp + 1) * ulp /\ ulp <= 2 * (n mod ulp)).
Proof.
  intros H ulp. unfold round53. cbv zeta.
  destruct (Z.leb_spec (Z.log2 n + 1) 53); [lia |].
  fold ulp.
  destruct (Z.ltb_spec ulp (2 * (n mod ulp))); simpl.
  - right. split; [reflexivity | lia].
  - destruct (Z.eqb_spec (2 * (n mod ulp)) ulp); simpl.
    + destruct (Z.odd (n / ulp)); [right | left]; [split |]; try reflexivity; lia.
    + left. reflexivity.
Qed.

Lemma ulp_divides n k :
  53 < Z.log2 n + 1 -> Z.log2 n + 1 - 53 <= k ->
  forall x, (2 ^ k | x) -> (2 ^ (Z.log2 n + 1 - 53) | x).
Proof.
  intros Hb Hk x [z Hz].
  exists (z * 2 ^ (k - (Z.log2 n + 1 - 53))).
  rewrite <- Z.mul_assoc, <- Z.pow_add_r by lia.
  replace (k - (Z.log2 n + 1 - 53) + (Z.log2 n + 1 - 53)) with k by lia.
  exact Hz.
Qed.

Lemma round53_ge n L k :
  0 <= L <= n -> Z.log2 n + 1 - 53 <= k -> (2 ^ k | L) -> L <= round53 n.
Proof.
  intros HL Hk Hdiv.
  destruct (Z.le_gt_cases (Z.log2 n + 1) 53) as [Hb|Hb].
  { rewrite round53_exact by exact Hb. lia. }
  destruct (ulp_divides n k Hb Hk L Hdiv) as [l Hl].
  pose proof (round53_inexact n Hb) as Hr. cbv zeta in Hr.
  set (ulp := 2 ^ (Z.log2 n + 1 - 53)) in *.
  assert (0 < ulp) by (apply Z.pow_pos_nonneg; lia).
  assert (l <= n / ulp) by (apply Z.div_le_lower_bound; lia).
  destruct Hr as [-> | [-> _]]; nia.
Qed.

Lemma round53_le n U k :
  0 <= n <= U -> Z.log2 n + 1 - 53 <= k -> (2 ^ k | U) -> round53 n <= U.
Proof.
  intros HU Hk Hdiv.
  destruct (Z.le_gt_cases (Z.log2 n + 1) 53) as [Hb|Hb].
  { rewrite round53_exact by exact Hb. lia. }
  destruct (ulp_divides n k Hb Hk U Hdiv) as [u Hu].
  pose proof (round53_inexact n Hb) as Hr. cbv zeta in Hr.
  set (ulp := 2 ^ (Z.log2 n + 1 - 53)) in *.
  assert (0 < ulp) by (apply Z.pow_pos_nonneg; lia).
  pose proof (Z.div_mod n ulp ltac:(lia)) as Hdm.
  pose proof (Z.mod_pos_bound n ulp ltac:(lia)) as Hm.
  destruct Hr as [-> | [-> Hhalf]]; [lia |].
  assert (n / ulp < u).
  { destruct (Z.lt_ge_cases (n / ulp) u) as [|Hge]; [assumption |].
    pose proof (Z.mul_le_mono_nonneg_r u (n / ulp) ulp ltac:(lia) Hge). lia. }
  pose proof (Z.mul_le_mono_nonneg_r (n / ulp + 1) u ulp ltac:(lia) ltac:(lia)).
  lia.
Qed.

Lemma round53_le_below_midpoint n U :
  53 < Z.log2 n + 1 ->
  (2 ^ (Z.log2 n + 1 - 53) | U) ->
  2 * n < 2 * U + 2 ^ (Z.log2 n + 1 - 53) ->
  round53 n <= U.
Proof.
  intros Hb [u Hu] Hmid.
  pose proof (round53_inexact n Hb) as Hr. cbv zeta in Hr.
  set (ulp := 2 ^ (Z.log2 n + 1 - 53)) in *.
  assert (0 < ulp) by (apply Z.pow_pos_nonneg; lia).
  pose proof (Z.div_mod n ulp ltac:(lia)) as Hdm.
  pose proof (Z.mod_pos_bound n ulp ltac:(lia)) as Hm.
  destruct Hr as [-> | [-> Hhalf]].
  - assert (n / ulp <= u).
    { destruct (Z.le_gt_cases (n / ulp) u) as [|Hgt]; [assumption |].
      pose proof (Z.mul_le_mono_nonneg_r (u + 1) (n / ulp) ulp
                    ltac:(lia) ltac:(lia)). lia. }
    pose proof (Z.mul_le_mono_nonneg_r (n / ulp) u ulp ltac:(lia) ltac:(lia)).
    lia.
  - assert (n / ulp < u).
    { destruct (Z.lt_ge_cases (n / ulp) u) as [|Hge]; [assumption |].
      pose proof (Z.mul_le_mono_nonneg_r u (n / ulp) ulp ltac:(lia) Hge). lia. }
    pose proof (Z.mul_le_mono_nonneg_r (n / ulp + 1) u ulp ltac:(lia) ltac:(lia)).
    lia.
Qed.

End Round53.

Section OtpRange.

Local Open Scope Z_scope.

Lemma log2_bits_below n k : 0 <= n < 2 ^ (k + 53) -> 0 <= k -> Z.log2 n + 1 - 53 <= k.
Proof.
  intros [H0 Hn] Hk.
  destruct (Z.eq_dec n 0) as [->|Hne]; [simpl; lia |].
  assert (Z.log2 n < k + 53) by (apply Z.log2_lt_pow2; lia). lia.
Qed.

(** The largest double below 1 is [1 - 2^-53]. *)
Lemma unit_double_max r : unit_double r -> 0 <= r <= 2 ^ 1074 - 2 ^ 1021.
Proof.
  intros [[H0 H1] Hr]. unfold double_one in H1. split; [exact H0 |].
  assert (H74 : 2 ^ 1074 = 2 ^ 1021 * 2 ^ 53) by (rewrite <- Z.pow_add_r by lia; reflexivity).
  assert (H73 : 2 ^ 1073 = 2 ^ 1021 * 2 ^ 52) by (rewrite <- Z.pow_add_r by lia; reflexivity).
  assert (HP : 0 < 2 ^ 1021) by (apply Z.pow_pos_nonneg; lia).
  change (2 ^ 53) with 9007199254740992 in H74.
  change (2 ^ 52) with 4503599627370496 in H73.
  destruct (Z.lt_ge_cases r (2 ^ 1073)) as [Hlt|Hge].
  { rewrite H74. rewrite H73 in Hlt. remember (2 ^ 1021) as P. lia. }
  assert (Hlog : Z.log2 r = 1073).
  { apply Z.log2_unique; [lia |]. change (Z.succ 1073) with 1074. lia. }
  assert (Hb : 53 < Z.log2 r + 1) by lia.
  pose proof (round53_inexact r Hb) as Hi. cbv zeta in Hi.
  rewrite Hr, Hlog in Hi. change (1073 + 1 - 53) with 1021 in Hi.
  rewrite H74 in H1 |- *.
  remember (2 ^ 1021) as P. remember (r / P) as q.
  destruct Hi as [Hi | [Hi _]].
  - assert (q < 9007199254740992) by nia. nia.
  - assert (q + 1 < 9007199254740992) by nia. nia.
Qed.

Lemma double_mul_900000_range r :
  unit_double r ->
  0 <= double_mul r 900000 <= 900000 * 2 ^ 1074 - 2 ^ 1041.
Proof.
  intros Hr. pose proof (unit_double_max r Hr) as [H0 Hmax].
  unfold double_mul.
  assert (H74 : 2 ^ 1074 = 2 ^ 1021 * 2 ^ 53) by (rewrite <- Z.pow_add_r by lia; reflexivity).
  assert (H93 : 2 ^ 1093 = 2 ^ 1021 * 2 ^ 72) by (rewrite <- Z.pow_add_r by lia; reflexivity).
  assert (H94 : 2 ^ 1094 = 2 ^ 1021 * 2 ^ 73) by (rewrite <- Z.pow_add_r by lia; reflexivity).
  assert (H41 : 2 ^ 1041 = 2 ^ 1021 * 2 ^ 20) by (rewrite <- Z.pow_add_r by lia; reflexivity).
  assert (HP : 0 < 2 ^ 1021) by (apply Z.pow_pos_nonneg; lia).
  change (2 ^ 53) with 9007199254740992 in H74.
  change (2 ^ 72) with 4722366482869645213696 in H93.
  change (2 ^ 73) with 9444732965739290427392 in H94.
  change (2 ^ 20) with 1048576 in H41.
  split.
  { apply (round53_ge _ 0 (Z.log2 (r * 900000) + 1 - 53)); [lia | lia |].
    apply Z.divide_0_r. }
  destruct (Z.lt_ge_cases (r * 900000) (2 ^ 1093)) as [Hlt|Hge].
  - transitivity (2 ^ 1093).
    + apply (round53_le _ _ 1040); [lia | |].
      * apply log2_bits_below; [| lia]. change (1040 + 53) with 1093. lia.
      * exists (2 ^ 53). rewrite <- Z.pow_add_r by lia. reflexivity.
    + rewrite H93, H74, H41. remember (2 ^ 1021) as P. lia.
  - assert (Hlog : Z.log2 (r * 900000) = 1093).
    { apply Z.log2_unique; [lia |]. change (Z.succ 1093) with 1094.
      split; [lia |]. rewrite H94. rewrite H74 in Hmax.
      remember (2 ^ 1021) as P. lia. }
    apply round53_le_below_midpoint; rewrite Hlog;
      change (1093 + 1 - 53) with 1041; [lia | |].
    + exists (900000 * 2 ^ 33 - 1).
      rewrite Z.mul_sub_distr_r, <- Z.mul_assoc, <- Z.pow_add_r by lia.
      change (33 + 1041) with 1074. lia.
    + rewrite H41, H74. rewrite H74 in Hmax. remember (2 ^ 1021) as P. lia.
Qed.

Lemma generateOTP_number_range r :
  unit_double r ->
  100000 <= Math_floor (double_add 100000 (double_mul r 900000)) <= 999999.
Proof.
  intros Hr. pose proof (double_mul_900000_range r Hr) as [Hp0 Hp1].
  remember (double_mul r 900000) as p.
  unfold Math_floor, double_add, double_one.
  assert (H74 : 2 ^ 1074 = 2 ^ 1021 * 2 ^ 53) by (rewrite <- Z.pow_add_r by lia; reflexivity).
  assert (H94 : 2 ^ 1094 = 2 ^ 1021 * 2 ^ 73) by (rewrite <- Z.pow_add_r by lia; reflexivity).
  assert (H41 : 2 ^ 1041 = 2 ^ 1021 * 2 ^ 20) by (rewrite <- Z.pow_add_r by lia; reflexivity).
  assert (HP : 0 < 2 ^ 1021) by (apply Z.pow_pos_nonneg; lia).
  change (2 ^ 53) with 9007199254740992 in H74.
  change (2 ^ 73) with 9444732965739290427392 in H94.
  change (2 ^ 20) with 1048576 in H41.
  assert (Hbits : Z.log2 (100000 * 2 ^ 1074 + p) + 1 - 53 <= 1041).
  { apply log2_bits_below; [| lia]. change (1041 + 53) with 1094.
    rewrite H94. rewrite H74, H41 in Hp1. rewrite H74.
    remember (2 ^ 1021) as P. lia. }
  assert (Hlo : 100000 * 2 ^ 1074 <= round53 (100000 * 2 ^ 1074 + p)).
  { apply (round53_ge _ _ 1041); [lia | exact Hbits |].
    exists (100000 * 2 ^ 33).
    rewrite <- Z.mul_assoc, <- Z.pow_add_r by lia. reflexivity. }
  assert (Hhi : round53 (100000 * 2 ^ 1074 + p) <= 1000000 * 2 ^ 1074 - 2 ^ 1041).
  { apply (round53_le _ _ 1041); [lia | exact Hbits |].
    exists (1000000 * 2 ^ 33 - 1).
    rewrite Z.mul_sub_distr_r, <- Z.mul_assoc, <- Z.pow_add_r by lia.
    change (33 + 1041) with 1074. lia. }
  assert (H1 : 0 < 2 ^ 1074) by (apply Z.pow_pos_nonneg; lia).
  split.
  - apply Z.div_le_lower_bound; lia.
  - assert (round53 (100000 * 2 ^ 1074 + p) / 2 ^ 1074 < 1000000); [| lia].
    apply Z.div_lt_upper_bound; [lia |].
    rewrite H41 in Hhi. remember (2 ^ 1021) as P. lia.
Qed.

End OtpRange.

Section Digits.

Local Open Scope Z_scope.

Local Ltac lia_div := Z.div_mod_to_equations; lia.

Lemma digit_cases d :
  0 <= d <= 9 ->
  d = 0 \/ d = 1 \/ d = 2 \/ d = 3 \/ d = 4 \/ d = 5 \/ d = 6 \/ d = 7
  \/ d = 8 \/ d = 9.
Proof. lia. Qed.

Lemma digit_is_digit d : 0 <= d <= 9 -> is_digit (digit d) = true.
Proof.
  intros H. destruct (digit_cases d H) as [->|[->|[->|[->|[->|[->|[->|[->|[->| ->]]]]]]]]];
    reflexivity.
Qed.

Lemma digit_nonzero d : 1 <= d <= 9 -> digit d <> "0"%char.
Proof.
  intros H.
  assert (H' : 0 <= d <= 9) by lia.
  destruct (digit_cases d H') as [->|[->|[->|[->|[->|[->|[->|[->|[->| ->]]]]]]]]];
    try lia; discriminate.
Qed.

(** The decimal rendering of a number between 100000 and 999999. *)
Lemma Number_toString_six n :
  100000 <= n <= 999999 ->
  Number_toString n =
    String (digit (n / 100000))
      (String (digit (n / 10000 mod 10))
         (String (digit (n / 1000 mod 10))
            (String (digit (n / 100 mod 10))
               (String (digit (n / 10 mod 10))
                  (String (digit (n mod 10)) EmptyString))))).
Proof.
  intros H. unfold Number_toString.
  assert (Hlog : 16 <= Z.log2 n).
  { apply Z.log2_le_pow2; [lia |]. change (2 ^ 16) with 65536. lia. }
  assert (Hfuel : exists f, S (Z.to_nat (Z.log2 n)) = (6 + f)%nat).
  { exists (Z.to_nat (Z.log2 n) - 5)%nat. lia. }
  destruct Hfuel as [f ->].
  cbn [decimal Nat.add].
  assert (E1 : (n / 10 =? 0) = false) by (apply Z.eqb_neq; lia_div).
  assert (E2 : (n / 10 / 10 =? 0) = false) by (apply Z.eqb_neq; lia_div).
  assert (E3 : (n / 10 / 10 / 10 =? 0) = false) by (apply Z.eqb_neq; lia_div).
  assert (E4 : (n / 10 / 10 / 10 / 10 =? 0) = false) by (apply Z.eqb_neq; lia_div).
  assert (E5 : (n / 10 / 10 / 10 / 10 / 10 =? 0) = false) by (apply Z.eqb_neq; lia_div).
  assert (E6 : (n / 10 / 10 / 10 / 10 / 10 / 10 =? 0) = true) by (apply Z.eqb_eq; lia_div).
  rewrite E1, E2, E3, E4, E5, E6.
  replace (n / 10 / 10 / 10 / 10 / 10 mod 10) with (n / 100000) by lia_div.
  replace (n / 10 / 10 / 10 / 10 mod 10) with (n / 10000 mod 10) by lia_div.
  replace (n / 10 / 10 / 10 mod 10) with (n / 1000 mod 10) by lia_div.
  replace (n / 10 / 10 mod 10) with (n / 100 mod 10) by lia_div.
  reflexivity.
Qed.

Lemma Number_toString_shape n :
  100000 <= n <= 999999 ->
  six_digits (Number_toString n)
  /\ exists c, first_char (Number_toString n) = Some c /\ c <> "0"%char.
Proof.
  intros H. rewrite (Number_toString_six n H). split.
  - unfold six_digits. repeat constructor; apply digit_is_digit; lia_div.
  - eexists. split; [reflexivity |]. apply digit_nonzero. lia_div.
Qed.

End Digits.

(* ================================================================== *)
(** ** The routes, when the store answers *)

Lemma existing_nil m us :
  users_id <$> filter (fun u => users_mobile u = m) us = []
  <-> mobile_taken m us = false.
Proof.
  unfold mobile_taken. rewrite bool_decide_eq_false.
  induction us as [|u us IH]; simpl.
  - split; [intros _ H; inversion H | reflexivity].
  - rewrite filter_cons. destruct (decide (users_mobile u = m)) as [E|E].
    + split; [discriminate |]. intros H. exfalso. apply H. left. exact E.
    + rewrite IH. split.
      * intros H H'. inversion H'; subst; contradiction.
      * intros H H'. apply H. right. exact H'.
Qed.

Lemma exec_sql_UpdateOtp otp e m d rows d' :
  exec_sql (UpdateOtp otp e m) d = inr (rows, d') ->
  varchar 6 otp = true
  /\ users d' = (fun u => if decide (users_mobile u = m)
                          then set_otp otp e u else u) <$> users d
  /\ users_next_id d' = users_next_id d
  /\ candidate_profiles d' = candidate_profiles d
  /\ employer_profiles d' = employer_profiles d.
Proof.
  simpl. destruct (varchar 6 otp); [| discriminate].
  intros E. inversion E; subst. simpl. auto.
Qed.

Section SucceedsSendOtp.

Variables (t : Z) (en : nat -> Z) (process : Process) (req : Request).
Variables (m : string) (d0 : Db).

Hypothesis mobile_given : body_mobile req = Some m.
Hypothesis mobile_long_enough : 10 <= String.length m.
Hypothesis codes_fit : forall k, varchar 6 (otp_of_random (en k)) = true.
Hypothesis insert_accepted :
  mobile_taken m (users d0) = false ->
  varchar 15 m = true
  /\ exists r, user_role_of_string (default "candidate" (body_role req)) = Some r.

Lemma succeeds_send_otp :
  succeeds t en (fun v => v_db v = d0) (send_otp process req)
    (fun resp v =>
       exists k,
         resp = mkResponse 200
                  (SendOtpBody true "OTP sent successfully"
                     (if development process
                      then Some (otp_of_random (en k)) else None))
         /\ if mobile_taken m (users d0)
            then exec_sql (UpdateOtp (otp_of_random (en k))
                             (t + 10 * 60 * 1000)%Z m) d0
                 = inr (tt, v_db v)
            else exec_sql (InsertOtpUser m
                             (default "candidate" (body_role req))
                             (otp_of_random (en k))
                             (t + 10 * 60 * 1000)%Z) d0
                 = inr ([users_next_id d0], v_db v)).
Proof using mobile_given mobile_long_enough codes_fit insert_accepted.
  unfold send_otp, getClientInfo. cbv zeta.
  eapply succeeds_bind.
  { apply (succeeds_console_log _ _ _ (fun _ v => v_db v = d0)). auto. }
  intros ?. apply succeeds_try_catch.
  rewrite mobile_given.
  replace (falsy (Some m) || _) with false.
  2:{ symmetry. apply orb_false_iff. simpl. split; apply bool_decide_eq_false.
      - intros ->. simpl in mobile_long_enough. lia.
      - lia. }
  cbn [default from_option id].
  eapply succeeds_bind; [apply succeeds_generateOTP | intros otp].
  apply succeeds_pure. intros [k ->].
  eapply succeeds_bind; [apply succeeds_Date_now | intros now].
  apply succeeds_pure. intros ->.
  eapply succeeds_bind.
  { apply (succeeds_runQuery _ _ _
             (fun existing v =>
                existing = users_id <$> filter (fun u => users_mobile u = m)
                                          (users d0)
                /\ v_db v = d0)).
    - intros rows. stable.
    - intros d c Hd. simpl in Hd. subst d. simpl. eauto. }
  intros existing. apply succeeds_pure. intros Hex.
  eapply succeeds_bind.
  { instantiate (1 := fun _ v =>
       if mobile_taken m (users d0)
       then exec_sql (UpdateOtp (otp_of_random (en k))
                        (t + 10 * 60 * 1000)%Z m) d0 = inr (tt, v_db v)
       else exec_sql (InsertOtpUser m (default "candidate" (body_role req))
                        (otp_of_random (en k)) (t + 10 * 60 * 1000)%Z) d0
            = inr ([users_next_id d0], v_db v)).
    destruct existing as [|id0 ?].
    - symmetry in Hex. apply existing_nil in Hex. rewrite Hex.
      destruct (insert_accepted Hex) as [Hv [r Hr]].
      eapply succeeds_bind.
      { apply (succeeds_runQuery _ _ _
                 (fun inserted v =>
                    inserted = [users_next_id d0]
                    /\ exec_sql (InsertOtpUser m
                                   (default "candidate" (body_role req))
                                   (otp_of_random (en k))
                                   (t + 10 * 60 * 1000)%Z) d0
                       = inr ([users_next_id d0], v_db v))).
        - intros rows. stable.
        - intros d c Hd. simpl in Hd. subst d.
          simpl. rewrite Hr, Hv, codes_fit, Hex. simpl. eauto. }
      intros inserted. apply succeeds_pure. intros ->.
      apply succeeds_logEvent. stable.
    - destruct (mobile_taken m (users d0)) eqn:Htaken.
      2:{ apply existing_nil in Htaken. congruence. }
      eapply succeeds_bind.
      { apply (succeeds_runQuery _ _ _
                 (fun _ v =>
                    exec_sql (UpdateOtp (otp_of_random (en k))
                                (t + 10 * 60 * 1000)%Z m) d0
                    = inr (tt, v_db v))).
        - intros rows. stable.
        - intros d c Hd. simpl in Hd. subst d.
          simpl. rewrite codes_fit. simpl. eauto. }
      intros ?.
      apply succeeds_logEvent. stable. }
  intros ?.
  eapply succeeds_bind.
  { instantiate (1 := fun _ v =>
       if mobile_taken m (users d0)
       then exec_sql (UpdateOtp (otp_of_random (en k))
                        (t + 10 * 60 * 1000)%Z m) d0 = inr (tt, v_db v)
       else exec_sql (InsertOtpUser m (default "candidate" (body_role req))
                        (otp_of_random (en k)) (t + 10 * 60 * 1000)%Z) d0
            = inr ([users_next_id d0], v_db v)).
    destruct (development process).
    - apply succeeds_console_log. intros d c H. exact H.
    - apply succeeds_ret. auto. }
  intros ?. apply succeeds_ret. intros v H. exists k. split; [reflexivity | exact H].
Qed.

End SucceedsSendOtp.


Lemma succeeds_exists t en {A X} (P : X -> View -> Prop)
    (Q : A -> View -> Prop) (m : Async A) :
  (forall x, succeeds t en (P x) m Q) ->
  succeeds t en (fun v => exists x, P x v) m Q.
Proof. intros H w Hw Ht Hen [x HP]. eapply H; eauto. Qed.

Section SucceedsVerifyOtp.

Variables (t : Z) (en : nat -> Z) (process : Process) (req : Request).
Variables (m o : string) (d0 : Db).

Hypothesis mobile_given : body_mobile req = Some m.
Hypothesis otp_given : body_otp req = Some o.
Hypothesis mobile_not_empty : m <> "".
Hypothesis otp_not_empty : o <> "".
Hypothesis secret_not_empty :
  forall user rest,
    matching m o (users d0) = user :: rest ->
    (Date_of (users_otp_expires_at user) <? t)%Z = false ->
    JWT_SECRET process <> "".

Lemma succeeds_verify_otp :
  succeeds t en (fun v => v_db v = d0) (verify_otp process req)
    (fun resp v =>
       match matching m o (users d0) with
       | [] =>
           resp = mkResponse 400 (ErrorBody "Invalid OTP") /\ v_db v = d0
       | user :: _ =>
           if (Date_of (users_otp_expires_at user) <? t)%Z
           then resp = mkResponse 400 (ErrorBody "OTP expired")
                /\ v_db v = d0
           else exists hasProfile,
               resp = mkResponse 200
                        (VerifyBody true
                           (jwt (mkClaims (users_id user) (users_mobile user)
                                          (users_role user))
                                (JWT_SECRET process) "30d")
                           (users_id user) (users_mobile user)
                           (users_role user) true hasProfile
                           (redirect_of (users_role user) hasProfile))
               /\ exec_sql (UpdateVerified (users_id user)) d0
                  = inr (tt, v_db v)
       end).
Proof using mobile_given otp_given mobile_not_empty otp_not_empty
  secret_not_empty.
  unfold verify_otp, getClientInfo. cbv zeta.
  apply succeeds_try_catch.
  rewrite mobile_given, otp_given.
  replace (falsy (Some m) || falsy (Some o)) with false.
  2:{ symmetry. apply orb_false_iff. simpl.
      split; apply bool_decide_eq_false; assumption. }
  cbn [default from_option id].
  eapply succeeds_bind.
  { apply (succeeds_runQuery _ _ _
             (fun rows v => rows = matching m o (users d0) /\ v_db v = d0)).
    - intros rows. stable.
    - intros d c Hd. simpl in Hd. subst d. simpl. eauto. }
  intros rows. apply succeeds_pure. intros ->.
  destruct (matching m o (users d0)) as [|user rest] eqn:Hrows.
  { eapply succeeds_bind; [apply succeeds_logEvent; stable | intros ?].
    apply succeeds_ret. auto. }
  eapply succeeds_bind; [apply succeeds_Date_now | intros now].
  apply succeeds_pure. intros ->.
  destruct (Date_of (users_otp_expires_at user) <? t)%Z eqn:Hexp.
  { eapply succeeds_bind; [apply succeeds_logEvent; stable | intros ?].
    apply succeeds_ret. auto. }
  specialize (secret_not_empty user rest eq_refl Hexp).
  eapply succeeds_bind.
  { apply (succeeds_runQuery _ _ _
             (fun _ v => exec_sql (UpdateVerified (users_id user)) d0
                         = inr (tt, v_db v))).
    - intros rows. stable.
    - intros d c Hd. simpl in Hd. subst d. simpl. eauto. }
  intros ?.
  eapply succeeds_bind.
  { instantiate (1 := fun _ v =>
       exec_sql (UpdateVerified (users_id user)) d0 = inr (tt, v_db v)).
    destruct (users_role user).
    - eapply succeeds_bind.
      { apply (succeeds_runQuery _ _ _
                 (fun _ v => exec_sql (UpdateVerified (users_id user)) d0
                             = inr (tt, v_db v))).
        + intros rows. stable.
        + intros d c Hd. simpl in *. eauto. }
      intros result. apply succeeds_ret. auto.
    - eapply succeeds_bind.
      { apply (succeeds_runQuery _ _ _
                 (fun _ v => exec_sql (UpdateVerified (users_id user)) d0
                             = inr (tt, v_db v))).
        + intros rows. stable.
        + intros d c Hd. simpl in *. eauto. }
      intros result. apply succeeds_ret. auto.
    - apply succeeds_ret. auto. }
  intros hasProfile.
  eapply succeeds_bind;
    [apply succeeds_jwt_sign; exact secret_not_empty | intros token].
  apply succeeds_pure. intros ->.
  eapply succeeds_bind; [apply succeeds_logEvent; stable | intros ?].
  apply succeeds_ret. intros v H. exists hasProfile. auto.
Qed.

End SucceedsVerifyOtp.

Section SucceedsRegister.

Variables (t : Z) (en : nat -> Z) (process : Process) (req : Request).
Variables (m : string) (d0 : Db).

Hypothesis mobile_given : body_mobile req = Some m.
Hypothesis mobile_not_empty : m <> "".
Hypothesis secret_not_empty : JWT_SECRET process <> "".
Hypothesis insert_accepted :
  mobile_taken m (users d0) = false ->
  exists r,
    user_role_of_string (default "candidate" (body_role req)) = Some r
    /\ varchar 15 m = true
    /\ varchar_null 255 (if falsy (body_email req) then None
                         else body_email req) = true
    /\ email_taken (if falsy (body_email req) then None else body_email req)
                   (users d0) = false.

Lemma succeeds_register :
  succeeds t en (fun v => v_db v = d0) (register process req)
    (fun resp v =>
       if mobile_taken m (users d0)
       then resp = mkResponse 400 (ErrorBody "User already exists")
            /\ v_db v = d0
       else exists user token,
           resp = mkResponse 201 (RegisterBody true token user)
           /\ exec_sql (InsertRegUser m
                          (if falsy (body_email req) then None
                           else body_email req)
                          (if falsy (body_password req) then None
                           else Some (bcrypt_hash
                                        (default "" (body_password req)) 10))
                          (default "candidate" (body_role req))) d0
              = inr ([user], v_db v)).
Proof using mobile_given mobile_not_empty secret_not_empty insert_accepted.
  unfold register, getClientInfo. cbv zeta.
  apply succeeds_try_catch.
  rewrite mobile_given.
  replace (falsy (Some m)) with false.
  2:{ symmetry. simpl. apply bool_decide_eq_false. assumption. }
  cbn [default from_option id].
  eapply succeeds_bind.
  { apply (succeeds_runQuery _ _ _
             (fun existing v =>
                existing = users_id <$> filter (fun u => users_mobile u = m)
                                          (users d0)
                /\ v_db v = d0)).
    - intros rows. stable.
    - intros d c Hd. simpl in Hd. subst d. simpl. eauto. }
  intros existing. apply succeeds_pure. intros Hex.
  destruct (mobile_taken m (users d0)) eqn:Htaken.
  - replace (bool_decide (0 < length existing)) with true.
    2:{ symmetry. apply bool_decide_eq_true. destruct existing; simpl; [| lia].
        symmetry in Hex. apply existing_nil in Hex. congruence. }
    eapply succeeds_bind; [apply succeeds_logEvent; stable | intros ?].
    apply succeeds_ret. auto.
  - replace (bool_decide (0 < length existing)) with false.
    2:{ symmetry. apply bool_decide_eq_false.
        apply existing_nil in Htaken. rewrite Htaken in Hex. subst existing.
        simpl. lia. }
    destruct (insert_accepted eq_refl) as (r & Hr & Hv & Hev & Het).
    eapply succeeds_bind.
    { apply (succeeds_runQuery _ _ _
               (fun newUser v =>
                  exists user,
                    newUser = [user]
                    /\ exec_sql (InsertRegUser m
                          (if falsy (body_email req) then None
                           else body_email req)
                          (if falsy (body_password req) then None
                           else Some (bcrypt_hash
                                        (default "" (body_password req)) 10))
                          (default "candidate" (body_role req))) d0
                       = inr ([user], v_db v))).
      - intros rows. stable.
      - intros d c Hd. simpl in Hd. subst d.
        cbn [exec_sql]. rewrite Hr, Hv, Hev, Htaken, Het.
        cbn [negb andb orb v_db].
        do 2 eexists. split; [reflexivity |].
        eexists. split; reflexivity. }
    intros newUser. apply succeeds_exists. intros user.
    apply succeeds_pure. intros ->.
    eapply succeeds_bind;
      [apply succeeds_jwt_sign; exact secret_not_empty | intros token].
    apply succeeds_pure. intros ->.
    eapply succeeds_bind; [apply succeeds_logEvent; stable | intros ?].
    apply succeeds_ret. intros v H. eauto.
Qed.

End SucceedsRegister.

(* ================================================================== *)
(** ** The codes /send-otp generates *)

Lemma otp_of_random_shape r :
  unit_double r ->
  exists n, (100000 <= n <= 999999)%Z
            /\ otp_of_random r = Number_toString n
            /\ six_digits (Number_toString n)
            /\ (exists c, first_char (Number_toString n) = Some c
                          /\ c <> "0"%char)
            /\ varchar 6 (otp_of_random r) = true.
Proof.
  intros Hr. pose proof (generateOTP_number_range r Hr) as Hn.
  unfold otp_of_random. eexists. split; [exact Hn |].
  split; [reflexivity |].
  destruct (Number_toString_shape _ Hn) as [H6 Hc].
  split; [exact H6 |]. split; [exact Hc |].
  rewrite (Number_toString_six _ Hn). reflexivity.
Qed.







(* ================================================================== *)
(** ** Where the code is echoed *)

Lemma audit_line_not_LogOtp l : audit_line l = true -> ¬ is_LogOtp l.
Proof. intros H (m & o & ->). discriminate. Qed.

Lemma no_new_LogOtp_stable c0 : audit_stable (no_new_LogOtp c0).
Proof.
  intros d c l Hl H l' Hin Hotp. simpl in Hin.
  apply elem_of_app in Hin as [Hin | Hin]; [apply H; auto |].
  apply list_elem_of_singleton in Hin. subst l'.
  exfalso. eapply audit_line_not_LogOtp; eauto.
Qed.

Lemma no_new_LogOtp_LogBody c0 d c mobile role :
  no_new_LogOtp c0 (mkView d c) ->
  no_new_LogOtp c0 (mkView d (c ++ [LogBody mobile role])).
Proof.
  intros H l' Hin Hotp. simpl in Hin.
  apply elem_of_app in Hin as [Hin | Hin]; [apply H; auto |].
  apply list_elem_of_singleton in Hin. subst l'.
  destruct Hotp as (m & o & Ho). discriminate.
Qed.

(** With [NODE_ENV] set to ["test"], a mode that is not production, the
    code is neither returned nor printed. *)
Lemma test_mode_does_not_echo_the_code :
  process_env process_test !! "NODE_ENV" = Some "test"
  /\ (send_otp process_test (request_mobile "9999999999") world_empty).1
     = Normal (mkResponse 200
                 (SendOtpBody true "OTP sent successfully" None))
  /\ Forall (fun l => ¬ is_LogOtp l)
       (console (send_otp process_test (request_mobile "9999999999")
                   world_empty).2).
Proof.
  split; [reflexivity |]. split; [vm_compute; reflexivity |].
  vm_compute. repeat constructor; intros (m & o & H); discriminate.
Qed.

(** C6, amended.  The code is echoed exactly when [NODE_ENV] is
    ["development"]: in every other mode, production included, no response
    carries it and no line of the operational log shows it; in development
    mode a 200 carries the code that was stored, after a line of the
    operational log showed it. *)
Theorem code_is_echoed_only_in_development process (req : Request) (w : World) :
  (development process = false ->
   (forall resp ok message echoed,
       (send_otp process req w).1 = Normal resp ->
       body resp = SendOtpBody ok message echoed -> echoed = None)
   /\ (forall l, l ∈ console (send_otp process req w).2 -> is_LogOtp l ->
                 l ∈ console w))
  /\ (development process = true ->
      forall resp,
        (send_otp process req w).1 = Normal resp -> status resp = 200 ->
        exists m code message,
          body_mobile req = Some m
          /\ body resp = SendOtpBody true message (Some code)
          /\ LogOtp m code ∈ console (send_otp process req w).2
          /\ stored_code m code (clock w + 10 * 60 * 1000)%Z
                         (db (send_otp process req w).2))
  /\ (process_env process !! "NODE_ENV" = Some "production" ->
      development process = false).
Proof.
  split; [| split].
  - intros Hdev.
    assert (Hinit : no_new_LogOtp (console w) (view w))
      by (intros l Hin _; exact Hin).
    pose proof (holds_send_otp (clock w) (entropy w) process
                  (no_new_LogOtp (console w)) req
                  (no_new_LogOtp_stable _)
                  ltac:(intros; apply no_new_LogOtp_LogBody; assumption)
                  ltac:(auto) ltac:(auto)
                  ltac:(intros; congruence)
                  w eq_refl eq_refl Hinit) as (_ & _ & HI & HQ).
    split; [| exact HI].
    intros resp ok message echoed E Eb. specialize (HQ resp E).
    unfold send_otp_post in HQ. rewrite Eb, Hdev in HQ.
    destruct HQ as (_ & _ & m & k & _ & _ & He & _). exact He.
  - intros Hdev resp E H200.
    pose proof (holds_send_otp (clock w) (entropy w) process
                  (fun _ => True) req audit_stable_True
                  ltac:(auto) ltac:(auto) ltac:(auto) ltac:(auto)
                  w eq_refl eq_refl I) as (_ & _ & _ & HQ).
    specialize (HQ resp E). unfold send_otp_post in HQ.
    destruct (body resp) eqn:Eb; try contradiction.
    + destruct HQ as [[Hs _] | [Hs _]]; rewrite Hs in H200; discriminate.
    + rewrite Hdev in HQ.
      destruct HQ as (_ & -> & m & k & Hm & _ & -> & Hlog & Hst).
      exists m, (otp_of_random (entropy w k)), message. auto.
  - intros Hprod. unfold development. apply bool_decide_eq_false.
    rewrite Hprod. intros H. inversion H.
Qed.

Lemma code_is_echoed_only_in_development_witness :
  (forall resp ok message echoed,
      (send_otp process_prod (request_mobile "9999999999") world_pending).1
      = Normal resp ->
      body resp = SendOtpBody ok message echoed -> echoed = None)
  /\ development process_prod = false.
Proof.
  split.
  - apply (code_is_echoed_only_in_development process_prod
             (request_mobile "9999999999") world_pending).
    reflexivity.
  - apply (code_is_echoed_only_in_development process_prod
             (request_mobile "9999999999") world_pending).
    reflexivity.
Defined.

(* ================================================================== *)
(** ** One identity per mobile *)

Lemma mobiles_unique_fmap (f : User -> User) l :
  (forall u, users_mobile (f u) = users_mobile u) ->
  mobiles_unique l -> mobiles_unique (f <$> l).
Proof.
  intros Hf. unfold mobiles_unique. rewrite <- list_fmap_compose.
  replace (users_mobile <$> l) with ((users_mobile ∘ f) <$> l); [auto |].
  apply list_fmap_ext. intros i u _. simpl. apply Hf.
Qed.

Lemma mobiles_unique_snoc l u :
  mobile_taken (users_mobile u) l = false ->
  mobiles_unique l -> mobiles_unique (l ++ [u]).
Proof.
  intros Hfree Hl. unfold mobiles_unique. rewrite fmap_app. simpl.
  apply NoDup_app. split; [exact Hl |]. split; [| apply NoDup_singleton].
  intros x Hx Hx'. apply list_elem_of_singleton in Hx'. subst x.
  apply list_elem_of_fmap in Hx as (u0 & Hm & Hin).
  eapply mobile_taken_false; eauto.
Qed.

(** No statement of the core breaks the uniqueness of mobiles. *)
Lemma exec_sql_mobiles_unique {A} (q : Sql A) d rows d' :
  exec_sql q d = inr (rows, d') ->
  mobiles_unique (users d) -> mobiles_unique (users d').
Proof.
  destruct q; intros E H.
  - simpl in E. destruct (_ && _) in E; inversion E; subst. exact H.
  - simpl in E. inversion E; subst. exact H.
  - apply exec_sql_UpdateOtp in E as (_ & -> & _).
    apply mobiles_unique_fmap; [| exact H].
    intros u. case_decide; reflexivity.
  - apply exec_sql_InsertOtpUser in E as (r & _ & _ & _ & Hfree & _ & -> & _).
    apply mobiles_unique_snoc; assumption.
  - simpl in E. inversion E; subst. exact H.
  - apply exec_sql_UpdateVerified in E as (_ & _ & ->).
    apply mobiles_unique_fmap; [| exact H].
    intros u. case_decide; reflexivity.
  - simpl in E. inversion E; subst. exact H.
  - simpl in E. inversion E; subst. exact H.
  - apply exec_sql_InsertRegUser in E as (r & _ & _ & _ & Hfree & _ & _ & -> & _).
    apply mobiles_unique_snoc; assumption.
Qed.




Lemma run_succeeds {A} t en (P : View -> Prop) (m : Async A)
    (Q : A -> View -> Prop) w :
  succeeds t en P m Q ->
  healthy w -> clock w = t -> entropy w = en -> P (view w) ->
  exists a, (m w).1 = Normal a /\ Q a (view (m w).2).
Proof.
  intros H Hw Ht Hen HP.
  destruct (H w Hw Ht Hen HP) as (a & E & _ & _ & _ & HQ). eauto.
Qed.

Lemma random_source_codes_fit w :
  random_source w -> forall k, varchar 6 (otp_of_random (entropy w k)) = true.
Proof.
  intros H k. destruct (otp_of_random_shape _ (H k)) as (n & _ & _ & _ & _ & Hv).
  exact Hv.
Qed.



(* ================================================================== *)
(** ** /verify-otp *)

Lemma verified_atomically_refl l : verified_atomically l l.
Proof. unfold verified_atomically. induction l; constructor; auto. Qed.

Lemma verified_atomically_UpdateVerified l0 id d rows d' :
  verified_atomically l0 (users d) ->
  exec_sql (UpdateVerified id) d = inr (rows, d') ->
  verified_atomically l0 (users d').
Proof.
  intros H E. apply exec_sql_UpdateVerified in E as (_ & _ & ->).
  unfold verified_atomically in *.
  induction H as [|u u' l l' Hu Hl IH]; simpl; constructor; auto.
  destruct (decide (users_id u' = id)); [| exact Hu].
  destruct Hu as [-> | ->]; auto.
Qed.

Lemma verified_atomically_unchanged_row l0 l u o :
  verified_atomically l0 l -> u ∈ l -> users_otp u = Some o -> u ∈ l0.
Proof.
  unfold verified_atomically. intros H Hin Ho.
  induction H as [|u0 u' l0' l' Hu Hl IH].
  - inversion Hin.
  - apply elem_of_cons in Hin as [-> | Hin].
    + destruct Hu as [-> | ->]; [left | discriminate].
    + right. auto.
Qed.

Lemma matching_elem m o us u :
  u ∈ matching m o us <->
  (users_mobile u = m /\ users_otp u = Some o) /\ u ∈ us.
Proof. unfold matching. rewrite list_elem_of_filter. reflexivity. Qed.

Lemma matching_unique m o us u :
  mobiles_unique us -> u ∈ us -> users_mobile u = m ->
  users_otp u = Some o -> matching m o us = [u].
Proof.
  unfold mobiles_unique, matching. intros Hnd Hin Hm Ho.
  induction us as [|u0 us IH]; [inversion Hin |].
  simpl in Hnd. apply NoDup_cons in Hnd as [Hnot Hnd].
  rewrite filter_cons.
  apply elem_of_cons in Hin as [-> | Hin].
  - destruct (decide _) as [_|Hn]; [| exfalso; apply Hn; auto].
    f_equal. destruct (filter _ us) as [|u1 rest] eqn:Ef; [reflexivity |].
    assert (Hu1 : u1 ∈ filter (fun u => users_mobile u = m
                                         /\ users_otp u = Some o) us)
      by (rewrite Ef; left).
    apply list_elem_of_filter in Hu1 as [[Hm1 _] Hin1].
    exfalso. apply Hnot. apply list_elem_of_fmap. exists u1.
    split; [congruence | auto].
  - destruct (decide _) as [[Hm0 _]|_]; [| auto].
    exfalso. apply Hnot. apply list_elem_of_fmap. exists u.
    split; [congruence | auto].
Qed.

(** At the instant of the expiry the code is still accepted. *)
Lemma verify_at_the_expiry_instant_succeeds :
  users_otp_expires_at user_pending = Some 5000%Z
  /\ clock world_at_expiry = 5000%Z
  /\ ¬ (clock world_at_expiry < 5000)%Z
  /\ status <$> match (verify_otp process_dev
                         (request_verify "9999999999" "123456")
                         world_at_expiry).1 with
                | Normal resp => Some resp
                | Throw _ => None
                end = Some 200.
Proof. vm_compute. repeat split; auto. discriminate. Qed.

(** C1, amended.  /verify-otp answers 200 only for a row of the table whose
    mobile and code are the submitted ones and whose expiry is not before
    now ([now <= expiry]), and then that row is verified with code and
    expiry null; when the store answers and mobiles are unique, such a row
    always gets a 200; and whatever happens, a row of the table is either
    untouched or verified and cleared at once. *)
Theorem verify_otp_succeeds_iff_code_matches_and_not_expired
    process (req : Request) (w : World) :
  (forall resp,
      (verify_otp process req w).1 = Normal resp -> status resp = 200 ->
      exists m o user,
        body_mobile req = Some m /\ body_otp req = Some o
        /\ user ∈ users (db w)
        /\ users_mobile user = m /\ users_otp user = Some o
        /\ (clock w <= Date_of (users_otp_expires_at user))%Z
        /\ verified_and_cleared (users_id user)
                                (db (verify_otp process req w).2))
  /\ (forall m o user,
         healthy w -> JWT_SECRET process <> "" ->
         mobiles_unique (users (db w)) ->
         body_mobile req = Some m -> body_otp req = Some o ->
         m <> "" -> o <> "" ->
         user ∈ users (db w) ->
         users_mobile user = m -> users_otp user = Some o ->
         (clock w <= Date_of (users_otp_expires_at user))%Z ->
         exists resp,
           (verify_otp process req w).1 = Normal resp /\ status resp = 200
           /\ users (db (verify_otp process req w).2)
              = (fun u => if decide (users_id u = users_id user)
                          then set_verified u else u) <$> users (db w))
  /\ verified_atomically (users (db w))
                         (users (db (verify_otp process req w).2)).
Proof.
  pose proof (holds_verify_otp (clock w) (entropy w) process
                (keeps_verified_atomically (users (db w))) req
                ltac:(stable)
                ltac:(intros; eapply verified_atomically_UpdateVerified; eauto)
                w eq_refl eq_refl (verified_atomically_refl _))
    as (_ & _ & HI & HQ).
  split; [| split; [| exact HI]].
  - intros resp E H200. specialize (HQ resp E). unfold verify_otp_post in HQ.
    destruct (body resp) eqn:Eb; try contradiction.
    + destruct HQ as [[Hs _] | [Hs _]]; rewrite Hs in H200; discriminate.
    + destruct HQ as (_ & m & o & d_sel & c_sel & user & rest & Hm & Ho & _ & _
                      & Hsel & Hrows & Hexp & _ & _ & _ & _ & _ & _ & _ & Hver).
      assert (Hin : user ∈ matching m o (users d_sel))
        by (rewrite Hrows; left).
      apply matching_elem in Hin as [[Hum Huo] Hin].
      exists m, o, user.
      repeat match goal with |- _ /\ _ => split end; auto;
        first [eapply verified_atomically_unchanged_row; eauto | lia].
  - intros m o user Hw Hsec Huniq Hm Ho Hmne Hone Hin Hum Huo Hexp.
    destruct (run_succeeds _ _ _ _ _ w
                (succeeds_verify_otp (clock w) (entropy w) process req m o
                   (db w) Hm Ho Hmne Hone (fun _ _ _ _ => Hsec))
                Hw eq_refl eq_refl eq_refl) as (resp & E & HQ').
    rewrite (matching_unique m o _ user Huniq Hin Hum Huo) in HQ'.
    destruct (Z.ltb_spec (Date_of (users_otp_expires_at user)) (clock w));
      [lia |].
    destruct HQ' as (hasProfile & -> & Eup).
    exists {| status := 200;
              body := VerifyBody true
                        (jwt (mkClaims (users_id user) (users_mobile user)
                                       (users_role user))
                             (JWT_SECRET process) "30d")
                        (users_id user) (users_mobile user) (users_role user)
                        true hasProfile
                        (redirect_of (users_role user) hasProfile) |}.
    split; [exact E |]. split; [reflexivity |].
    apply exec_sql_UpdateVerified in Eup as (_ & _ & Hu). exact Hu.
Qed.

Lemma verify_otp_succeeds_iff_code_matches_and_not_expired_witness :
  exists resp,
    (verify_otp process_dev (request_verify "9999999999" "123456")
       world_at_expiry).1 = Normal resp
    /\ status resp = 200
    /\ users (db (verify_otp process_dev (request_verify "9999999999" "123456")
                    world_at_expiry).2)
       = (fun u => if decide (users_id u = users_id user_pending)
                   then set_verified u else u) <$> users (db world_at_expiry).
Proof.
  apply (proj1 (proj2
           (verify_otp_succeeds_iff_code_matches_and_not_expired process_dev
              (request_verify "9999999999" "123456") world_at_expiry))
           "9999999999" "123456" user_pending).
  - intros n. reflexivity.
  - discriminate.
  - vm_compute. repeat constructor. intros H. inversion H.
  - reflexivity.
  - reflexivity.
  - discriminate.
  - discriminate.
  - left.
  - reflexivity.
  - reflexivity.
  - vm_compute. discriminate.
Defined.

Lemma matching_none m o us :
  (forall u, u ∈ us -> ¬ (users_mobile u = m /\ users_otp u = Some o)) ->
  matching m o us = [].
Proof.
  intros H. destruct (matching m o us) as [|u rest] eqn:E; [reflexivity |].
  assert (Hin : u ∈ matching m o us) by (rewrite E; left).
  apply matching_elem in Hin as [Hu Hin]. exfalso. eapply H; eauto.
Qed.

(** When the row the SELECT would return, if any, has expired, no run of
    /verify-otp changes the tables. *)
Lemma verify_otp_frame process req w m o :
  body_mobile req = Some m -> body_otp req = Some o ->
  (forall user rest,
      matching m o (users (db w)) = user :: rest ->
      (Date_of (users_otp_expires_at user) < clock w)%Z) ->
  db (verify_otp process req w).2 = db w.
Proof.
  intros Hm Ho Hexp.
  refine (proj1 (proj2 (proj2
    (holds_verify_otp (clock w) (entropy w) process (unchanged (db w)) req
       _ _ w eq_refl eq_refl eq_refl)))).
  - stable.
  - intros m' o' d_sel c_sel user rest d c rows d' Hm' Ho' Hsel Hrows Hnot.
    unfold unchanged in Hsel. simpl in Hsel. subst d_sel.
    assert (m' = m) by congruence. assert (o' = o) by congruence. subst m' o'.
    exfalso. apply Hnot. eapply Hexp; eauto.
Qed.

(** C2.  A submitted code that matches the stored one after its expiry, or
    that matches no stored code, leaves every table as it was, whatever the
    store does; and when the store answers, the response is 400 with
    "OTP expired" in the first case and "Invalid OTP" in the second. *)
Theorem verify_otp_rejects_without_mutation
    process (req : Request) (w : World) (m o : string) :
  body_mobile req = Some m -> body_otp req = Some o ->
  (forall user,
      mobiles_unique (users (db w)) ->
      user ∈ users (db w) ->
      users_mobile user = m -> users_otp user = Some o ->
      (Date_of (users_otp_expires_at user) < clock w)%Z ->
      db (verify_otp process req w).2 = db w
      /\ user ∈ users (db (verify_otp process req w).2)
      /\ (healthy w -> m <> "" -> o <> "" ->
          (verify_otp process req w).1
          = Normal (mkResponse 400 (ErrorBody "OTP expired"))))
  /\ ((forall u, u ∈ users (db w) ->
                 ¬ (users_mobile u = m /\ users_otp u = Some o)) ->
      db (verify_otp process req w).2 = db w
      /\ (healthy w -> m <> "" -> o <> "" ->
          (verify_otp process req w).1
          = Normal (mkResponse 400 (ErrorBody "Invalid OTP")))).
Proof.
  intros Hm Ho. split.
  - intros user Huniq Hin Hum Huo Hexp.
    pose proof (matching_unique m o _ user Huniq Hin Hum Huo) as Hrows.
    assert (Hdb : db (verify_otp process req w).2 = db w).
    { apply (verify_otp_frame process req w m o Hm Ho).
      intros user' rest E. rewrite Hrows in E. inversion E; subst. exact Hexp. }
    split; [exact Hdb |]. split; [rewrite Hdb; exact Hin |].
    intros Hw Hmne Hone.
    destruct (run_succeeds _ _ _ _ _ w
                (succeeds_verify_otp (clock w) (entropy w) process req m o
                   (db w) Hm Ho Hmne Hone
                   ltac:(intros user' rest E Hnot; rewrite Hrows in E;
                         inversion E; subst; apply Z.ltb_ge in Hnot; lia))
                Hw eq_refl eq_refl eq_refl) as (resp & E & HQ).
    rewrite Hrows in HQ.
    destruct (Z.ltb_spec (Date_of (users_otp_expires_at user)) (clock w));
      [| lia].
    destruct HQ as [-> _]. exact E.
  - intros Hnone.
    pose proof (matching_none m o _ Hnone) as Hrows.
    split.
    { apply (verify_otp_frame process req w m o Hm Ho).
      intros user' rest E. rewrite Hrows in E. discriminate. }
    intros Hw Hmne Hone.
    destruct (run_succeeds _ _ _ _ _ w
                (succeeds_verify_otp (clock w) (entropy w) process req m o
                   (db w) Hm Ho Hmne Hone
                   ltac:(intros user' rest E; rewrite Hrows in E;
                         discriminate))
                Hw eq_refl eq_refl eq_refl) as (resp & E & HQ).
    rewrite Hrows in HQ. destruct HQ as [-> _]. exact E.
Qed.

Lemma verify_otp_rejects_without_mutation_witness :
  (db (verify_otp process_dev (request_verify "9999999999" "123456")
         world_expired).2 = db world_expired
   /\ user_pending ∈ users (db (verify_otp process_dev
                                  (request_verify "9999999999" "123456")
                                  world_expired).2)
   /\ (healthy world_expired -> "9999999999" <> "" -> "123456" <> "" ->
       (verify_otp process_dev (request_verify "9999999999" "123456")
          world_expired).1
       = Normal (mkResponse 400 (ErrorBody "OTP expired"))))
  /\ (db (verify_otp process_dev (request_verify "9999999999" "000000")
            world_pending).2 = db world_pending
      /\ (healthy world_pending -> "9999999999" <> "" -> "000000" <> "" ->
          (verify_otp process_dev (request_verify "9999999999" "000000")
             world_pending).1
          = Normal (mkResponse 400 (ErrorBody "Invalid OTP")))).
Proof.
  split.
  - apply (proj1 (verify_otp_rejects_without_mutation process_dev
                    (request_verify "9999999999" "123456") world_expired
                    "9999999999" "123456" eq_refl eq_refl) user_pending).
    + vm_compute. repeat constructor. intros H. inversion H.
    + left.
    + reflexivity.
    + reflexivity.
    + vm_compute. reflexivity.
  - apply (proj2 (verify_otp_rejects_without_mutation process_dev
                    (request_verify "9999999999" "000000") world_pending
                    "9999999999" "000000" eq_refl eq_refl)).
    intros u Hin [_ Ho]. apply list_elem_of_singleton in Hin. subst u.
    discriminate.
Defined.

(* ================================================================== *)
(** ** /register and the length of the mobile *)




(* ================================================================== *)
(** ** What /verify-otp shows of the mobile *)

Section Alike.

Variables (P1 P2 : Db -> Prop).

Lemma alike_ret {A B} (R : A -> B -> Prop) a b :
  R a b -> alike P1 P2 (ret a) (ret b) R.
Proof. intros H w1 w2 Hf H1 H2. simpl. auto. Qed.

Lemma alike_throw {A B} (R : A -> B -> Prop) e :
  alike P1 P2 (@throw A e) (@throw B e) R.
Proof. intros w1 w2 Hf H1 H2. simpl. auto. Qed.

Lemma alike_bind {A B A' B'} (R1 : A' -> B' -> Prop) (R : A -> B -> Prop)
    (m1 : Async A') (m2 : Async B') (k1 : A' -> Async A) (k2 : B' -> Async B) :
  alike P1 P2 m1 m2 R1 ->
  (forall a b, R1 a b -> alike P1 P2 (k1 a) (k2 b) R) ->
  alike P1 P2 (bind m1 k1) (bind m2 k2) R.
Proof.
  intros Hm Hk w1 w2 Hf H1 H2. unfold bind.
  destruct (Hm w1 w2 Hf H1 H2) as (Hf' & H1' & H2' & HR).
  destruct (m1 w1) as [[a|e1] w1'], (m2 w2) as [[b|e2] w2']; simpl in *;
    try contradiction.
  - apply Hk; auto.
  - auto.
Qed.

Lemma alike_try_catch {A B} (R : A -> B -> Prop)
    (m1 : Async A) (m2 : Async B) h1 h2 :
  alike P1 P2 m1 m2 R ->
  (forall e, alike P1 P2 (h1 e) (h2 e) R) ->
  alike P1 P2 (try_catch m1 h1) (try_catch m2 h2) R.
Proof.
  intros Hm Hh w1 w2 Hf H1 H2. unfold try_catch.
  destruct (Hm w1 w2 Hf H1 H2) as (Hf' & H1' & H2' & HR).
  destruct (m1 w1) as [[a|e1] w1'], (m2 w2) as [[b|e2] w2']; simpl in *;
    try contradiction.
  - auto.
  - subst e2. apply Hh; auto.
Qed.

Lemma alike_finally_release {A B} (R : A -> B -> Prop)
    (m1 : Async A) (m2 : Async B) :
  alike P1 P2 m1 m2 R ->
  alike P1 P2 (finally m1 client_release) (finally m2 client_release) R.
Proof.
  intros Hm w1 w2 Hf H1 H2. unfold finally, client_release.
  destruct (Hm w1 w2 Hf H1 H2) as (Hf' & H1' & H2' & HR).
  destruct (m1 w1) as [c1 w1'], (m2 w2) as [c2 w2']; simpl in *. auto.
Qed.

Lemma alike_pool_connect :
  alike P1 P2 pool_connect pool_connect (fun _ _ => True).
Proof.
  intros w1 w2 [Ho Hc] H1 H2.
  destruct w1 as [d1 l1 c1 t1 b1 en1 u1 out1 n1],
           w2 as [d2 l2 c2 t2 b2 en2 u2 out2 n2].
  simpl in Ho, Hc, H1, H2. subst out2 n2.
  unfold pool_connect, bind, next_outage, throw, same_faults. cbn.
  destruct (out1 n1); cbn; auto.
Qed.

Lemma alike_logEvent a1 a2 :
  alike P1 P2 (logEvent a1) (logEvent a2) (fun _ _ => True).
Proof.
  intros w1 w2 [Ho Hc] H1 H2.
  destruct w1 as [d1 l1 c1 t1 b1 en1 u1 out1 n1],
           w2 as [d2 l2 c2 t2 b2 en2 u2 out2 n2].
  simpl in Ho, Hc, H1, H2. subst out2 n2.
  unfold logEvent, bind, Date_now, console_log, pool_connect, bind,
    next_outage, finally, try_catch, client_query, bind, next_outage,
    client_release, throw, same_faults.
  cbn.
  destruct (out1 n1); cbn; [auto |].
  destruct (out1 (S n1)); cbn; [auto |].
  destruct (_ && _); destruct (_ && _); cbn; auto.
Qed.

(** Two statements the server accepts without changing the tables. *)
Lemma alike_runQuery_select {A B} (R : A -> B -> Prop)
    (q1 : Sql A) (q2 : Sql B) meta1 meta2 :
  (forall d1 d2, P1 d1 -> P2 d2 ->
     exists r1 r2, exec_sql q1 d1 = inr (r1, d1)
                   /\ exec_sql q2 d2 = inr (r2, d2) /\ R r1 r2) ->
  alike P1 P2 (runQuery q1 meta1) (runQuery q2 meta2) R.
Proof.
  intros Hq. unfold runQuery.
  eapply alike_bind; [apply alike_pool_connect | intros _ _ _].
  apply alike_finally_release. apply alike_try_catch.
  - eapply alike_bind with (R1 := R).
    + intros w1 w2 [Ho Hc] H1 H2.
      destruct (Hq _ _ H1 H2) as (r1 & r2 & E1 & E2 & HR).
      destruct w1 as [d1 l1 c1 t1 b1 en1 u1 out1 n1],
               w2 as [d2 l2 c2 t2 b2 en2 u2 out2 n2].
      simpl in Ho, Hc, H1, H2, E1, E2. subst out2 n2.
      unfold client_query, bind, next_outage, throw, same_faults. cbn.
      destruct (out1 n1); cbn; [auto |].
      rewrite E1, E2. cbn. auto.
    + intros r1 r2 HR.
      eapply alike_bind; [apply alike_logEvent | intros _ _ _].
      apply alike_ret. exact HR.
  - intros e. eapply alike_bind; [apply alike_logEvent | intros _ _ _].
    apply alike_throw.
Qed.

End Alike.

(** C8.  Two runs of /verify-otp that meet the same failures of the store,
    one for a mobile without a row, one for a mobile with a row whose code
    is not the submitted one, complete in the same way: the same response,
    status and body, or the same exception. *)
Theorem verify_otp_does_not_reveal_whether_the_mobile_exists
    process (req1 req2 : Request) (w1 w2 : World) (m1 o1 m2 o2 : string) :
  body_mobile req1 = Some m1 -> body_otp req1 = Some o1 ->
  body_mobile req2 = Some m2 -> body_otp req2 = Some o2 ->
  m1 <> "" -> o1 <> "" -> m2 <> "" -> o2 <> "" ->
  same_faults w1 w2 ->
  (forall u, u ∈ users (db w1) -> users_mobile u <> m1) ->
  (exists u, u ∈ users (db w2) /\ users_mobile u = m2) ->
  (forall u, u ∈ users (db w2) -> users_mobile u = m2 ->
             users_otp u <> Some o2) ->
  (verify_otp process req1 w1).1 = (verify_otp process req2 w2).1.
Proof.
  intros Hm1 Ho1 Hm2 Ho2 Hn1 Hn1' Hn2 Hn2' Hf Hnone _ Hwrong.
  assert (H1 : matching m1 o1 (users (db w1)) = []).
  { apply matching_none. intros u Hin [Hm _]. eapply Hnone; eauto. }
  assert (H2 : matching m2 o2 (users (db w2)) = []).
  { apply matching_none. intros u Hin [Hm Ho]. eapply Hwrong; eauto. }
  assert (Hal : alike (fun d => matching m1 o1 (users d) = [])
                      (fun d => matching m2 o2 (users d) = [])
                      (verify_otp process req1) (verify_otp process req2) eq).
  { unfold verify_otp, getClientInfo. cbv zeta.
    apply alike_try_catch.
    2:{ intros e. eapply alike_bind; [apply alike_logEvent | intros _ _ _].
        apply alike_ret. reflexivity. }
    rewrite Hm1, Ho1, Hm2, Ho2.
    replace (falsy (Some m1) || falsy (Some o1)) with false.
    2:{ symmetry. apply orb_false_iff. simpl.
        split; apply bool_decide_eq_false; assumption. }
    replace (falsy (Some m2) || falsy (Some o2)) with false.
    2:{ symmetry. apply orb_false_iff. simpl.
        split; apply bool_decide_eq_false; assumption. }
    cbn [default from_option id].
    eapply alike_bind with (R1 := fun r1 r2 => r1 = [] /\ r2 = []).
    - apply alike_runQuery_select. intros d1 d2 E1 E2. simpl.
      fold (matching m1 o1 (users d1)). fold (matching m2 o2 (users d2)).
      rewrite E1, E2. exists [], []. auto.
    - intros r1 r2 [-> ->].
      eapply alike_bind; [apply alike_logEvent | intros _ _ _].
      apply alike_ret. reflexivity. }
  destruct (Hal w1 w2 Hf H1 H2) as (_ & _ & _ & HR).
  destruct (verify_otp process req1 w1).1, (verify_otp process req2 w2).1;
    try contradiction; congruence.
Qed.

Lemma verify_otp_does_not_reveal_whether_the_mobile_exists_witness :
  (verify_otp process_dev (request_verify "8888888888" "123456")
     world_pending).1
  = (verify_otp process_dev (request_verify "9999999999" "654321")
       world_pending).1.
Proof.
  apply (verify_otp_does_not_reveal_whether_the_mobile_exists process_dev
           (request_verify "8888888888" "123456")
           (request_verify "9999999999" "654321")
           world_pending world_pending
           "8888888888" "123456" "9999999999" "654321");
    try reflexivity; try discriminate.
  - split; reflexivity.
  - intros u Hin. apply list_elem_of_singleton in Hin. subst u. discriminate.
  - exists user_pending. split; [left | reflexivity].
  - intros u Hin _. apply list_elem_of_singleton in Hin. subst u. discriminate.
Defined.

(* ================================================================== *)
(** ** Rules for [keeps] *)

Section Keeps.

Variable R : World -> World -> Prop.
Variable P : AuthLog -> Prop.

Hypothesis R_refl : forall w, R w w.
Hypothesis R_trans : forall w1 w2 w3, R w1 w2 -> R w2 w3 -> R w1 w3.
Hypothesis R_console : forall w c, R w (set_console c w).
Hypothesis R_entropy_used : forall w n, R w (set_entropy_used n w).
Hypothesis R_pool_calls : forall w k, R w (set_pool_calls k w).
(** A connection checked out and released around a run that keeps [R]. *)
Hypothesis R_bracket :
  forall w k w2,
    R (set_pool_busy (S (pool_busy w)) (set_pool_calls k w)) w2 ->
    R w (set_pool_busy (Nat.pred (pool_busy w2)) w2).
Hypothesis R_sql :
  forall A (q : Sql A) w rows d,
    Forall P (audit_rows q) -> exec_sql q (db w) = inr (rows, d) ->
    R w (set_db d (audit_rows q) w).

Lemma keeps_ret {A} (a : A) : keeps R (ret a).
Proof using R_refl. intros w. apply R_refl. Qed.

Lemma keeps_throw {A} e : keeps R (@throw A e).
Proof using R_refl. intros w. apply R_refl. Qed.

Lemma keeps_bind {A B} (m : Async B) (k : B -> Async A) :
  keeps R m -> (forall b, keeps R (k b)) -> keeps R (bind m k).
Proof using R_trans.
  intros Hm Hk w. unfold bind. specialize (Hm w).
  destruct (m w) as [[b|e] w1]; simpl in *; [| exact Hm].
  eapply R_trans; [exact Hm | apply Hk].
Qed.

Lemma keeps_try_catch {A} (m : Async A) (h : Error -> Async A) :
  keeps R m -> (forall e, keeps R (h e)) -> keeps R (try_catch m h).
Proof using R_trans.
  intros Hm Hh w. unfold try_catch. specialize (Hm w).
  destruct (m w) as [[b|e] w1]; simpl in *; [exact Hm |].
  eapply R_trans; [exact Hm | apply Hh].
Qed.

Lemma keeps_console_log l : keeps R (console_log l).
Proof using R_console. intros w. apply R_console. Qed.

Lemma keeps_Date_now : keeps R Date_now.
Proof using R_refl. intros w. apply R_refl. Qed.

Lemma keeps_generateOTP : keeps R generateOTP.
Proof using R_entropy_used. intros w. apply R_entropy_used. Qed.

Lemma keeps_jwt_sign c secret e : keeps R (jwt_sign c secret e).
Proof using R_refl.
  unfold jwt_sign. case_decide; [apply keeps_throw | apply keeps_ret].
Qed.

Lemma keeps_client_query {A} (q : Sql A) :
  Forall P (audit_rows q) -> keeps R (client_query q).
Proof using R_refl R_trans R_pool_calls R_sql.
  intros HP w. unfold client_query, bind, next_outage, throw.
  destruct (outage w (pool_calls w)); simpl; [apply R_pool_calls |].
  destruct (exec_sql q (db w)) as [e|[rows d]] eqn:E; simpl;
    [apply R_pool_calls |].
  eapply R_trans; [apply (R_pool_calls w (S (pool_calls w))) |].
  apply (R_sql _ q (set_pool_calls (S (pool_calls w)) w) rows d HP E).
Qed.

(** [const client = await pool.connect(); try { m } finally
    { client.release() }] *)
Lemma keeps_with_client {A} (m : Async A) :
  keeps R m -> keeps R (pool_connect >> finally m client_release).
Proof using R_pool_calls R_bracket.
  intros Hm w. unfold pool_connect, bind, next_outage, throw, finally,
    client_release.
  destruct (outage w (pool_calls w)); simpl; [apply R_pool_calls |].
  match goal with |- context [m ?w1] => specialize (Hm w1) end.
  destruct (m _) as [c w2]; simpl in *.
  eapply R_bracket. exact Hm.
Qed.

Lemma keeps_logEvent a : P (auth_log_row a) -> keeps R (logEvent a).
Proof using R_refl R_trans R_console R_pool_calls R_bracket R_sql.
  intros HP. unfold logEvent.
  apply keeps_bind; [apply keeps_Date_now | intros ts].
  apply keeps_bind; [apply keeps_console_log | intros ?].
  apply keeps_with_client. apply keeps_try_catch.
  - apply keeps_client_query. simpl. constructor; [exact HP | constructor].
  - intros err. apply keeps_console_log.
Qed.

Lemma keeps_runQuery {A} (q : Sql A) meta :
  Forall P (audit_rows q) ->
  (forall st message stack,
      P (auth_log_row (mkLogEventArgs (meta_mobile meta) None (meta_role meta)
                         (meta_step meta) st message stack
                         (meta_ip meta) (meta_device meta)))) ->
  keeps R (runQuery q meta).
Proof using R_refl R_trans R_console R_pool_calls R_bracket R_sql.
  intros Hq HP. unfold runQuery.
  apply keeps_with_client. apply keeps_try_catch.
  - apply keeps_bind.
    { apply keeps_client_query. exact Hq. }
    intros rows. apply keeps_bind; [apply keeps_logEvent, HP | intros ?].
    apply keeps_ret.
  - intros err. apply keeps_bind; [apply keeps_logEvent, HP | intros ?].
    apply keeps_throw.
Qed.

Ltac audit_row HP :=
  apply HP; unfold audit_of, getClientInfo; simpl;
  repeat split; first [exists ""; reflexivity | eexists; reflexivity].

Ltac keeps_route HP :=
  repeat match goal with
         | |- forall _, _ => intro
         | |- keeps _ (ret _) => apply keeps_ret
         | |- keeps _ (throw _) => apply keeps_throw
         | |- keeps _ (console_log _) => apply keeps_console_log
         | |- keeps _ Date_now => apply keeps_Date_now
         | |- keeps _ generateOTP => apply keeps_generateOTP
         | |- keeps _ (jwt_sign _ _ _) => apply keeps_jwt_sign
         | |- keeps _ (logEvent _) => apply keeps_logEvent; audit_row HP
         | |- keeps _ (runQuery _ _) =>
             apply keeps_runQuery; [constructor | intros; audit_row HP]
         | |- keeps _ (try_catch _ _) => apply keeps_try_catch
         | |- keeps _ (bind _ _) => apply keeps_bind
         | |- keeps _ (if ?b then _ else _) => destruct b
         | |- keeps _ (match ?x with _ => _ end) => destruct x
         end.

Section KeepsRoutes.

Variables (process : Process) (req : Request).

Lemma keeps_send_otp :
  (forall e, audit_of req "SEND_OTP" e -> P e) ->
  keeps R (send_otp process req).
Proof using R_refl R_trans R_console R_entropy_used R_pool_calls R_bracket
  R_sql.
  intros HP. unfold send_otp, getClientInfo. cbv zeta.
  keeps_route HP.
Qed.

Lemma keeps_verify_otp :
  (forall e, audit_of req "VERIFY_OTP" e -> P e) ->
  keeps R (verify_otp process req).
Proof using R_refl R_trans R_console R_pool_calls R_bracket R_sql.
  intros HP. unfold verify_otp, getClientInfo. cbv zeta.
  keeps_route HP.
Qed.

Lemma keeps_register :
  (forall e, audit_of req "REGISTER" e -> P e) ->
  keeps R (register process req).
Proof using R_refl R_trans R_console R_pool_calls R_bracket R_sql.
  intros HP. unfold register, getClientInfo. cbv zeta.
  keeps_route HP.
Qed.

End KeepsRoutes.

End Keeps.

(* ================================================================== *)
(** ** Connections are given back to the pool *)

Ltac pool_busy_side :=
  unfold same_pool_busy;
  first [ (intros; exact I)
        | apply Forall_forall; intros; exact I
        | intros; simpl in *; congruence
        | intros ? ? ? HH; simpl in *; rewrite HH; reflexivity ].

Lemma keeps_pool_busy_logEvent a : keeps same_pool_busy (logEvent a).
Proof.
  apply (keeps_logEvent same_pool_busy (fun _ => True)); pool_busy_side.
Qed.

Lemma keeps_pool_busy_runQuery {A} (q : Sql A) meta :
  keeps same_pool_busy (runQuery q meta).
Proof.
  apply (keeps_runQuery same_pool_busy (fun _ => True)); pool_busy_side.
Qed.

Lemma call_same_pool_busy process c w :
  pool_busy (call process c w) = pool_busy w.
Proof.
  destruct c as [req|req|req|ms]; simpl; [| | | reflexivity].
  - apply (keeps_send_otp same_pool_busy (fun _ => True)); pool_busy_side.
  - apply (keeps_verify_otp same_pool_busy (fun _ => True)); pool_busy_side.
  - apply (keeps_register same_pool_busy (fun _ => True)); pool_busy_side.
Qed.

(** [logEvent] and [runQuery] give back the client they checked out, and
    check out none when [pool.connect()] fails: however the call completes,
    as many connections are busy after it as before. *)
Theorem logEvent_and_runQuery_release_their_client
    {A} (q : Sql A) (meta : Meta) (a : LogEventArgs) (w : World) :
  pool_busy (logEvent a w).2 = pool_busy w
  /\ pool_busy (runQuery q meta w).2 = pool_busy w.
Proof.
  split; [apply keeps_pool_busy_logEvent | apply keeps_pool_busy_runQuery].
Qed.

(** Through any sequence of calls of the three routes, whatever the pool
    and the server answer and whether the routes respond or throw, no
    connection stays checked out. *)
Theorem routes_leak_no_connection process (cs : list Call) (w : World) :
  pool_busy (calls process cs w) = pool_busy w.
Proof.
  unfold calls. revert w.
  induction cs as [|c cs IH]; intros w; simpl; [reflexivity |].
  rewrite IH. apply call_same_pool_busy.
Qed.

(* ================================================================== *)
(** ** What the routes write to [auth_logs] *)

Lemma audit_appended_refl P w : audit_appended P w w.
Proof. exists []. split; [symmetry; apply app_nil_r | constructor]. Qed.

Lemma audit_appended_trans P w1 w2 w3 :
  audit_appended P w1 w2 -> audit_appended P w2 w3 -> audit_appended P w1 w3.
Proof.
  intros (r1 & E1 & H1) (r2 & E2 & H2). exists (r1 ++ r2).
  split; [rewrite E2, E1, app_assoc; reflexivity | apply Forall_app; auto].
Qed.

Ltac audit_appended_side :=
  first [ exact (audit_appended_refl _)
        | exact (audit_appended_trans _)
        | (intros ? ? ? (rows & E & HF); exists rows; split;
           [exact E | exact HF])
        | (intros ? q ? ? ? HF _; exists (audit_rows q);
           split; [reflexivity | exact HF])
        | (intros; assumption)
        | (intros; exists []; simpl; split;
           [rewrite app_nil_r; reflexivity | constructor]) ].

Lemma getClientInfo_truthy req :
  (getClientInfo req).1 <> "" /\ (getClientInfo req).2 <> "".
Proof.
  unfold getClientInfo, js_or. simpl.
  repeat match goal with
         | |- context [match ?x with _ => _ end] => destruct x
         end; split; congruence.
Qed.

(** Whatever the store does, a route only appends to [auth_logs], and every
    row it appends carries the mobile of the request, the address and the
    device [getClientInfo] read (neither of them empty: they default to
    "unknown" and "unknown-device"), and a step that starts with the name of
    the route. *)
Theorem audit_rows_name_the_request process (req : Request) (w : World) :
  audit_appended (audit_of req "SEND_OTP") w (send_otp process req w).2
  /\ audit_appended (audit_of req "VERIFY_OTP") w (verify_otp process req w).2
  /\ audit_appended (audit_of req "REGISTER") w (register process req w).2
  /\ (getClientInfo req).1 <> "" /\ (getClientInfo req).2 <> "".
Proof.
  split; [| split; [| split; [| apply getClientInfo_truthy]]].
  - apply (keeps_send_otp (audit_appended (audit_of req "SEND_OTP"))
             (audit_of req "SEND_OTP")); audit_appended_side.
  - apply (keeps_verify_otp (audit_appended (audit_of req "VERIFY_OTP"))
             (audit_of req "VERIFY_OTP")); audit_appended_side.
  - apply (keeps_register (audit_appended (audit_of req "REGISTER"))
             (audit_of req "REGISTER")); audit_appended_side.
Qed.






(* ================================================================== *)
(** ** What [logEvent] does once it holds a connection *)

(** With a connection from the pool, [logEvent] completes normally and
    leaves the tables alone.  It prints its line first; then either the
    INSERT is accepted and [auth_logs] has one more row, the parameters of
    the call with [role] defaulting to "unknown"; or the INSERT fails, on
    its own or because a value does not fit its column, and the only trace
    is a second line, "Failed to insert auth log:" with the message of the
    error. *)
Theorem logEvent_swallows_a_failed_insert (a : LogEventArgs) (w : World) :
  outage w (pool_calls w) = None ->
  (logEvent a w).1 = Normal tt
  /\ db (logEvent a w).2 = db w
  /\ ((auth_logs (logEvent a w).2 = auth_logs w ++ [auth_log_row a]
       /\ console (logEvent a w).2
          = console w ++ [log_event_line a (clock w)])
      \/ (auth_logs (logEvent a w).2 = auth_logs w
          /\ exists message,
              console (logEvent a w).2
              = console w ++ [log_event_line a (clock w);
                              LogInsertFailed message])).
Proof.
  intros H. unfold logEvent, bind, Date_now, console_log, pool_connect,
    bind, next_outage, finally, try_catch, client_query, bind, next_outage,
    client_release, throw, log_event_line.
  cbn. rewrite H. cbn.
  destruct (outage w (S (pool_calls w))) as [e|]; cbn.
  { repeat split. right. split; [reflexivity |].
    exists (err_message e). rewrite <- app_assoc. reflexivity. }
  destruct (_ && _); cbn.
  - repeat split. left. split; reflexivity.
  - repeat split. right. split; [reflexivity |].
    eexists. rewrite <- app_assoc. reflexivity.
Qed.

Lemma logEvent_swallows_a_failed_insert_witness :
  (logEvent sample_log world_pending).1 = Normal tt
  /\ db (logEvent sample_log world_pending).2 = db world_pending
  /\ ((auth_logs (logEvent sample_log world_pending).2
       = auth_logs world_pending ++ [auth_log_row sample_log]
       /\ console (logEvent sample_log world_pending).2
          = console world_pending
            ++ [log_event_line sample_log (clock world_pending)])
      \/ (auth_logs (logEvent sample_log world_pending).2
          = auth_logs world_pending
          /\ exists message,
              console (logEvent sample_log world_pending).2
              = console world_pending
                ++ [log_event_line sample_log (clock world_pending);
                    LogInsertFailed message])).
Proof.
  apply (logEvent_swallows_a_failed_insert sample_log world_pending).
  reflexivity.
Defined.

(* ================================================================== *)
(** ** What [runQuery] does when the store answers *)

(** With a pool and a server that answer, [runQuery] returns the rows of
    the statement, or throws the very error the server raised for it, and
    the tables are what the statement made of them.  In both cases it has
    written one row to [auth_logs] (when the values of [meta] fit their
    columns): status "success" and message "Query executed", or status
    "error" with the message and the stack of the error. *)
Theorem runQuery_returns_the_rows_or_rethrows
    {A} (q : Sql A) (meta : Meta) (w : World) :
  healthy w -> meta_fits meta = true ->
  match exec_sql q (db w) with
  | inr (rows, d) =>
      (runQuery q meta w).1 = Normal rows
      /\ db (runQuery q meta w).2 = d
      /\ auth_logs (runQuery q meta w).2
         = auth_logs w ++ audit_rows q
           ++ [runQuery_log meta success "Query executed" None]
  | inl e =>
      (runQuery q meta w).1 = Throw e
      /\ db (runQuery q meta w).2 = db w
      /\ auth_logs (runQuery q meta w).2
         = auth_logs w
           ++ [runQuery_log meta error (err_message e) (Some (err_stack e))]
  end.
Proof.
  intros Hw Hfit. unfold meta_fits in Hfit.
  destruct (exec_sql q (db w)) as [e|[rows d]] eqn:E;
    unfold runQuery, logEvent, bind, Date_now, console_log, pool_connect, bind,
      next_outage, finally, try_catch, client_query, bind, next_outage,
      client_release, throw, ret, runQuery_log;
    repeat (cbn -[varchar varchar_null default];
            first [rewrite Hw | rewrite E | rewrite Hfit]);
    cbn; repeat split.
  rewrite <- app_assoc. reflexivity.
Qed.

Lemma runQuery_returns_the_rows_or_rethrows_witness :
  (runQuery (SelectIdByMobile "9999999999") sample_meta world_pending).1
  = Normal [1]
  /\ db (runQuery (SelectIdByMobile "9999999999") sample_meta world_pending).2
     = db world_pending
  /\ auth_logs (runQuery (SelectIdByMobile "9999999999") sample_meta
                  world_pending).2
     = auth_logs world_pending ++ []
       ++ [runQuery_log sample_meta success "Query executed" None].
Proof.
  apply (runQuery_returns_the_rows_or_rethrows
           (SelectIdByMobile "9999999999") sample_meta world_pending).
  - intros n. reflexivity.
  - reflexivity.
Defined.

(* ================================================================== *)
(** ** Invariants of the [users] table *)

Section RoutesInvariant.

Variable Good : list User -> Prop.

Hypothesis Good_UpdateOtp :
  forall otp e m d rows d',
    Good (users d) -> exec_sql (UpdateOtp otp e m) d = inr (rows, d') ->
    Good (users d').
Hypothesis Good_InsertOtpUser :
  forall m role otp e d rows d',
    Good (users d) -> exec_sql (InsertOtpUser m role otp e) d = inr (rows, d') ->
    Good (users d').
Hypothesis Good_UpdateVerified :
  forall id d rows d',
    Good (users d) -> exec_sql (UpdateVerified id) d = inr (rows, d') ->
    Good (users d').
Hypothesis Good_InsertRegUser :
  forall m email h role d rows d',
    Good (users d) ->
    exec_sql (InsertRegUser m email h role) d = inr (rows, d') ->
    Good (users d').

Variable process : Process.

Lemma send_otp_invariant req w :
  Good (users (db w)) -> Good (users (db (send_otp process req w).2)).
Proof using Good_UpdateOtp Good_InsertOtpUser.
  intros H.
  refine (proj1 (proj2 (proj2
    (holds_send_otp (clock w) (entropy w) process
       (fun v => Good (users (v_db v))) req _ _ _ _ _
       w eq_refl eq_refl H)))); try (stable; fail); simpl; intros; eauto.
Qed.

Lemma verify_otp_invariant req w :
  Good (users (db w)) -> Good (users (db (verify_otp process req w).2)).
Proof using Good_UpdateVerified.
  intros H.
  refine (proj1 (proj2 (proj2
    (holds_verify_otp (clock w) (entropy w) process
       (fun v => Good (users (v_db v))) req _ _
       w eq_refl eq_refl H)))); try (stable; fail); simpl; intros; eauto.
Qed.

Lemma register_invariant req w :
  Good (users (db w)) -> Good (users (db (register process req w).2)).
Proof using Good_InsertRegUser.
  intros H.
  refine (proj1 (proj2 (proj2
    (holds_register (clock w) (entropy w) process
       (fun v => Good (users (v_db v))) req _ _
       w eq_refl eq_refl H)))); try (stable; fail); simpl; intros; eauto.
Qed.

Lemma calls_invariant cs w :
  Good (users (db w)) -> Good (users (db (calls process cs w))).
Proof using Good_UpdateOtp Good_InsertOtpUser Good_UpdateVerified
  Good_InsertRegUser.
  unfold calls. revert w.
  induction cs as [|c cs IH]; intros w H; simpl; [exact H |].
  apply IH. destruct c as [req|req|req|ms]; simpl.
  - apply send_otp_invariant, H.
  - apply verify_otp_invariant, H.
  - apply register_invariant, H.
  - exact H.
Qed.

Lemma calls_invariant_without_verify cs w :
  Forall (fun c => is_verify_call c = false) cs ->
  Good (users (db w)) -> Good (users (db (calls process cs w))).
Proof using Good_UpdateOtp Good_InsertOtpUser Good_InsertRegUser.
  unfold calls. revert w.
  induction cs as [|c cs IH]; intros w Hcs H; simpl; [exact H |].
  apply Forall_cons in Hcs as [Hc Hcs].
  apply IH; [exact Hcs |]. destruct c as [req|req|req|ms]; simpl.
  - apply send_otp_invariant, H.
  - discriminate.
  - apply register_invariant, H.
  - exact H.
Qed.

End RoutesInvariant.

(** *** A code and its expiry go together *)

Lemma code_paired_set_otp otp e u : code_paired (set_otp otp e u).
Proof. unfold code_paired. simpl. split; discriminate. Qed.

Lemma code_paired_set_verified u : code_paired (set_verified u).
Proof. unfold code_paired. simpl. split; reflexivity. Qed.

Lemma Forall_code_paired_fmap (f : User -> User) l :
  (forall u, code_paired u -> code_paired (f u)) ->
  Forall code_paired l -> Forall code_paired (f <$> l).
Proof.
  intros Hf H. apply Forall_fmap. eapply Forall_impl; [exact H |].
  intros u Hu. simpl. auto.
Qed.

(** Through any sequence of calls, whatever the store does, every row keeps
    its code and its expiry both set or both null: /send-otp writes the two
    together and /verify-otp clears the two together.  So the row /verify-otp
    selects by its code always has an expiry to compare with. *)
Theorem code_and_expiry_go_together process (cs : list Call) (w : World) :
  Forall code_paired (users (db w)) ->
  Forall code_paired (users (db (calls process cs w))).
Proof.
  apply (calls_invariant (Forall code_paired)).
  - intros otp e m d rows d' H E.
    apply exec_sql_UpdateOtp in E as (_ & -> & _).
    apply Forall_code_paired_fmap; [| exact H].
    intros u Hu. case_decide; [apply code_paired_set_otp | exact Hu].
  - intros m role otp e d rows d' H E.
    apply exec_sql_InsertOtpUser in E as (r & _ & _ & _ & _ & _ & -> & _).
    apply Forall_app. split; [exact H |]. constructor; [| constructor].
    unfold code_paired. simpl. split; discriminate.
  - intros id d rows d' H E.
    apply exec_sql_UpdateVerified in E as (_ & _ & ->).
    apply Forall_code_paired_fmap; [| exact H].
    intros u Hu. case_decide; [apply code_paired_set_verified | exact Hu].
  - intros m email h role d rows d' H E.
    apply exec_sql_InsertRegUser in E as (r & _ & _ & _ & _ & _ & _ & -> & _).
    apply Forall_app. split; [exact H |]. constructor; [| constructor].
    unfold code_paired. simpl. split; reflexivity.
Qed.

Lemma code_and_expiry_go_together_witness :
  Forall code_paired
    (users (db (calls process_dev
                  [CallSendOtp (request_mobile "8888888888");
                   Elapse 1000;
                   CallVerifyOtp (request_verify "9999999999" "123456")]
                  world_pending))).
Proof.
  apply (code_and_expiry_go_together process_dev
           [CallSendOtp (request_mobile "8888888888");
            Elapse 1000;
            CallVerifyOtp (request_verify "9999999999" "123456")]
           world_pending).
  repeat constructor; simpl; discriminate.
Defined.

(** *** Rows stay, and keep their identity *)

Lemma same_identity_refl u : same_identity u u.
Proof. unfold same_identity. auto 10. Qed.

Lemma same_identity_trans u1 u2 u3 :
  same_identity u1 u2 -> same_identity u2 u3 -> same_identity u1 u3.
Proof.
  unfold same_identity. intros H1 H2.
  destruct H1 as (?&?&?&?&?&?), H2 as (?&?&?&?&?&?).
  repeat split; congruence.
Qed.

Lemma rows_kept_refl l : rows_kept l l.
Proof.
  exists l, []. split; [symmetry; apply app_nil_r |].
  induction l; constructor; auto using same_identity_refl.
Qed.

Lemma rows_kept_fmap (f : User -> User) l0 l :
  (forall u, same_identity u (f u)) ->
  rows_kept l0 l -> rows_kept l0 (f <$> l).
Proof.
  intros Hf (l1 & added & -> & H).
  exists (f <$> l1), (f <$> added). split; [apply fmap_app |].
  induction H as [|u u' l0' l1' Hu Hl IH]; simpl; constructor; auto.
  eapply same_identity_trans; [exact Hu | apply Hf].
Qed.

Lemma rows_kept_app l0 l new : rows_kept l0 l -> rows_kept l0 (l ++ new).
Proof.
  intros (l1 & added & -> & H). exists l1, (added ++ new).
  split; [symmetry; apply app_assoc | exact H].
Qed.

(** Through any sequence of calls, whatever the store does, no row of
    [users] is removed or moved, and none changes its id, mobile, email,
    password hash, role or activity flag: the routes only rewrite
    [otp], [otp_expires_at] and [is_verified] of rows that exist, and append
    new rows.  In particular the [role] of a request to /send-otp or
    /register never changes the role of an existing user. *)
Theorem rows_keep_their_identity process (cs : list Call) (w : World) :
  rows_kept (users (db w)) (users (db (calls process cs w))).
Proof.
  apply (calls_invariant (rows_kept (users (db w)))).
  - intros otp e m d rows d' H E.
    apply exec_sql_UpdateOtp in E as (_ & -> & _).
    apply rows_kept_fmap; [| exact H].
    intros u. case_decide; unfold same_identity; simpl; auto 10.
  - intros m role otp e d rows d' H E.
    apply exec_sql_InsertOtpUser in E as (r & _ & _ & _ & _ & _ & -> & _).
    apply rows_kept_app, H.
  - intros id d rows d' H E.
    apply exec_sql_UpdateVerified in E as (_ & _ & ->).
    apply rows_kept_fmap; [| exact H].
    intros u. case_decide; unfold same_identity; simpl; auto 10.
  - intros m email h role d rows d' H E.
    apply exec_sql_InsertRegUser in E as (r & _ & _ & _ & _ & _ & _ & -> & _).
    apply rows_kept_app, H.
  - apply rows_kept_refl.
Qed.

(** *** Only /verify-otp verifies *)

Lemma verified_before_refl l : verified_before l l.
Proof. intros u Hin Hv. exists u. auto using same_identity_refl. Qed.

Lemma verified_before_fmap (f : User -> User) l0 l :
  (forall u, same_identity (f u) u) ->
  (forall u, users_is_verified (f u) = users_is_verified u) ->
  verified_before l0 l -> verified_before l0 (f <$> l).
Proof.
  intros Hid Hv H u Hin Hu.
  apply list_elem_of_fmap in Hin as (u1 & -> & Hin1).
  rewrite Hv in Hu. destruct (H u1 Hin1 Hu) as (u0 & Hin0 & Hsame & Hv0).
  exists u0. split; [exact Hin0 |]. split; [| exact Hv0].
  eapply same_identity_trans; [exact Hsame |].
  destruct (Hid u1) as (?&?&?&?&?&?). repeat split; congruence.
Qed.

Lemma verified_before_snoc l0 l u :
  users_is_verified u = false ->
  verified_before l0 l -> verified_before l0 (l ++ [u]).
Proof.
  intros Hu H u' Hin Hv. apply elem_of_app in Hin as [Hin | Hin].
  - apply H; assumption.
  - apply list_elem_of_singleton in Hin. subst u'. congruence.
Qed.

(** /send-otp and /register never verify anyone: after any sequence of
    calls of these two routes, whatever the store does, a row that is
    verified was verified before the sequence, and the rows the two routes
    create are unverified.  Only /verify-otp sets [is_verified]. *)
Theorem only_verify_otp_verifies
    process (cs : list Call) (w : World) (u : User) :
  Forall (fun c => is_verify_call c = false) cs ->
  u ∈ users (db (calls process cs w)) -> users_is_verified u = true ->
  exists u0, u0 ∈ users (db w) /\ same_identity u0 u
             /\ users_is_verified u0 = true.
Proof.
  intros Hcs.
  apply (calls_invariant_without_verify (verified_before (users (db w))));
    [| | | exact Hcs | apply verified_before_refl].
  - intros otp e m d rows d' H E.
    apply exec_sql_UpdateOtp in E as (_ & -> & _).
    apply verified_before_fmap; [| | exact H];
      intros u1; case_decide; try reflexivity;
      unfold same_identity; simpl; auto 10.
  - intros m role otp e d rows d' H E.
    apply exec_sql_InsertOtpUser in E as (r & _ & _ & _ & _ & _ & -> & _).
    apply verified_before_snoc; [reflexivity | exact H].
  - intros m email h role d rows d' H E.
    apply exec_sql_InsertRegUser in E as (r & _ & _ & _ & _ & _ & _ & -> & _).
    apply verified_before_snoc; [reflexivity | exact H].
Qed.

Lemma only_verify_otp_verifies_witness :
  exists u0, u0 ∈ users (db world_verified) /\ same_identity u0 user_verified
             /\ users_is_verified u0 = true.
Proof.
  apply (only_verify_otp_verifies process_dev
           [CallSendOtp (request_mobile "8888888888");
            CallRegister (request_mobile "7777777777")]
           world_verified user_verified).
  - repeat constructor.
  - vm_compute. left.
  - reflexivity.
Defined.

(* ================================================================== *)
(** ** Rules for [fails] *)

Section Fails.

Variables (t : Z) (en : nat -> Z).

Lemma fails_throw {A} (P : View -> Prop) (Q : Error -> View -> Prop) e :
  (forall v, P v -> Q e v) -> fails t en P (@throw A e) Q.
Proof. intros H w Hw Ht Hen HP. exists e. simpl. repeat split; auto. Qed.

Lemma fails_bind {A B} (P : View -> Prop) (Q1 : B -> View -> Prop)
    (Q : Error -> View -> Prop) (m : Async B) (k : B -> Async A) :
  succeeds t en P m Q1 -> (forall b, fails t en (Q1 b) (k b) Q) ->
  fails t en P (bind m k) Q.
Proof.
  intros Hm Hk w Hw Ht Hen HP. unfold bind.
  destruct (Hm w Hw Ht Hen HP) as (b & E & Hw1 & Ht1 & Hen1 & HQ1).
  destruct (m w) as [c w1]; simpl in *. subst c.
  apply Hk; auto.
Qed.

Lemma fails_bind_first {A B} (P : View -> Prop) (Q : Error -> View -> Prop)
    (m : Async B) (k : B -> Async A) :
  fails t en P m Q -> fails t en P (bind m k) Q.
Proof.
  intros Hm w Hw Ht Hen HP. unfold bind.
  destruct (Hm w Hw Ht Hen HP) as (e & E & Hw1 & Ht1 & Hen1 & HQ1).
  destruct (m w) as [c w1]; simpl in *. subst c. simpl. eauto 10.
Qed.

(** The [catch] block runs, and answers. *)
Lemma succeeds_try_catch_caught {A} (P : View -> Prop)
    (Q1 : Error -> View -> Prop) (Q : A -> View -> Prop)
    (m : Async A) (h : Error -> Async A) :
  fails t en P m Q1 -> (forall e, succeeds t en (Q1 e) (h e) Q) ->
  succeeds t en P (try_catch m h) Q.
Proof.
  intros Hm Hh w Hw Ht Hen HP. unfold try_catch.
  destruct (Hm w Hw Ht Hen HP) as (e & E & Hw1 & Ht1 & Hen1 & HQ1).
  destruct (m w) as [c w1]; simpl in *. subst c.
  apply Hh; auto.
Qed.

(** The [catch] block runs, and throws. *)
Lemma fails_try_catch_rethrown {A} (P : View -> Prop)
    (Q1 Q : Error -> View -> Prop) (m : Async A) (h : Error -> Async A) :
  fails t en P m Q1 -> (forall e, fails t en (Q1 e) (h e) Q) ->
  fails t en P (try_catch m h) Q.
Proof.
  intros Hm Hh w Hw Ht Hen HP. unfold try_catch.
  destruct (Hm w Hw Ht Hen HP) as (e & E & Hw1 & Ht1 & Hen1 & HQ1).
  destruct (m w) as [c w1]; simpl in *. subst c.
  apply Hh; auto.
Qed.

Lemma fails_finally_release {A} (P : View -> Prop) (Q : Error -> View -> Prop)
    (m : Async A) :
  fails t en P m Q -> fails t en P (finally m client_release) Q.
Proof.
  intros Hm w Hw Ht Hen HP. unfold finally, client_release.
  destruct (Hm w Hw Ht Hen HP) as (e & E & Hw1 & Ht1 & Hen1 & HQ1).
  destruct (m w) as [c w1]; simpl in *. subst c. simpl. eauto 10.
Qed.

Lemma fails_pure {A} (F : Prop) (P : View -> Prop) (Q : Error -> View -> Prop)
    (m : Async A) :
  (F -> fails t en P m Q) -> fails t en (fun v => F /\ P v) m Q.
Proof. intros H w Hw Ht Hen [HF HP]. apply H; auto. Qed.

(** The server rejects the statement. *)
Lemma fails_client_query {A} (P : View -> Prop) (Q : Error -> View -> Prop)
    (q : Sql A) :
  (forall d c, P (mkView d c) ->
     exists e, exec_sql q d = inl e /\ Q e (mkView d c)) ->
  fails t en P (client_query q) Q.
Proof.
  intros H w Hw Ht Hen HP.
  destruct (H _ _ HP) as (e & E & HQ).
  exists e. unfold client_query, bind, next_outage. rewrite Hw.
  simpl. rewrite E. simpl. repeat split; auto.
Qed.

(** [runQuery] logs the error of the server and throws it again. *)
Lemma fails_runQuery {A} (P : View -> Prop) (Q : Error -> View -> Prop)
    (q : Sql A) meta :
  (forall e, audit_stable (Q e)) ->
  (forall d c, P (mkView d c) ->
     exists e, exec_sql q d = inl e /\ Q e (mkView d c)) ->
  fails t en P (runQuery q meta) Q.
Proof.
  intros HSQ H. unfold runQuery.
  eapply fails_bind; [apply succeeds_pool_connect | intros ?].
  apply fails_finally_release.
  eapply fails_try_catch_rethrown.
  - apply fails_bind_first. apply fails_client_query, H.
  - intros e. eapply fails_bind; [apply succeeds_logEvent, HSQ | intros ?].
    apply fails_throw. auto.
Qed.

End Fails.

(* ================================================================== *)
(** ** Statements the server rejects *)

Section Rejected.

Variables (t : Z) (en : nat -> Z) (process : Process) (req : Request).
Variables (m : string) (d0 : Db).

Hypothesis mobile_given : body_mobile req = Some m.


(** /register for a mobile without a row, when the INSERT is rejected. *)
Lemma succeeds_register_rejected :
  m <> "" ->
  mobile_taken m (users d0) = false ->
  (exists e,
      exec_sql (InsertRegUser m
                  (if falsy (body_email req) then None else body_email req)
                  (if falsy (body_password req) then None
                   else Some (bcrypt_hash (default "" (body_password req)) 10))
                  (default "candidate" (body_role req))) d0 = inl e) ->
  succeeds t en (fun v => v_db v = d0) (register process req)
    (fun resp v =>
       resp = mkResponse 500 (ErrorBody "Registration failed") /\ v_db v = d0).
Proof using mobile_given.
  intros Hne Hfree Hrej. unfold register, getClientInfo. cbv zeta.
  apply (succeeds_try_catch_caught _ _ _ (fun _ v => v_db v = d0)).
  2:{ intros e. eapply succeeds_bind; [apply succeeds_logEvent; stable | intros ?].
      apply succeeds_ret. auto. }
  rewrite mobile_given.
  replace (falsy (Some m)) with false.
  2:{ symmetry. simpl. apply bool_decide_eq_false. assumption. }
  cbn [default from_option id].
  eapply fails_bind.
  { apply (succeeds_runQuery _ _ _
             (fun existing v =>
                existing = users_id <$> filter (fun u => users_mobile u = m)
                                          (users d0)
                /\ v_db v = d0)).
    - intros rows. stable.
    - intros d c Hd. simpl in Hd. subst d. simpl. eauto. }
  intros existing. apply fails_pure. intros Hex.
  apply existing_nil in Hfree. rewrite Hfree in Hex. subst existing.
  cbn [length bool_decide]. 
  replace (bool_decide (0 < 0)) with false
    by (symmetry; apply bool_decide_eq_false; lia).
  apply fails_bind_first.
  apply fails_runQuery.
  - intros e. stable.
  - intros d c Hd. simpl in Hd. subst d.
    destruct Hrej as [e He]. exists e. split; [exact He | reflexivity].
Qed.

End Rejected.




Lemma succeeds_register_taken t en process req m d0 :
  body_mobile req = Some m -> m <> "" ->
  mobile_taken m (users d0) = true ->
  succeeds t en (fun v => v_db v = d0) (register process req)
    (fun resp v =>
       resp = mkResponse 400 (ErrorBody "User already exists") /\ v_db v = d0).
Proof.
  intros Hm Hne Htaken. unfold register, getClientInfo. cbv zeta.
  apply succeeds_try_catch.
  rewrite Hm.
  replace (falsy (Some m)) with false.
  2:{ symmetry. simpl. apply bool_decide_eq_false. assumption. }
  cbn [default from_option id].
  eapply succeeds_bind.
  { apply (succeeds_runQuery _ _ _
             (fun existing v =>
                existing = users_id <$> filter (fun u => users_mobile u = m)
                                          (users d0)
                /\ v_db v = d0)).
    - intros rows. stable.
    - intros d c Hd. simpl in Hd. subst d. simpl. eauto. }
  intros existing. apply succeeds_pure. intros Hex.
  replace (bool_decide (0 < length existing)) with true.
  2:{ symmetry. apply bool_decide_eq_true. destruct existing; simpl; [| lia].
      symmetry in Hex. apply existing_nil in Hex. congruence. }
  eapply succeeds_bind; [apply succeeds_logEvent; stable | intros ?].
  apply succeeds_ret. auto.
Qed.

(** /register looks for the mobile before it inserts, not for the email.
    When the store answers: a mobile that has a row gets the 400 "User
    already exists"; a free mobile with an email that another row holds
    runs into the UNIQUE constraint of [users.email] and gets the 500
    "Registration failed".  In both cases the tables are left as they
    were. *)
Theorem register_tells_a_taken_mobile_but_not_a_taken_email
    process (req : Request) (w : World) (m : string) :
  body_mobile req = Some m -> m <> "" -> healthy w ->
  (mobile_taken m (users (db w)) = true ->
   (register process req w).1
   = Normal (mkResponse 400 (ErrorBody "User already exists"))
   /\ db (register process req w).2 = db w)
  /\ (forall email,
         mobile_taken m (users (db w)) = false ->
         body_email req = Some email -> email <> "" ->
         email_taken (Some email) (users (db w)) = true ->
         (register process req w).1
         = Normal (mkResponse 500 (ErrorBody "Registration failed"))
         /\ db (register process req w).2 = db w).
Proof.
  intros Hm Hne Hw. split.
  - intros Htaken.
    destruct (run_succeeds _ _ _ _ _ w
                (succeeds_register_taken (clock w) (entropy w) process req m
                   (db w) Hm Hne Htaken)
                Hw eq_refl eq_refl eq_refl) as (resp & E & -> & Hdb).
    split; [exact E | exact Hdb].
  - intros email Hfree He Hene Hetaken.
    assert (Hrej : exists e,
               exec_sql (InsertRegUser m
                           (if falsy (body_email req) then None
                            else body_email req)
                           (if falsy (body_password req) then None
                            else Some (bcrypt_hash
                                         (default "" (body_password req)) 10))
                           (default "candidate" (body_role req))) (db w)
               = inl e).
    { rewrite He. replace (falsy (Some email)) with false
        by (symmetry; simpl; apply bool_decide_eq_false; assumption).
      simpl. destruct (user_role_of_string _); [| eauto].
      destruct (negb _); [eauto |].
      rewrite Hfree. simpl in Hetaken. rewrite Hetaken. simpl. eauto. }
    destruct (run_succeeds _ _ _ _ _ w
                (succeeds_register_rejected (clock w) (entropy w) process req m
                   (db w) Hm Hne Hfree Hrej)
                Hw eq_refl eq_refl eq_refl) as (resp & E & -> & Hdb).
    split; [exact E | exact Hdb].
Qed.

Lemma register_tells_a_taken_mobile_but_not_a_taken_email_witness :
  ((register process_dev (request_mobile "9999999999") world_registered).1
   = Normal (mkResponse 400 (ErrorBody "User already exists"))
   /\ db (register process_dev (request_mobile "9999999999")
            world_registered).2
      = db world_registered)
  /\ ((register process_dev
         (request_register "8888888888" "asha@example.org")
         world_registered).1
      = Normal (mkResponse 500 (ErrorBody "Registration failed"))
      /\ db (register process_dev
               (request_register "8888888888" "asha@example.org")
               world_registered).2
         = db world_registered).
Proof.
  split.
  - apply (register_tells_a_taken_mobile_but_not_a_taken_email process_dev
             (request_mobile "9999999999") world_registered "9999999999").
    + reflexivity.
    + discriminate.
    + intros n. reflexivity.
    + reflexivity.
  - apply (proj2 (register_tells_a_taken_mobile_but_not_a_taken_email
                    process_dev
                    (request_register "8888888888" "asha@example.org")
                    world_registered "8888888888" eq_refl
                    ltac:(discriminate) ltac:(intros n; reflexivity))
             "asha@example.org").
    + reflexivity.
    + reflexivity.
    + discriminate.
    + reflexivity.
Defined.

(* ================================================================== *)
(** ** What the responses hold *)

Section Responses.

Variables (process : Process) (req : Request) (w : World) (resp : Response).

Lemma send_otp_well_formed :
  (send_otp process req w).1 = Normal resp -> well_formed_response resp.
Proof.
  intros E.
  pose proof (holds_send_otp (clock w) (entropy w) process (fun _ => True) req
                audit_stable_True ltac:(auto) ltac:(auto) ltac:(auto)
                ltac:(auto) w eq_refl eq_refl I) as (_ & _ & _ & H).
  specialize (H resp E). unfold send_otp_post in H.
  unfold well_formed_response, auth_error_messages.
  destruct (body resp); try contradiction.
  - destruct H as [(Hs & -> & _) | (Hs & ->)]; rewrite Hs;
      (split; [auto | set_solver]).
  - destruct H as (Hs & _). exact Hs.
Qed.

Lemma verify_otp_well_formed :
  (verify_otp process req w).1 = Normal resp -> well_formed_response resp.
Proof.
  intros E.
  pose proof (holds_verify_otp (clock w) (entropy w) process (fun _ => True)
                req audit_stable_True ltac:(auto) w eq_refl eq_refl I)
    as (_ & _ & _ & H).
  specialize (H resp E). unfold verify_otp_post in H.
  unfold well_formed_response, auth_error_messages.
  destruct (body resp); try contradiction.
  - destruct H as [(Hs & [-> | [-> | ->]]) | (Hs & ->)]; rewrite Hs;
      (split; [auto | set_solver]).
  - destruct H as (Hs & _). exact Hs.
Qed.

Lemma register_well_formed :
  (register process req w).1 = Normal resp -> well_formed_response resp.
Proof.
  intros E.
  pose proof (holds_register (clock w) (entropy w) process (fun _ => True)
                req audit_stable_True ltac:(auto) w eq_refl eq_refl I)
    as (_ & _ & _ & H).
  specialize (H resp E). unfold register_post in H.
  unfold well_formed_response, auth_error_messages.
  destruct (body resp); try contradiction.
  - destruct H as [(Hs & [(-> & _) | (-> & _)]) | (Hs & ->)]; rewrite Hs;
      (split; [auto | set_solver]).
  - destruct H as (Hs & _). exact Hs.
Qed.

End Responses.

(** Whatever the store does, and whatever the text of the errors it
    raises, a response of one of the three routes is a success body with
    status 200 (201 for /register), or an error body with status 400 or
    500 whose text is one of nine fixed texts: the message and the stack of
    a caught error go to [logEvent], never to the client. *)
Theorem responses_never_carry_the_text_of_an_error
    process (req : Request) (w : World) (resp : Response) :
  (send_otp process req w).1 = Normal resp
  \/ (verify_otp process req w).1 = Normal resp
  \/ (register process req w).1 = Normal resp ->
  well_formed_response resp.
Proof.
  intros [E | [E | E]].
  - eapply send_otp_well_formed; eauto.
  - eapply verify_otp_well_formed; eauto.
  - eapply register_well_formed; eauto.
Qed.

Lemma responses_never_carry_the_text_of_an_error_witness :
  well_formed_response (mkResponse 500 (ErrorBody "Failed to send OTP")).
Proof.
  apply (responses_never_carry_the_text_of_an_error process_dev
           request_long_mobile world_pending).
  left. vm_compute. reflexivity.
Defined.

(** Whatever the store does, a 200 of /verify-otp is made from the row of
    the table that matched and from nothing else of the request: the token
    is signed for 30 days over the id, mobile and role of that row, the
    [user] object of the body repeats them, and [redirectTo] is the page of
    that role for the answer [profileCompleted]. *)
Theorem verify_otp_answers_for_the_row_that_matched
    process (req : Request) (w : World) (resp : Response) :
  (verify_otp process req w).1 = Normal resp -> status resp = 200 ->
  exists m o user profileCompleted,
    body_mobile req = Some m /\ body_otp req = Some o
    /\ user ∈ users (db w)
    /\ users_mobile user = m /\ users_otp user = Some o
    /\ body resp
       = VerifyBody true
           (jwt (mkClaims (users_id user) m (users_role user))
                (JWT_SECRET process) "30d")
           (users_id user) m (users_role user) true profileCompleted
           (redirect_of (users_role user) profileCompleted)
    /\ is_Some (redirect_of (users_role user) profileCompleted).
Proof.
  intros E H200.
  pose proof (holds_verify_otp (clock w) (entropy w) process
                (keeps_verified_atomically (users (db w))) req
                ltac:(stable)
                ltac:(intros; eapply verified_atomically_UpdateVerified; eauto)
                w eq_refl eq_refl (verified_atomically_refl _))
    as (_ & _ & _ & HQ).
  specialize (HQ resp E). unfold verify_otp_post in HQ.
  destruct (body resp) eqn:Eb; try contradiction.
  { destruct HQ as [[Hs _] | [Hs _]]; rewrite Hs in H200; discriminate. }
  destruct HQ as (_ & m & o & d_sel & c_sel & user & rest & Hm & Ho & _ & _
                  & Hsel & Hrows & _ & -> & -> & -> & -> & -> & -> & -> & _).
  assert (Hin : user ∈ matching m o (users d_sel)) by (rewrite Hrows; left).
  apply matching_elem in Hin as [[Hum Huo] Hin].
  exists m, o, user, profileCompleted.
  repeat match goal with |- _ /\ _ => split end; auto.
  - eapply verified_atomically_unchanged_row; eauto.
  - rewrite Hum. reflexivity.
  - destruct (users_role user); simpl; eauto.
Qed.

Lemma verify_otp_answers_for_the_row_that_matched_witness :
  exists m o user profileCompleted,
    body_mobile (request_verify "9999999999" "123456") = Some m
    /\ body_otp (request_verify "9999999999" "123456") = Some o
    /\ user ∈ users (db world_pending)
    /\ users_mobile user = m /\ users_otp user = Some o
    /\ VerifyBody true
         (jwt (mkClaims 1 "9999999999" candidate) "s3cret" "30d")
         1 "9999999999" candidate true false
         (Some "/candidate/profile-form")
       = VerifyBody true
           (jwt (mkClaims (users_id user) m (users_role user))
                (JWT_SECRET process_dev) "30d")
           (users_id user) m (users_role user) true profileCompleted
           (redirect_of (users_role user) profileCompleted)
    /\ is_Some (redirect_of (users_role user) profileCompleted).
Proof.
  apply (verify_otp_answers_for_the_row_that_matched process_dev
           (request_verify "9999999999" "123456") world_pending
           (mkResponse 200
              (VerifyBody true
                 (jwt (mkClaims 1 "9999999999" candidate) "s3cret" "30d")
                 1 "9999999999" candidate true false
                 (Some "/candidate/profile-form")))).
  - vm_compute. reflexivity.
  - reflexivity.
Defined.

(** When the store answers and accepts the row, /register stores the
    request as it is given: the role of the request ("candidate" when it has
    none, and any of the three roles when it has one), the email or null
    when it is empty, the bcrypt hash of the password with cost 10 or null
    when there is none; the row is active, unverified and without a code.
    The 201 returns the id, mobile, email and role of the row, and a token
    signed for 30 days over its id, mobile and role. *)
Theorem register_stores_the_request_as_given
    process (req : Request) (w : World) (m : string) (r : user_role) :
  body_mobile req = Some m -> m <> "" ->
  healthy w -> JWT_SECRET process <> "" ->
  mobile_taken m (users (db w)) = false -> varchar 15 m = true ->
  user_role_of_string (default "candidate" (body_role req)) = Some r ->
  varchar_null 255 (if falsy (body_email req) then None else body_email req)
  = true ->
  email_taken (if falsy (body_email req) then None else body_email req)
              (users (db w)) = false ->
  (register process req w).1
  = Normal (mkResponse 201
              (RegisterBody true
                 (jwt (mkClaims (users_next_id (db w)) m r)
                      (JWT_SECRET process) "30d")
                 (mkRegisteredUser (users_next_id (db w)) m
                    (if falsy (body_email req) then None else body_email req)
                    r)))
  /\ users (db (register process req w).2)
     = users (db w)
       ++ [mkUser (users_next_id (db w))
                  (if falsy (body_email req) then None else body_email req)
                  m
                  (if falsy (body_password req) then None
                   else Some (bcrypt_hash (default "" (body_password req)) 10))
                  r true false None None].
Proof.
  intros Hm Hne Hw Hsec Hfree Hv Hr Hev Het.
  destruct (run_succeeds _ _ _ _ _ w
              (succeeds_register (clock w) (entropy w) process req m (db w)
                 Hm Hne Hsec (fun _ => ex_intro _ r (conj Hr (conj Hv (conj Hev Het)))))
              Hw eq_refl eq_refl eq_refl) as (resp & E & HQ).
  rewrite Hfree in HQ. destruct HQ as (user & token & -> & Eins).
  pose proof (holds_register (clock w) (entropy w) process (fun _ => True)
                req audit_stable_True ltac:(auto) w eq_refl eq_refl I)
    as (_ & _ & _ & HP).
  specialize (HP _ E). unfold register_post in HP. simpl in HP.
  destruct HP as (_ & _ & m' & _ & _ & _ & Htok & _).
  apply exec_sql_InsertRegUser in Eins
    as (r' & Hr' & _ & _ & _ & _ & Hrows & Hu & _).
  assert (r' = r) by congruence. subst r'.
  inversion Hrows; subst user. simpl in Htok. subst token.
  split; [exact E | exact Hu].
Qed.

Lemma register_stores_the_request_as_given_witness :
  (register process_dev (request_register "8888888888" "ravi@example.org")
     world_registered).1
  = Normal (mkResponse 201
              (RegisterBody true
                 (jwt (mkClaims 2 "8888888888" candidate) "s3cret" "30d")
                 (mkRegisteredUser 2 "8888888888" (Some "ravi@example.org")
                    candidate)))
  /\ users (db (register process_dev
                  (request_register "8888888888" "ravi@example.org")
                  world_registered).2)
     = [user_registered;
        mkUser 2 (Some "ravi@example.org") "8888888888" None candidate
               true false None None].
Proof.
  apply (register_stores_the_request_as_given process_dev
           (request_register "8888888888" "ravi@example.org")
           world_registered "8888888888" candidate).
  - reflexivity.
  - discriminate.
  - intros n. reflexivity.
  - discriminate.
  - reflexivity.
  - reflexivity.
  - reflexivity.
  - reflexivity.
  - reflexivity.
Defined.

(* ================================================================== *)
(** ** A code from /send-otp to /verify-otp *)

Lemma mobiles_unique_same l u u' :
  mobiles_unique l -> u ∈ l -> u' ∈ l -> users_mobile u = users_mobile u' ->
  u = u'.
Proof.
  unfold mobiles_unique. intros Hnd Hu Hu' Hm.
  induction l as [|u0 l IH]; [inversion Hu |].
  simpl in Hnd. apply NoDup_cons in Hnd as [Hnot Hnd].
  apply elem_of_cons in Hu as [-> | Hu];
    apply elem_of_cons in Hu' as [-> | Hu']; auto.
  - exfalso. apply Hnot. apply list_elem_of_fmap. eauto.
  - exfalso. apply Hnot. apply list_elem_of_fmap. eauto.
Qed.

Lemma healthy_later ms w : healthy w -> healthy (later ms w).
Proof. intros H n. exact (H n). Qed.

Lemma mobile_taken_true m us :
  mobile_taken m us = true -> exists u, u ∈ us /\ users_mobile u = m.
Proof.
  unfold mobile_taken. intros H. apply bool_decide_eq_true in H.
  apply Exists_exists in H. exact H.
Qed.

(** What a 200 of /send-otp leaves, when the store answers and mobiles are
    unique: one row for the mobile, with the code and its expiry. *)
Lemma send_otp_outcome process req w m :
  body_mobile req = Some m -> 10 <= String.length m ->
  healthy w -> random_source w -> mobiles_unique (users (db w)) ->
  (mobile_taken m (users (db w)) = false ->
   varchar 15 m = true
   /\ exists r, user_role_of_string (default "candidate" (body_role req))
                = Some r) ->
  exists code u,
    six_digits code
    /\ (send_otp process req w).1
       = Normal (mkResponse 200
                   (SendOtpBody true "OTP sent successfully"
                      (if development process then Some code else None)))
    /\ healthy (send_otp process req w).2
    /\ clock (send_otp process req w).2 = clock w
    /\ mobiles_unique (users (db (send_otp process req w).2))
    /\ u ∈ users (db (send_otp process req w).2)
    /\ users_mobile u = m /\ users_otp u = Some code
    /\ users_otp_expires_at u = Some (clock w + 10 * 60 * 1000)%Z.
Proof.
  intros Hm Hlen Hw Hrand Huniq Hacc.
  destruct (succeeds_send_otp (clock w) (entropy w) process req m (db w)
              Hm Hlen (random_source_codes_fit w Hrand) Hacc
              w Hw eq_refl eq_refl eq_refl)
    as (resp & E & Hw1 & Ht1 & _ & k & -> & Esql).
  unfold view in Esql. cbn [v_db] in Esql.
  destruct (otp_of_random_shape _ (Hrand k)) as (n & _ & En & H6 & _ & _).
  exists (otp_of_random (entropy w k)).
  assert (Hall : mobiles_unique (users (db (send_otp process req w).2))
                 /\ stored_code m (otp_of_random (entropy w k))
                                (clock w + 10 * 60 * 1000)%Z
                                (db (send_otp process req w).2)
                 /\ exists u, u ∈ users (db (send_otp process req w).2)
                              /\ users_mobile u = m).
  { revert Esql.
    destruct (mobile_taken m (users (db w))) eqn:Htaken; intros Esql.
    - split; [eapply exec_sql_mobiles_unique; eauto |].
      split; [eapply UpdateOtp_stores; eauto |].
      apply mobile_taken_true in Htaken as (u0 & Hin0 & Hm0).
      apply exec_sql_UpdateOtp in Esql as (_ & Hu & _).
      exists (set_otp (otp_of_random (entropy w k))
                      (clock w + 10 * 60 * 1000)%Z u0).
      split; [| exact Hm0]. rewrite Hu.
      apply list_elem_of_fmap. exists u0. split; [| exact Hin0].
      destruct (decide (users_mobile u0 = m)); [reflexivity | contradiction].
    - split; [eapply exec_sql_mobiles_unique; eauto |].
      split; [eapply InsertOtpUser_stores; eauto |].
      apply exec_sql_InsertOtpUser in Esql
        as (r & _ & _ & _ & _ & _ & Hu & _).
      eexists. split; [rewrite Hu; apply elem_of_app; right;
                       apply list_elem_of_singleton; reflexivity |].
      reflexivity. }
  destruct Hall as (Hu1 & Hst & u & Hin & Hum). exists u.
  destruct (Hst u Hin Hum) as [Ho He].
  rewrite En at 1.
  repeat match goal with |- _ /\ _ => split end; auto.
Qed.

(** The code /send-otp just stored, and no other, is accepted by
    /verify-otp, and for ten minutes.  When the store answers and mobiles
    are unique: /send-otp answers 200 (echoing the code in development mode
    only); a /verify-otp for the mobile with that code is answered 200 up
    to and including [10 * 60 * 1000] ms later, and leaves the row of the
    mobile verified without a code; later than that it is answered
    "OTP expired"; and with any other code, an earlier one included, it is
    answered "Invalid OTP" at any time.  The two 400 leave the tables as
    /send-otp left them. *)
Theorem the_code_sent_and_only_it_is_accepted_for_ten_minutes
    process (req : Request) (w : World) (m : string) :
  body_mobile req = Some m -> 10 <= String.length m ->
  healthy w -> random_source w -> mobiles_unique (users (db w)) ->
  JWT_SECRET process <> "" ->
  (mobile_taken m (users (db w)) = false ->
   varchar 15 m = true
   /\ exists r, user_role_of_string (default "candidate" (body_role req))
                = Some r) ->
  exists code,
    six_digits code
    /\ (send_otp process req w).1
       = Normal (mkResponse 200
                   (SendOtpBody true "OTP sent successfully"
                      (if development process then Some code else None)))
    /\ forall req' o ms,
         body_mobile req' = Some m -> body_otp req' = Some o -> o <> "" ->
         (o = code -> (ms <= 10 * 60 * 1000)%Z ->
          exists resp,
            (verify_otp process req' (later ms (send_otp process req w).2)).1
            = Normal resp
            /\ status resp = 200
            /\ forall u,
                 u ∈ users (db (verify_otp process req'
                                  (later ms (send_otp process req w).2)).2) ->
                 users_mobile u = m ->
                 users_is_verified u = true /\ users_otp u = None)
         /\ (o = code -> (10 * 60 * 1000 < ms)%Z ->
             (verify_otp process req' (later ms (send_otp process req w).2)).1
             = Normal (mkResponse 400 (ErrorBody "OTP expired"))
             /\ db (verify_otp process req'
                      (later ms (send_otp process req w).2)).2
                = db (send_otp process req w).2)
         /\ (o <> code ->
             (verify_otp process req' (later ms (send_otp process req w).2)).1
             = Normal (mkResponse 400 (ErrorBody "Invalid OTP"))
             /\ db (verify_otp process req'
                      (later ms (send_otp process req w).2)).2
                = db (send_otp process req w).2).
Proof.
  intros Hm Hlen Hw Hrand Huniq Hsec Hacc.
  destruct (send_otp_outcome process req w m Hm Hlen Hw Hrand Huniq Hacc)
    as (code & u & H6 & Eresp & Hw1 & Ht1 & Hu1 & Hin & Hum & Huo & Hue).
  exists code. split; [exact H6 |]. split; [exact Eresp |].
  set (w1 := (send_otp process req w).2) in *.
  intros req' o ms Hm' Ho' Hone.
  assert (Hmne : m <> "") by (intros ->; simpl in Hlen; lia).
  pose proof (succeeds_verify_otp (clock w1 + ms)%Z (entropy w1) process req'
                m o (db w1) Hm' Ho' Hmne Hone (fun _ _ _ _ => Hsec)
                (later ms w1) (healthy_later ms w1 Hw1)
                eq_refl eq_refl eq_refl) as (resp & E & _ & _ & _ & HQ).
  assert (Hrows : o = code -> matching m o (users (db w1)) = [u]).
  { intros ->. apply matching_unique; assumption. }
  split; [| split].
  - intros Hoc Hms. rewrite (Hrows Hoc) in HQ. rewrite Hue in HQ. simpl in HQ.
    destruct (Z.ltb_spec (clock w + 10 * 60 * 1000) (clock w1 + ms)); [lia |].
    destruct HQ as (hasProfile & -> & Eup).
    eexists. split; [exact E |]. split; [reflexivity |].
    intros u' Hin' Hum'.
    apply exec_sql_UpdateVerified in Eup as (_ & _ & Hup).
    unfold view in Hup. cbn [v_db] in Hup. rewrite Hup in Hin'.
    apply list_elem_of_fmap in Hin' as (u0 & -> & Hin0).
    assert (u0 = u).
    { apply (mobiles_unique_same (users (db w1))); auto.
      rewrite Hum. rewrite <- Hum'. case_decide; reflexivity. }
    subst u0. destruct (decide (users_id u = users_id u));
      [simpl; auto | contradiction].
  - intros Hoc Hms. rewrite (Hrows Hoc) in HQ. rewrite Hue in HQ. simpl in HQ.
    destruct (Z.ltb_spec (clock w + 10 * 60 * 1000) (clock w1 + ms)); [| lia].
    destruct HQ as [-> Hdb]. split; [exact E | exact Hdb].
  - intros Hoc.
    rewrite (matching_none m o (users (db w1))) in HQ.
    + destruct HQ as [-> Hdb]. split; [exact E | exact Hdb].
    + intros u' Hin' [Hum' Huo'].
      assert (u' = u)
        by (apply (mobiles_unique_same (users (db w1))); auto; congruence).
      subst u'. congruence.
Qed.

Lemma the_code_sent_and_only_it_is_accepted_for_ten_minutes_witness :
  exists code resp,
    (send_otp process_dev (request_mobile "9999999999") world_pending).1
    = Normal (mkResponse 200
                (SendOtpBody true "OTP sent successfully" (Some code)))
    /\ (verify_otp process_dev (request_verify "9999999999" code)
          (later (10 * 60 * 1000)
             (send_otp process_dev (request_mobile "9999999999")
                world_pending).2)).1
       = Normal resp
    /\ status resp = 200.
Proof.
  destruct (the_code_sent_and_only_it_is_accepted_for_ten_minutes process_dev
              (request_mobile "9999999999") world_pending "9999999999")
    as (code & H6 & Esend & Hverify).
  - reflexivity.
  - vm_compute. lia.
  - intros n. reflexivity.
  - intros k. split; [vm_compute; split; [discriminate | reflexivity] |].
    vm_compute. reflexivity.
  - vm_compute. repeat constructor. intros H. inversion H.
  - discriminate.
  - intros _. split; [reflexivity |]. exists candidate. reflexivity.
  - assert (Hne : code <> "") by (intros ->; exact H6).
    destruct (Hverify (request_verify "9999999999" code) code
                (10 * 60 * 1000)%Z eq_refl eq_refl Hne)
      as (Hok & _ & _).
    destruct (Hok eq_refl ltac:(lia)) as (resp & E & H200 & _).
    exists code, resp. split; [exact Esend |]. split; [exact E | exact H200].
Defined.

Ltac same_outage_side :=
  unfold same_outage;
  first [ (intros; exact I)
        | apply Forall_forall; intros; exact I
        | intros; simpl in *; congruence ].

Lemma verify_otp_same_outage process req w :
  outage (verify_otp process req w).2 = outage w.
Proof.
  apply (keeps_verify_otp same_outage (fun _ => True)); same_outage_side.
Qed.

(** A code is good for one verification.  When mobiles are unique, after a
    200 of /verify-otp the same request, sent again at any time to a store
    that answers, gets the 400 "Invalid OTP" and changes nothing: the
    UPDATE of the first call set the code of the row to null. *)
Theorem a_code_verifies_only_once
    process (req : Request) (w : World) (resp : Response) (ms : Z) :
  healthy w -> mobiles_unique (users (db w)) ->
  (verify_otp process req w).1 = Normal resp -> status resp = 200 ->
  (verify_otp process req (later ms (verify_otp process req w).2)).1
  = Normal (mkResponse 400 (ErrorBody "Invalid OTP"))
  /\ db (verify_otp process req (later ms (verify_otp process req w).2)).2
     = db (verify_otp process req w).2.
Proof.
  intros Hw Huniq E H200.
  pose proof (holds_verify_otp (clock w) (entropy w) process
                (keeps_verified_atomically (users (db w))) req
                ltac:(stable)
                ltac:(intros; eapply verified_atomically_UpdateVerified; eauto)
                w eq_refl eq_refl (verified_atomically_refl _))
    as (_ & _ & HI & HQ).
  specialize (HQ resp E). unfold verify_otp_post in HQ.
  destruct (body resp) eqn:Eb; try contradiction.
  { destruct HQ as [[Hs _] | [Hs _]]; rewrite Hs in H200; discriminate. }
  destruct HQ as (_ & m & o & d_sel & c_sel & user & rest & Hm & Ho & Hmne & Hone
                  & Hsel & Hrows & _ & _ & _ & _ & _ & _ & _ & _ & Hver).
  set (w1 := (verify_otp process req w).2) in *.
  unfold keeps_verified_atomically, view in HI, Hsel, Hver.
  cbn [v_db] in HI, Hsel, Hver.
  assert (Huser : user ∈ matching m o (users d_sel)) by (rewrite Hrows; left).
  apply matching_elem in Huser as [[Hum Huo] Huser].
  assert (Huser0 : user ∈ users (db w))
    by (eapply verified_atomically_unchanged_row; eauto).
  assert (Hw1 : healthy (later ms w1)).
  { intros n. unfold later, set_clock. cbn [outage].
    unfold w1. rewrite verify_otp_same_outage. apply Hw. }
  assert (Hnone : matching m o (users (db w1)) = []).
  { apply matching_none. intros u Hin [Hum' Huo'].
    assert (Hin0 : u ∈ users (db w))
      by (eapply (verified_atomically_unchanged_row _ _ _ _ HI); eauto).
    assert (u = user)
      by (apply (mobiles_unique_same (users (db w))); auto; congruence).
    subst u. destruct (Hver user Hin eq_refl) as (_ & Hnull & _). congruence. }
  pose proof (succeeds_verify_otp (clock w1 + ms)%Z (entropy w1) process req
                m o (db w1) Hm Ho Hmne Hone
                ltac:(intros user' rest' E'; rewrite Hnone in E'; discriminate)
                (later ms w1) Hw1 eq_refl eq_refl eq_refl)
    as (resp' & E' & _ & _ & _ & HQ').
  rewrite Hnone in HQ'. destruct HQ' as [-> Hdb].
  split; [exact E' | exact Hdb].
Qed.

Lemma a_code_verifies_only_once_witness :
  (verify_otp process_dev (request_verify "9999999999" "123456")
     (later 1000 (verify_otp process_dev
                    (request_verify "9999999999" "123456") world_pending).2)).1
  = Normal (mkResponse 400 (ErrorBody "Invalid OTP"))
  /\ db (verify_otp process_dev (request_verify "9999999999" "123456")
           (later 1000 (verify_otp process_dev
                          (request_verify "9999999999" "123456")
                          world_pending).2)).2
     = db (verify_otp process_dev (request_verify "9999999999" "123456")
             world_pending).2.
Proof.
  apply (a_code_verifies_only_once process_dev
           (request_verify "9999999999" "123456") world_pending
           (mkResponse 200
              (VerifyBody true
                 (jwt (mkClaims 1 "9999999999" candidate) "s3cret" "30d")
                 1 "9999999999" candidate true false
                 (Some "/candidate/profile-form")))).
  - intros n. reflexivity.
  - vm_compute. repeat constructor. intros H. inversion H.
  - vm_compute. reflexivity.
  - reflexivity.
Defined.

(* ================================================================== *)
(** ** The rate limiters and the routers *)

Lemma starts_segments_cons a prefix path :
  starts_segments (String a prefix) path = true ->
  exists b path', path = String b path' /\ to_lower a = to_lower b
                  /\ starts_segments prefix path' = true.
Proof.
  destruct path as [|b path']; simpl; [discriminate |].
  intros H. apply andb_true_iff in H as [H1 H2].
  apply bool_decide_eq_true in H1. eauto.
Qed.

Lemma to_lower_slash b : to_lower "/" = to_lower b -> b = "/"%char.
Proof.
  destruct b as [[] [] [] [] [] [] [] []]; vm_compute; congruence.
Qed.

Ltac split_path H :=
  repeat match type of H with
         | starts_segments (String _ _) _ = true =>
             let b := fresh "b" in
             let E := fresh "E" in
             apply starts_segments_cons in H as (b & ? & -> & E & H)
         end.

(** A path under ["/api/v1"] is under ["/api"] and not under
    ["/api/auth/send-otp"]. *)
Lemma under_api_v1 rest path :
  starts_segments ("/api/v1" +:+ rest) path = true ->
  starts_segments "/api" path = true
  /\ starts_segments "/api/auth/send-otp" path = false.
Proof.
  intros H.
  change ("/api/v1" +:+ rest)
    with (String "/" (String "a" (String "p" (String "i" (String "/"
            (String "v" (String "1" rest))))))) in H.
  split_path H. split.
  - simpl. repeat (apply andb_true_iff; split);
      try (apply bool_decide_eq_true; assumption).
    apply bool_decide_eq_true. apply to_lower_slash. assumption.
  - match goal with
    | |- ?x = false => destruct x eqn:Hotp; [exfalso | reflexivity]
    end.
    simpl in Hotp.
    repeat match type of Hotp with
           | _ && _ = true =>
               let E := fresh "E" in
               apply andb_true_iff in Hotp as [E Hotp];
               apply bool_decide_eq_true in E
           end.
    match goal with
    | X : to_lower "v" = to_lower ?b, Y : to_lower "a" = to_lower ?b |- _ =>
        rewrite <- Y in X; vm_compute in X; discriminate X
    end.
Qed.

Ltac in_list := repeat first [apply list_elem_of_here | apply list_elem_of_further].

Lemma elem_of_layers_for m path :
  m ∈ layers_for path <->
  exists mount, (mount, m) ∈ server_stack /\ mounted mount path = true.
Proof.
  unfold layers_for. rewrite list_elem_of_fmap. split.
  - intros ([mount m'] & -> & Hin). apply list_elem_of_filter in Hin as [H1 H2].
    exists mount. auto.
  - intros (mount & Hin & Hm). exists (mount, m). split; [reflexivity |].
    apply list_elem_of_filter. auto.
Qed.

Lemma router_mount mount r :
  r ∈ routers -> (mount, r) ∈ server_stack ->
  exists rest, mount = "/api/v1" +:+ rest.
Proof.
  unfold routers, server_stack. intros Hr Hin.
  repeat (apply elem_of_cons in Hin as [Hin | Hin];
          [injection Hin as -> -> |]);
    [.. | inversion Hin];
    first [ eexists; reflexivity
          | exfalso;
            repeat (apply elem_of_cons in Hr as [Hr | Hr]; [discriminate |]);
            inversion Hr ].
Qed.

(** The limiter of the OTP endpoint is mounted on ["/api/auth/send-otp"],
    the auth router on ["/api/v1/auth"].  A request that reaches one of the
    six routers, whatever its path, goes through [generalLimiter]
    (100 requests per 15 minutes) and never through [otpLimiter]
    (5 requests per 10 minutes): /send-otp is not limited as an OTP
    endpoint. *)
Theorem otpLimiter_is_not_on_the_path_of_a_router
    (path : string) (r : Middleware) :
  r ∈ routers -> r ∈ layers_for path ->
  generalLimiter ∈ layers_for path /\ otpLimiter ∉ layers_for path.
Proof.
  intros Hr Hin. apply elem_of_layers_for in Hin as (mount & Hin & Hm).
  destruct (router_mount mount r Hr Hin) as [rest ->].
  unfold mounted in Hm.
  replace (strip_trailing_slash ("/api/v1" +:+ rest))
    with ("/api/v1" +:+ strip_trailing_slash rest) in Hm.
  2:{ clear. unfold server_stack. simpl.
      destruct rest; reflexivity. }
  apply under_api_v1 in Hm as [Hgen Hotp]. split.
  - apply elem_of_layers_for. exists "/api/". split; [| exact Hgen].
    unfold server_stack. in_list.
  - intros Hin'. apply elem_of_layers_for in Hin' as (mount' & Hin' & Hm').
    assert (mount' = "/api/auth/send-otp").
    { clear -Hin'. unfold server_stack in Hin'.
      repeat (apply elem_of_cons in Hin' as [Hin' | Hin'];
              [inversion Hin'; subst; clear Hin' |]);
        try reflexivity.
      inversion Hin'. }
    subst mount'. unfold mounted in Hm'.
    change (strip_trailing_slash "/api/auth/send-otp")
      with "/api/auth/send-otp" in Hm'.
    congruence.
Qed.

Lemma otpLimiter_is_not_on_the_path_of_a_router_witness :
  generalLimiter ∈ layers_for "/api/v1/auth/send-otp"
  /\ otpLimiter ∉ layers_for "/api/v1/auth/send-otp".
Proof.
  apply (otpLimiter_is_not_on_the_path_of_a_router "/api/v1/auth/send-otp"
           authRoutes).
  - unfold routers. in_list.
  - vm_compute. in_list.
Defined.

(* ================================================================== *)
(** ** [validateEnv] *)

Lemma dotenv_config_keeps (dotenv_file env : gmap string string) key v :
  env !! key = Some v -> dotenv_config dotenv_file env !! key = Some v.
Proof.
  intros H. unfold dotenv_config. rewrite lookup_union, H.
  destruct (dotenv_file !! key); reflexivity.
Qed.

(** The server listens exactly when [DATABASE_URL] and [JWT_SECRET] are
    both set to a non-empty value, in the environment or in the [.env]
    file; otherwise it exits with code 1 and names exactly the variables
    that are missing.  A variable of the environment is not overridden by
    the file: one of the two set to the empty string in the environment is
    missing, whatever the file says. *)
Theorem server_listens_iff_both_variables_are_set
    (dotenv_file env : gmap string string) :
  let env' := dotenv_config dotenv_file env in
  ((exists p, server_start dotenv_file env = Listening p)
   <-> falsy (env' !! "DATABASE_URL") = false
       /\ falsy (env' !! "JWT_SECRET") = false)
  /\ (forall code missing,
         server_start dotenv_file env = Exit code missing ->
         code = 1 /\ missing <> []
         /\ forall key, key ∈ missing <->
                        (key = "DATABASE_URL" \/ key = "JWT_SECRET")
                        /\ falsy (env' !! key) = true)
  /\ (forall key,
         key = "DATABASE_URL" \/ key = "JWT_SECRET" ->
         env !! key = Some "" ->
         exists missing, server_start dotenv_file env = Exit 1 missing
                         /\ key ∈ missing).
Proof.
  intros env'.
  assert (Hstart : server_start dotenv_file env
                   = match validateEnv_missing env' with
                     | [] => Listening (mkProcess env' (auth_JWT_SECRET env'))
                     | missing => Exit 1 missing
                     end).
  { unfold server_start. rewrite dotenv_config_twice. reflexivity. }
  assert (Hmiss : forall key,
             key ∈ validateEnv_missing env' <->
             (key = "DATABASE_URL" \/ key = "JWT_SECRET")
             /\ falsy (env' !! key) = true).
  { intros key. unfold validateEnv_missing. rewrite list_elem_of_filter.
    rewrite !elem_of_cons, elem_of_nil. tauto. }
  split; [| split].
  - rewrite Hstart. split.
    + intros [p Hp].
      destruct (validateEnv_missing env') as [|k ks] eqn:E; [| discriminate].
      split.
      * destruct (falsy (env' !! "DATABASE_URL")) eqn:F; [| reflexivity].
        pose proof (proj2 (Hmiss "DATABASE_URL") (conj (or_introl eq_refl) F))
          as H.
        inversion H.
      * destruct (falsy (env' !! "JWT_SECRET")) eqn:F; [| reflexivity].
        pose proof (proj2 (Hmiss "JWT_SECRET") (conj (or_intror eq_refl) F))
          as H.
        inversion H.
    + intros [Hd Hj].
      destruct (validateEnv_missing env') as [|k ks] eqn:E; [eauto |].
      assert (H : k ∈ k :: ks) by left.
      apply Hmiss in H as [[-> | ->] H]; congruence.
  - intros code missing. rewrite Hstart.
    destruct (validateEnv_missing env') as [|k ks] eqn:E; [discriminate |].
    intros H. inversion H; subst code missing.
    split; [reflexivity |]. split; [discriminate |].
    exact Hmiss.
  - intros key Hkey Hempty.
    assert (Hin : key ∈ validateEnv_missing env').
    { apply Hmiss. split; [exact Hkey |].
      unfold env'. rewrite (dotenv_config_keeps _ _ _ _ Hempty). reflexivity. }
    rewrite Hstart.
    destruct (validateEnv_missing env') as [|k ks] eqn:E; [inversion Hin |].
    eexists. split; [reflexivity | exact Hin].
Qed.

Lemma server_listens_iff_both_variables_are_set_witness :
  exists missing,
    server_start (<["JWT_SECRET" := "from-the-file"]> ∅)
                 (<["JWT_SECRET" := ""]> (<["DATABASE_URL" := "postgres://db"]> ∅))
    = Exit 1 missing
    /\ "JWT_SECRET" ∈ missing.
Proof.
  apply (server_listens_iff_both_variables_are_set
           (<["JWT_SECRET" := "from-the-file"]> ∅)
           (<["JWT_SECRET" := ""]> (<["DATABASE_URL" := "postgres://db"]> ∅))).
  - right. reflexivity.
  - reflexivity.
Defined.

(* ================================================================== *)
(** ** The profile and the page /verify-otp sends to *)

Lemma filter_eq_nonempty (id : nat) (l : list nat) :
  bool_decide (0 < length (filter (fun p => p = id) l)) = bool_decide (id ∈ l).
Proof.
  apply bool_decide_ext. split.
  - intros H. destruct (filter (fun p => p = id) l) as [|p rest] eqn:E;
      [simpl in H; lia |].
    assert (Hin : p ∈ filter (fun p => p = id) l) by (rewrite E; left).
    apply list_elem_of_filter in Hin as [-> Hin]. exact Hin.
  - intros Hin.
    assert (Hf : id ∈ filter (fun p => p = id) l)
      by (apply list_elem_of_filter; auto).
    destruct (filter (fun p => p = id) l); [inversion Hf | simpl; lia].
Qed.

Section SucceedsVerifyOtpProfile.

Variables (t : Z) (en : nat -> Z) (process : Process) (req : Request).
Variables (m o : string) (d0 : Db) (user : User) (rest : list User).

Hypothesis mobile_given : body_mobile req = Some m.
Hypothesis otp_given : body_otp req = Some o.
Hypothesis mobile_not_empty : m <> "".
Hypothesis otp_not_empty : o <> "".
Hypothesis secret_not_empty : JWT_SECRET process <> "".
Hypothesis row_matches : matching m o (users d0) = user :: rest.
Hypothesis not_expired : (Date_of (users_otp_expires_at user) <? t)%Z = false.

Lemma succeeds_verify_otp_profile :
  succeeds t en (fun v => v_db v = d0) (verify_otp process req)
    (fun resp _ =>
       resp = mkResponse 200
                (VerifyBody true
                   (jwt (mkClaims (users_id user) (users_mobile user)
                                  (users_role user))
                        (JWT_SECRET process) "30d")
                   (users_id user) (users_mobile user) (users_role user) true
                   (has_profile user d0)
                   (redirect_of (users_role user) (has_profile user d0)))).
Proof using mobile_given otp_given mobile_not_empty otp_not_empty
  secret_not_empty row_matches not_expired.
  unfold verify_otp, getClientInfo. cbv zeta.
  apply succeeds_try_catch.
  rewrite mobile_given, otp_given.
  replace (falsy (Some m) || falsy (Some o)) with false.
  2:{ symmetry. apply orb_false_iff. simpl.
      split; apply bool_decide_eq_false; assumption. }
  cbn [default from_option id].
  eapply succeeds_bind.
  { apply (succeeds_runQuery _ _ _
             (fun rows v => rows = matching m o (users d0) /\ v_db v = d0)).
    - intros rows. stable.
    - intros d c Hd. simpl in Hd. subst d. simpl. eauto. }
  intros rows. apply succeeds_pure. intros ->. rewrite row_matches.
  eapply succeeds_bind; [apply succeeds_Date_now | intros now].
  apply succeeds_pure. intros ->. rewrite not_expired.
  eapply succeeds_bind.
  { apply (succeeds_runQuery _ _ _
             (fun _ v => candidate_profiles (v_db v) = candidate_profiles d0
                         /\ employer_profiles (v_db v) = employer_profiles d0)).
    - intros rows. stable.
    - intros d c Hd. simpl in Hd. subst d. simpl. eauto. }
  intros ?.
  eapply succeeds_bind.
  { instantiate (1 := fun hasProfile _ =>
                        hasProfile = has_profile user d0 /\ True).
    unfold has_profile. destruct (users_role user).
    - eapply succeeds_bind.
      { apply (succeeds_runQuery _ _ _
                 (fun result _ =>
                    result = filter (fun p => p = users_id user)
                                    (candidate_profiles d0))).
        + intros rows. stable.
        + intros d c [Hc He]. simpl in *. rewrite Hc. eauto. }
      intros result. apply succeeds_ret. intros v ->.
      split; [apply filter_eq_nonempty | exact I].
    - eapply succeeds_bind.
      { apply (succeeds_runQuery _ _ _
                 (fun result _ =>
                    result = filter (fun p => p = users_id user)
                                    (employer_profiles d0))).
        + intros rows. stable.
        + intros d c [Hc He]. simpl in *. rewrite He. eauto. }
      intros result. apply succeeds_ret. intros v ->.
      split; [apply filter_eq_nonempty | exact I].
    - apply succeeds_ret. auto. }
  intros hasProfile. apply succeeds_pure. intros ->.
  eapply succeeds_bind;
    [apply succeeds_jwt_sign; exact secret_not_empty | intros token].
  apply succeeds_pure. intros ->.
  eapply succeeds_bind; [apply succeeds_logEvent; stable | intros ?].
  apply succeeds_ret. reflexivity.
Qed.

End SucceedsVerifyOtpProfile.

(** When the store answers, mobiles are unique and the submitted code is
    the pending code of the row of the mobile, not expired, the 200 of
    /verify-otp says whether the user has a profile and where to go next:
    [profileCompleted] is true exactly when the profile table of the role
    of the user ([candidate_profiles] or [employer_profiles]) has a row for
    the user, [redirectTo] is the dashboard of the role when it is and its
    profile form when it is not; an admin has no profile and always goes to
    "/admin/dashboard". *)
Theorem verify_otp_redirects_by_role_and_profile
    process (req : Request) (w : World) (m o : string) (user : User) :
  body_mobile req = Some m -> body_otp req = Some o -> m <> "" -> o <> "" ->
  healthy w -> JWT_SECRET process <> "" -> mobiles_unique (users (db w)) ->
  user ∈ users (db w) -> users_mobile user = m -> users_otp user = Some o ->
  (clock w <= Date_of (users_otp_expires_at user))%Z ->
  (verify_otp process req w).1
  = Normal (mkResponse 200
              (VerifyBody true
                 (jwt (mkClaims (users_id user) m (users_role user))
                      (JWT_SECRET process) "30d")
                 (users_id user) m (users_role user) true
                 (has_profile user (db w))
                 (Some match users_role user, has_profile user (db w) with
                       | candidate, true => "/candidate/dashboard"
                       | candidate, false => "/candidate/profile-form"
                       | employer, true => "/employer/dashboard"
                       | employer, false => "/employer/profile-form"
                       | admin, _ => "/admin/dashboard"
                       end)))
  /\ (users_role user = admin -> has_profile user (db w) = false).
Proof.
  intros Hm Ho Hmne Hone Hw Hsec Huniq Hin Hum Huo Hexp.
  pose proof (matching_unique m o _ user Huniq Hin Hum Huo) as Hrows.
  assert (Hnot : (Date_of (users_otp_expires_at user) <? clock w)%Z = false)
    by (apply Z.ltb_ge; exact Hexp).
  destruct (run_succeeds _ _ _ _ _ w
              (succeeds_verify_otp_profile (clock w) (entropy w) process req
                 m o (db w) user [] Hm Ho Hmne Hone Hsec Hrows Hnot)
              Hw eq_refl eq_refl eq_refl) as (resp & E & ->).
  split.
  - rewrite E, Hum. unfold redirect_of.
    destruct (users_role user), (has_profile user (db w)); reflexivity.
  - intros Hadmin. unfold has_profile. rewrite Hadmin. reflexivity.
Qed.

Lemma verify_otp_redirects_by_role_and_profile_witness :
  (verify_otp process_dev (request_verify "7777777777" "654321")
     world_employer).1
  = Normal (mkResponse 200
              (VerifyBody true
                 (jwt (mkClaims 7 "7777777777" employer) "s3cret" "30d")
                 7 "7777777777" employer true true
                 (Some "/employer/dashboard"))).
Proof.
  apply (verify_otp_redirects_by_role_and_profile process_dev
           (request_verify "7777777777" "654321") world_employer
           "7777777777" "654321" user_employer).
  - reflexivity.
  - reflexivity.
  - discriminate.
  - discriminate.
  - intros n. reflexivity.
  - discriminate.
  - vm_compute. repeat constructor. intros H. inversion H.
  - left.
  - reflexivity.
  - reflexivity.
  - vm_compute. discriminate.
Defined.

(* ================================================================== *)
(** ** Requests with a field missing *)

Section MissingFields.

Variables (t : Z) (en : nat -> Z) (process : Process) (req : Request).
Variable d0 : Db.

Lemma holds_verify_otp_missing :
  falsy (body_mobile req) || falsy (body_otp req) = true ->
  holds t en (unchanged d0) (verify_otp process req)
    (fun resp _ => status resp = 400 \/ status resp = 500).
Proof.
  intros Hmiss. unfold verify_otp, getClientInfo. cbv zeta. rewrite Hmiss.
  apply holds_try_catch.
  - eapply holds_bind; [apply holds_logEvent; stable | intros ?].
    apply holds_ret. simpl. auto.
  - intros err. eapply holds_bind; [apply holds_logEvent; stable | intros ?].
    apply holds_ret. simpl. auto.
Qed.

Lemma succeeds_verify_otp_missing :
  falsy (body_mobile req) || falsy (body_otp req) = true ->
  succeeds t en (fun v => v_db v = d0) (verify_otp process req)
    (fun resp _ => resp = mkResponse 400 (ErrorBody "Mobile and OTP required")).
Proof.
  intros Hmiss. unfold verify_otp, getClientInfo. cbv zeta. rewrite Hmiss.
  apply succeeds_try_catch.
  eapply succeeds_bind; [apply succeeds_logEvent; stable | intros ?].
  apply succeeds_ret. auto.
Qed.

Lemma holds_register_missing :
  falsy (body_mobile req) = true ->
  holds t en (unchanged d0) (register process req)
    (fun resp _ => status resp = 400 \/ status resp = 500).
Proof.
  intros Hmiss. unfold register, getClientInfo. cbv zeta. rewrite Hmiss.
  apply holds_try_catch.
  - eapply holds_bind; [apply holds_logEvent; stable | intros ?].
    apply holds_ret. simpl. auto.
  - intros err. eapply holds_bind; [apply holds_logEvent; stable | intros ?].
    apply holds_ret. simpl. auto.
Qed.

Lemma succeeds_register_missing :
  falsy (body_mobile req) = true ->
  succeeds t en (fun v => v_db v = d0) (register process req)
    (fun resp _ => resp = mkResponse 400 (ErrorBody "Mobile number required")).
Proof.
  intros Hmiss. unfold register, getClientInfo. cbv zeta. rewrite Hmiss.
  apply succeeds_try_catch.
  eapply succeeds_bind; [apply succeeds_logEvent; stable | intros ?].
  apply succeeds_ret. auto.
Qed.

End MissingFields.

(** A field that is absent and a field that is the empty string are both
    missing.  /verify-otp without a mobile or without a code, and /register
    without a mobile, never touch the tables and never answer with a
    success, whatever the store does; when the store answers they get the
    400 "Mobile and OTP required", respectively "Mobile number required". *)
Theorem missing_fields_are_refused
    process (req : Request) (w : World) :
  (falsy (body_mobile req) || falsy (body_otp req) = true ->
   db (verify_otp process req w).2 = db w
   /\ (forall resp, (verify_otp process req w).1 = Normal resp ->
                    status resp = 400 \/ status resp = 500)
   /\ (healthy w ->
       (verify_otp process req w).1
       = Normal (mkResponse 400 (ErrorBody "Mobile and OTP required"))))
  /\ (falsy (body_mobile req) = true ->
      db (register process req w).2 = db w
      /\ (forall resp, (register process req w).1 = Normal resp ->
                       status resp = 400 \/ status resp = 500)
      /\ (healthy w ->
          (register process req w).1
          = Normal (mkResponse 400 (ErrorBody "Mobile number required")))).
Proof.
  split; intros Hmiss.
  - destruct (holds_verify_otp_missing (clock w) (entropy w) process req
                (db w) Hmiss w eq_refl eq_refl eq_refl) as (_ & _ & Hdb & HQ).
    split; [exact Hdb |]. split; [exact HQ |].
    intros Hw.
    destruct (run_succeeds _ _ _ _ _ w
                (succeeds_verify_otp_missing (clock w) (entropy w) process req
                   (db w) Hmiss)
                Hw eq_refl eq_refl eq_refl) as (resp & E & ->).
    exact E.
  - destruct (holds_register_missing (clock w) (entropy w) process req
                (db w) Hmiss w eq_refl eq_refl eq_refl) as (_ & _ & Hdb & HQ).
    split; [exact Hdb |]. split; [exact HQ |].
    intros Hw.
    destruct (run_succeeds _ _ _ _ _ w
                (succeeds_register_missing (clock w) (entropy w) process req
                   (db w) Hmiss)
                Hw eq_refl eq_refl eq_refl) as (resp & E & ->).
    exact E.
Qed.

Lemma missing_fields_are_refused_witness :
  (verify_otp process_dev (request_verify "9999999999" "") world_pending).1
  = Normal (mkResponse 400 (ErrorBody "Mobile and OTP required"))
  /\ (register process_dev (request_mobile "") world_pending).1
     = Normal (mkResponse 400 (ErrorBody "Mobile number required")).
Proof.
  split.
  - apply (proj1 (missing_fields_are_refused process_dev
                    (request_verify "9999999999" "") world_pending)).
    + reflexivity.
    + intros n. reflexivity.
  - apply (proj2 (missing_fields_are_refused process_dev
                    (request_mobile "") world_pending)).
    + reflexivity.
    + intros n. reflexivity.
Defined.

(* ================================================================== *)
(** ** The job list *)


Ltac by_filter f :=
  destruct f as [city state job_type experience_level search limit offset];
  unfold get_jobs_statement; cbn [query_city query_state query_job_type
    query_experience_level query_search query_limit query_offset];
  destruct (falsy city), (falsy state), (falsy job_type),
    (falsy experience_level).

(** For every combination of filters the statement of the job list numbers
    its placeholders [$1], ..., [$n] in the order of the array of values,
    which has exactly [n] entries: "active" first, then the filters that are
    given, then [limit] and [offset] (20 and 0 when absent).  The [search]
    field is read from the query string and never used. *)
Theorem get_jobs_binds_every_placeholder (f : JobsFilter) :
  placeholders (jobs_query (get_jobs_statement f))
  = one_to (length (jobs_values (get_jobs_statement f)))
  /\ length (jobs_conditions (get_jobs_statement f)) + 2
     = length (jobs_values (get_jobs_statement f))
  /\ jobs_values (get_jobs_statement f) !! 0 = Some (PString "active")
  /\ (forall search,
         get_jobs_statement
           (mkJobsFilter (query_city f) (query_state f) (query_job_type f)
              (query_experience_level f) search (query_limit f)
              (query_offset f))
         = get_jobs_statement f).
Proof.
  split; [| split; [| split]].
  - by_filter f; vm_compute; reflexivity.
  - by_filter f; reflexivity.
  - by_filter f; reflexivity.
  - intros search'. destruct f. reflexivity.
Qed.

(** The job list names the columns of its WHERE clause without their
    table, over the join of [jobs] and [employer_profiles].  Both tables
    have a [city] and a [state] column: with a [city] or a [state] filter the
    statement holds a column reference PostgreSQL rejects as ambiguous.
    Without these two filters every column of the WHERE clause, and the
    [posted_at] of the ORDER BY, is a column of [jobs] alone. *)
Theorem get_jobs_city_and_state_are_ambiguous (f : JobsFilter) :
  (falsy (query_city f) = false ->
   exists condition,
     condition ∈ jobs_conditions (get_jobs_statement f)
     /\ condition_column condition = "city"
     /\ resolve "city" = column_ambiguous)
  /\ (falsy (query_state f) = false ->
      exists condition,
        condition ∈ jobs_conditions (get_jobs_statement f)
        /\ condition_column condition = "state"
        /\ resolve "state" = column_ambiguous)
  /\ (falsy (query_city f) = true -> falsy (query_state f) = true ->
      Forall (fun condition => resolve (condition_column condition)
                               = column_of_jobs)
             (jobs_conditions (get_jobs_statement f))
      /\ resolve "posted_at" = column_of_jobs).
Proof.
  destruct f as [city state job_type experience_level search limit offset].
  unfold get_jobs_statement.
  cbn [query_city query_state query_job_type query_experience_level
       query_search query_limit query_offset].
  split; [| split].
  - intros Hcity. rewrite Hcity.
    destruct (falsy state), (falsy job_type), (falsy experience_level);
      (exists "city=$2"; split; [vm_compute; in_list | split; reflexivity]).
  - intros Hstate. rewrite Hstate.
    destruct (falsy city), (falsy job_type), (falsy experience_level);
      first [ exists "state=$2";
              split; [vm_compute; in_list; fail | split; reflexivity]
            | exists "state=$3";
              split; [vm_compute; in_list; fail | split; reflexivity] ].
  - intros Hcity Hstate. rewrite Hcity, Hstate. split; [| reflexivity].
    destruct (falsy job_type), (falsy experience_level);
      vm_compute; repeat constructor.
Qed.

Lemma get_jobs_city_and_state_are_ambiguous_witness :
  exists condition,
    condition ∈ jobs_conditions
                  (get_jobs_statement (filter_city_state "Pune" "Maharashtra"))
    /\ condition_column condition = "city"
    /\ resolve "city" = column_ambiguous.
Proof.
  apply (get_jobs_city_and_state_are_ambiguous
           (filter_city_state "Pune" "Maharashtra")).
  reflexivity.
Defined.

(* ================================================================== *)
(** ** The update of the status of an application *)

Ltac not_in_list :=
  let H := fresh "H" in
  intros H;
  repeat (apply elem_of_cons in H as [H | H]; [discriminate H |]);
  inversion H.

(** For every body the UPDATE of an application numbers its placeholders
    [$1], ..., [$n] in the order of the array of values, which has exactly
    [n] entries and ends with the [id] of the URL; the SET list is never
    empty, since [updated_at=NOW()] is always its last clause.
    [shortlisted_at] is set exactly when the status is "shortlisted", and
    [interview_scheduled_at] exactly when the status is
    "interview_scheduled" and a date is given: a date sent with another
    status is dropped. *)
Theorem update_status_binds_every_placeholder (id : string) (b : StatusUpdate) :
  placeholders (update_query (update_status_statement id b))
  = one_to (length (update_values (update_status_statement id b)))
  /\ last (update_values (update_status_statement id b)) = Some id
  /\ last (update_data (update_status_statement id b))
     = Some "updated_at=NOW()"
  /\ ("shortlisted_at=NOW()" ∈ update_data (update_status_statement id b)
      <-> update_status b = Some "shortlisted")
  /\ ((exists n, "interview_scheduled_at=$" +:+ n
                 ∈ update_data (update_status_statement id b))
      <-> update_status b = Some "interview_scheduled"
          /\ falsy (update_interview_scheduled_at b) = false).
Proof.
  assert (Heq : forall v s, strict_equal v s = true <-> v = Some s).
  { intros [x|] s0; simpl; [| split; discriminate].
    rewrite String.eqb_eq. split; [intros ->; reflexivity | congruence]. }
  destruct b as [status notes date reason].
  unfold update_status_statement.
  cbn [update_status update_employer_notes update_interview_scheduled_at
       update_rejection_reason].
  rewrite <- (Heq status "shortlisted"), <- (Heq status "interview_scheduled").
  split; [| split; [| split; [| split]]].
  - destruct (falsy status), notes, reason,
      (strict_equal status "shortlisted"),
      (strict_equal status "interview_scheduled"), (falsy date);
      vm_compute; reflexivity.
  - destruct (falsy status), notes, reason,
      (strict_equal status "shortlisted"),
      (strict_equal status "interview_scheduled"), (falsy date);
      reflexivity.
  - destruct (falsy status), notes, reason,
      (strict_equal status "shortlisted"),
      (strict_equal status "interview_scheduled"), (falsy date);
      reflexivity.
  - destruct (falsy status), notes, reason,
      (strict_equal status "shortlisted"),
      (strict_equal status "interview_scheduled"), (falsy date);
      cbn [andb negb];
      (split; [ first [ intros _; reflexivity | vm_compute; not_in_list ]
              | first [ discriminate | intros _; vm_compute; in_list ] ]).
  - destruct (falsy status), notes, reason,
      (strict_equal status "shortlisted"),
      (strict_equal status "interview_scheduled"), (falsy date);
      cbn [andb negb];
      (split;
       [ first [ intros _; split; reflexivity
               | intros [n H]; exfalso; revert H; vm_compute; not_in_list ]
       | first [ intros [H1 H2]; discriminate
               | intros _; eexists; vm_compute; in_list ] ]).
Qed.

(* ================================================================== *)
(** ** The skill list, and what the texts are made of *)

(** For every query string the statement of the skill list numbers its
    placeholders [$1], ..., [$n] in the order of the array of values, which
    has exactly [n] entries: the category when it is given, then the search
    term between two [%] when it is given. *)
Theorem get_skills_binds_every_placeholder (category search : option string) :
  placeholders (get_skills_statement category search).1
  = one_to (length (get_skills_statement category search).2)
  /\ (get_skills_statement category search).2
     = (if falsy category then [] else [default "" category])
       ++ (if falsy search then []
           else ["%" +:+ default "" search +:+ "%"]).
Proof.
  unfold get_skills_statement.
  destruct (falsy category), (falsy search); split;
    first [reflexivity | vm_compute; reflexivity].
Qed.

(** The texts of the three statements hold no value of the request: two
    requests that give the same fields, and the same answers to the two
    comparisons of the status with "shortlisted" and "interview_scheduled",
    get the same text, character for character.  What the client sends
    reaches the server in the array of values only. *)
Theorem statement_texts_hold_no_value_of_the_request :
  (forall f f',
      falsy (query_city f) = falsy (query_city f') ->
      falsy (query_state f) = falsy (query_state f') ->
      falsy (query_job_type f) = falsy (query_job_type f') ->
      falsy (query_experience_level f) = falsy (query_experience_level f') ->
      jobs_query (get_jobs_statement f) = jobs_query (get_jobs_statement f'))
  /\ (forall id id' b b',
         falsy (update_status b) = falsy (update_status b') ->
         is_Some (update_employer_notes b)
         <-> is_Some (update_employer_notes b') ->
         is_Some (update_rejection_reason b)
         <-> is_Some (update_rejection_reason b') ->
         strict_equal (update_status b) "shortlisted"
         = strict_equal (update_status b') "shortlisted" ->
         strict_equal (update_status b) "interview_scheduled"
         = strict_equal (update_status b') "interview_scheduled" ->
         falsy (update_interview_scheduled_at b)
         = falsy (update_interview_scheduled_at b') ->
         update_query (update_status_statement id b)
         = update_query (update_status_statement id' b'))
  /\ (forall category search category' search',
         falsy category = falsy category' -> falsy search = falsy search' ->
         (get_skills_statement category search).1
         = (get_skills_statement category' search').1).
Proof.
  split; [| split].
  - intros [c s j e q l o] [c' s' j' e' q' l' o']. simpl.
    intros Hc Hs Hj He. unfold get_jobs_statement.
    cbn [query_city query_state query_job_type query_experience_level
         query_search query_limit query_offset].
    rewrite Hc, Hs, Hj, He.
    destruct (falsy c'), (falsy s'), (falsy j'), (falsy e'); reflexivity.
  - intros id id' [st n d r] [st' n' d' r']. simpl.
    intros Hst Hn Hr Hsh Hin Hd. unfold update_status_statement.
    cbn [update_status update_employer_notes update_interview_scheduled_at
         update_rejection_reason].
    rewrite Hst, Hsh, Hin, Hd.
    assert (Hsome : forall (x y : option string),
               (is_Some x <-> is_Some y) ->
               (x = None /\ y = None) \/ (exists a b, x = Some a /\ y = Some b)).
    { intros [a|] [b0|] H; eauto.
      - destruct (proj1 H ltac:(eauto)) as [? ?]; discriminate.
      - destruct (proj2 H ltac:(eauto)) as [? ?]; discriminate. }
    destruct (Hsome _ _ Hn) as [[-> ->] | (a & a' & -> & ->)],
             (Hsome _ _ Hr) as [[-> ->] | (c & c' & -> & ->)];
      destruct (falsy st'), (strict_equal st' "shortlisted"),
        (strict_equal st' "interview_scheduled"), (falsy d'); reflexivity.
  - intros c s c' s' Hc Hs. unfold get_skills_statement.
    rewrite Hc, Hs. destruct (falsy c'), (falsy s'); reflexivity.
Qed.

Lemma statement_texts_hold_no_value_of_the_request_witness :
  (get_skills_statement (Some "Technical") (Some "weld")).1
  = (get_skills_statement (Some "x") (Some "%' OR 1=1 --")).1.
Proof.
  apply statement_texts_hold_no_value_of_the_request; reflexivity.
Defined.

(* ================================================================== *)
(** ** Numbers in the text of a statement *)

Section ReadNumber.

Local Open Scope Z_scope.

Lemma digit_value_digit d : 0 <= d <= 9 -> digit_value (digit d) = Some d.
Proof.
  intros H.
  destruct (digit_cases d H)
    as [->|[->|[->|[->|[->|[->|[->|[->|[->| ->]]]]]]]]]; reflexivity.
Qed.

Lemma digit_not_dollar d : 0 <= d <= 9 -> Ascii.eqb (digit d) "$" = false.
Proof.
  intros H.
  destruct (digit_cases d H)
    as [->|[->|[->|[->|[->|[->|[->|[->|[->| ->]]]]]]]]]; reflexivity.
Qed.

(** Reading the digits [decimal] wrote gives the number back. *)
Lemma read_number_decimal fuel :
  forall n acc x,
    0 <= n < 10 ^ Z.of_nat (S fuel) ->
    exists k, 0 < k
              /\ read_number (decimal (S fuel) n acc) x
                 = read_number acc (Some (default 0 x * 10 ^ k + n)).
Proof.
  induction fuel as [|fuel IH]; intros n acc x Hn.
  - assert (E : n / 10 = 0).
    { change (10 ^ Z.of_nat 1) with 10 in Hn. Z.div_mod_to_equations. lia. }
    assert (Hd : 0 <= n mod 10 <= 9) by (pose proof (Z.mod_pos_bound n 10); lia).
    cbn [decimal]. rewrite E. cbn [Z.eqb].
    exists 1. split; [lia |].
    cbn [read_number]. rewrite (digit_value_digit _ Hd).
    f_equal. f_equal. Z.div_mod_to_equations. lia.
  - assert (Hd : 0 <= n mod 10 <= 9) by (pose proof (Z.mod_pos_bound n 10); lia).
    change (decimal (S (S fuel)) n acc)
      with (let acc' := String (digit (n mod 10)) acc in
            if n / 10 =? 0 then acc' else decimal (S fuel) (n / 10) acc').
    cbv zeta.
    destruct (n / 10 =? 0) eqn:E.
    + apply Z.eqb_eq in E. exists 1. split; [lia |].
      cbn [read_number]. rewrite (digit_value_digit _ Hd).
      f_equal. f_equal. Z.div_mod_to_equations. lia.
    + apply Z.eqb_neq in E.
      assert (Hq : 0 <= n / 10 < 10 ^ Z.of_nat (S fuel)).
      { rewrite (Nat2Z.inj_succ (S fuel)), Z.pow_succ_r in Hn by lia.
        Z.div_mod_to_equations. lia. }
      destruct (IH (n / 10) (String (digit (n mod 10)) acc) x Hq)
        as (k & Hk & ->).
      exists (k + 1). split; [lia |].
      cbn [read_number]. rewrite (digit_value_digit _ Hd).
      cbn [default from_option id]. f_equal. f_equal.
      rewrite Z.pow_add_r by lia. Z.div_mod_to_equations. nia.
Qed.

Lemma placeholders_decimal fuel :
  forall n acc, 0 <= n -> placeholders (decimal fuel n acc) = placeholders acc.
Proof.
  induction fuel as [|fuel IH]; intros n acc Hn; [reflexivity |].
  cbn [decimal].
  assert (Hd : 0 <= n mod 10 <= 9) by (pose proof (Z.mod_pos_bound n 10); lia).
  destruct (n / 10 =? 0).
  - cbn [placeholders]. rewrite (digit_not_dollar _ Hd). reflexivity.
  - rewrite IH by (Z.div_mod_to_equations; lia).
    cbn [placeholders]. rewrite (digit_not_dollar _ Hd). reflexivity.
Qed.

Lemma decimal_app fuel :
  forall n acc rest, decimal fuel n acc +:+ rest = decimal fuel n (acc +:+ rest).
Proof.
  induction fuel as [|fuel IH]; intros n acc rest; [reflexivity |].
  cbn [decimal]. destruct (n / 10 =? 0); [reflexivity |].
  rewrite IH. reflexivity.
Qed.

Lemma Number_toString_fuel n :
  0 <= n -> n < 10 ^ Z.of_nat (S (Z.to_nat (Z.log2 n))).
Proof.
  intros Hn. rewrite Nat2Z.inj_succ, Z2Nat.id by apply Z.log2_nonneg.
  destruct (Z.eq_dec n 0) as [-> | Hne]; [reflexivity |].
  pose proof (Z.log2_spec n ltac:(lia)) as [_ Hlt].
  eapply Z.lt_le_trans; [exact Hlt |].
  apply Z.pow_le_mono_l. pose proof (Z.log2_nonneg n). lia.
Qed.

Lemma read_number_Number_toString n rest :
  0 <= n -> (forall acc, read_number rest acc = acc) ->
  read_number (Number_toString n +:+ rest) None = Some n.
Proof.
  intros Hn Hrest. unfold Number_toString.
  rewrite decimal_app.
  destruct (read_number_decimal _ n ("" +:+ rest) None
              (conj Hn (Number_toString_fuel n Hn))) as (k & _ & ->).
  change ("" +:+ rest) with rest. rewrite Hrest.
  reflexivity.
Qed.

Lemma placeholders_Number_toString n rest :
  0 <= n -> placeholders (Number_toString n +:+ rest) = placeholders rest.
Proof.
  intros Hn. unfold Number_toString.
  rewrite decimal_app, placeholders_decimal by exact Hn. reflexivity.
Qed.

(** A placeholder written with [Number_toString] is read as its number,
    when what follows does not start with a digit. *)
Lemma placeholders_dollar n rest :
  0 <= n -> (forall acc, read_number rest acc = acc) ->
  placeholders (String "$" (Number_toString n +:+ rest))
  = n :: placeholders rest.
Proof.
  intros Hn Hrest. cbn [placeholders Ascii.eqb Bool.eqb].
  rewrite (read_number_Number_toString _ _ Hn Hrest).
  rewrite (placeholders_Number_toString _ _ Hn). reflexivity.
Qed.

Lemma placeholders_no_dollar p rest :
  no_dollar p = true -> placeholders (p +:+ rest) = placeholders rest.
Proof.
  induction p as [|c p IH]; intros H; [reflexivity |].
  cbn [no_dollar] in H. apply andb_true_iff in H as [Hc Hp].
  change (String c p +:+ rest) with (String c (p +:+ rest)).
  cbn [placeholders]. apply negb_true_iff in Hc. rewrite Hc. auto.
Qed.

Lemma append_assoc (a b c : string) : (a +:+ b) +:+ c = a +:+ (b +:+ c).
Proof.
  induction a as [|x a IH]; [reflexivity |].
  change ((String x a +:+ b) +:+ c) with (String x ((a +:+ b) +:+ c)).
  rewrite IH. reflexivity.
Qed.

Lemma append_empty_r (a : string) : a +:+ "" = a.
Proof.
  induction a as [|x a IH]; [reflexivity |].
  change (String x a +:+ "") with (String x (a +:+ "")).
  rewrite IH. reflexivity.
Qed.

Lemma placeholders_skip c s :
  Ascii.eqb c "$" = false -> placeholders (String c s) = placeholders s.
Proof. intros H. cbn [placeholders]. rewrite H. reflexivity. Qed.

(** The four placeholders of a tuple are read as written, whatever text
    follows the tuple. *)
Lemma placeholders_insert_tuple idx rest :
  0 <= idx ->
  placeholders (insert_tuple idx +:+ rest)
  = [idx; idx + 1; idx + 2; idx + 3] ++ placeholders rest.
Proof.
  intros H. unfold insert_tuple. rewrite !append_assoc.
  change ("($" +:+ ?x) with (String "(" (String "$" x)).
  repeat change (", $" +:+ ?x) with (String "," (String " " (String "$" x))).
  change (", NOW())" +:+ rest)
    with (String "," (String " " ("NOW())" +:+ rest))).
  repeat first
    [ rewrite placeholders_skip by reflexivity
    | rewrite placeholders_dollar by (first [lia | reflexivity]) ].
  rewrite (placeholders_no_dollar "NOW())") by reflexivity.
  reflexivity.
Qed.

End ReadNumber.

(* ================================================================== *)
(** ** The INSERT of [bulkInsertSkills] *)

Section BulkInsertSkills.

Variable userId : string.
Variable skillRows : list SkillRow.

Local Open Scope Z_scope.

Lemma placeholders_tuples m :
  forall a : nat,
    placeholders (join ", " (insert_tuple <$> tuple_starts (Z.of_nat a) m))
    = Z.of_nat <$> seq a (4 * m).
Proof.
  induction m as [|m IH]; intros a; [reflexivity |].
  replace (4 * S m)%nat with (S (S (S (S (4 * m))))) by lia.
  cbn [tuple_starts fmap list_fmap seq].
  replace (Z.of_nat a + 4) with (Z.of_nat (S (S (S (S a))))) by lia.
  specialize (IH (S (S (S (S a))))).
  destruct m as [|m].
  - cbn [tuple_starts fmap list_fmap join].
    rewrite <- (append_empty_r (insert_tuple (Z.of_nat a))).
    rewrite placeholders_insert_tuple by lia.
    cbn. repeat f_equal; lia.
  - change (join ", " (insert_tuple (Z.of_nat a) :: ?l))
      with (insert_tuple (Z.of_nat a) +:+ ", " +:+ join ", " l)
      in |- *.
    rewrite placeholders_insert_tuple by lia.
    rewrite (placeholders_no_dollar ", ") by reflexivity.
    rewrite IH. cbn [app fmap list_fmap]. repeat f_equal; lia.
Qed.

(** The number of skills of the request that have a row. *)
Lemma loop_invariant skills :
  forall insertValues values idx,
    exists m : nat,
      fold_left (bulkInsertSkills_step userId skillRows) skills
                (insertValues, values, idx)
      = (insertValues ++ (insert_tuple <$> tuple_starts idx m),
         values ++ flat_map (skill_values userId skillRows) skills,
         idx + 4 * Z.of_nat m)
      /\ length (flat_map (skill_values userId skillRows) skills)
         = (4 * m)%nat.
Proof.
  induction skills as [|skill skills IH]; intros insertValues values idx.
  - exists 0%nat. cbn. rewrite !app_nil_r. split; [f_equal; lia | reflexivity].
  - cbn [fold_left flat_map]. unfold bulkInsertSkills_step at 2, skill_values at 1 3.
    destruct (find_skill skillRows skill) as [skillObj|].
    + destruct (IH (insertValues ++ [insert_tuple idx])
                   (values ++ tuple_values userId skillObj skill) (idx + 4))
        as (m & -> & Hlen).
      exists (S m). split.
      * cbn [tuple_starts fmap list_fmap]. rewrite <- !app_assoc.
        f_equal. lia.
      * rewrite length_app, Hlen. cbn. lia.
    + destruct (IH insertValues values idx) as (m & -> & Hlen).
      exists m. split; [reflexivity | exact Hlen].
Qed.

End BulkInsertSkills.

(** What the statement holds, without its text. *)
Lemma bulkInsertSkills_values
    (userId : string) (skills : list SkillInput) (skillRows : list SkillRow) :
  match bulkInsertSkills_statement userId (Some skills) skillRows with
  | Some (text, values) =>
      values = flat_map (skill_values userId skillRows) skills
      /\ values <> []
  | None => flat_map (skill_values userId skillRows) skills = []
  end.
Proof.
  unfold bulkInsertSkills_statement.
  destruct skills as [|skill skills]; [reflexivity |].
  case_bool_decide as Hrows.
  - destruct skillRows; [| discriminate].
    clear. induction (skill :: skills) as [|s l IH]; [reflexivity |].
    cbn [flat_map]. rewrite IH. reflexivity.
  - destruct (loop_invariant userId skillRows (skill :: skills) [] [] 1%Z)
      as (m & -> & Hlen).
    cbn [app]. rewrite length_fmap.
    assert (Hl : length (tuple_starts 1 m) = m).
    { clear. generalize 1%Z. induction m; intros z; simpl; auto. }
    rewrite Hl. case_bool_decide as Hm.
    + split; [reflexivity |].
      intros E. rewrite E in Hlen. simpl in Hlen. lia.
    + assert (m = 0)%nat as -> by lia.
      apply length_zero_iff_nil. rewrite Hlen. reflexivity.
Qed.

(** For every array of skills and every answer of the SELECT: when no
    skill of the request has a row [bulkInsertSkills] sends no INSERT;
    otherwise the INSERT numbers its placeholders [$1], ..., [$n] in the
    order of the array of values, which has exactly [n] entries, four for
    each skill that has a row and none for the others, in the order of the
    request. *)
Theorem bulkInsertSkills_binds_every_placeholder
    (userId : string) (skills : option (list SkillInput))
    (skillRows : list SkillRow) :
  match bulkInsertSkills_statement userId skills skillRows with
  | Some (text, values) =>
      placeholders text = one_to (length values)
      /\ values = flat_map (skill_values userId skillRows) (default [] skills)
      /\ values <> []
  | None =>
      flat_map (skill_values userId skillRows) (default [] skills) = []
  end.
Proof.
  unfold bulkInsertSkills_statement.
  destruct skills as [[|skill skills]|]; [reflexivity | | reflexivity].
  cbn [default from_option id].
  case_bool_decide as Hrows.
  - destruct skillRows; [| discriminate].
    clear. induction (skill :: skills) as [|s l IH]; [reflexivity |].
    cbn [flat_map]. rewrite IH. reflexivity.
  - destruct (loop_invariant userId skillRows (skill :: skills) [] [] 1%Z)
      as (m & -> & Hlen).
    cbn [app]. case_bool_decide as Hm.
    + rewrite length_fmap in Hm.
      assert (m <> 0)%nat by (destruct m; [simpl in Hm; lia | lia]).
      split; [| split].
      * rewrite !placeholders_no_dollar by reflexivity.
        rewrite Hlen. apply (placeholders_tuples m 1).
      * reflexivity.
      * intros E. rewrite E in Hlen. simpl in Hlen. lia.
    + rewrite length_fmap in Hm.
      destruct m; [| simpl in Hm; lia].
      apply length_zero_iff_nil. rewrite Hlen. reflexivity.
Qed.

(** A skill named twice is inserted twice.  When two entries of the array
    carry the same name and the SELECT returned a row of that name,
    [bulkInsertSkills] sends an INSERT two rows of which have the same
    (user_id, skill_id), which UNIQUE(user_id, skill_id) of [user_skills]
    forbids. *)
Theorem bulkInsertSkills_inserts_a_repeated_skill_twice
    (userId : string) (skillRows : list SkillRow)
    (before between after : list SkillInput) (s1 s2 : SkillInput)
    (name : string) (row : SkillRow) :
  skill_name s1 = Some name ->
  skill_name s2 = Some name ->
  row ∈ skillRows ->
  skill_row_name row = name ->
  exists text values,
    bulkInsertSkills_statement userId
      (Some (before ++ s1 :: between ++ s2 :: after)) skillRows
    = Some (text, values)
    /\ ~ NoDup (inserted_keys values).
Proof.
  intros H1 H2 Hrow Hname.
  assert (Hfind : exists r, find_skill skillRows s1 = Some r
                            /\ find_skill skillRows s2 = Some r).
  { unfold find_skill. rewrite H1, H2.
    destruct (find (fun s => String.eqb (skill_row_name s) name) skillRows)
      as [r|] eqn:E; [eauto |].
    apply list_elem_of_In in Hrow. apply (find_none _ _ E) in Hrow.
    rewrite Hname, String.eqb_refl in Hrow. discriminate. }
  destruct Hfind as (r & Hr1 & Hr2).
  pose proof (bulkInsertSkills_values userId
                (before ++ s1 :: between ++ s2 :: after) skillRows) as Haux.
  assert (Hkeys : forall l,
             inserted_keys (flat_map (skill_values userId skillRows) l)
             = omap (fun s => (fun r => (PString userId,
                                         PString (skill_row_id r)))
                                <$> find_skill skillRows s) l).
  { induction l as [|s l IH]; [reflexivity |].
    cbn [flat_map omap list_omap]. unfold skill_values at 1.
    destruct (find_skill skillRows s) as [r'|];
      cbn [fmap option_fmap option_map].
    - unfold tuple_values. cbn [app inserted_keys]. rewrite IH. reflexivity.
    - exact IH. }
  assert (Hdup : ~ NoDup (inserted_keys
                   (flat_map (skill_values userId skillRows)
                             (before ++ s1 :: between ++ s2 :: after)))).
  { rewrite Hkeys, omap_app. cbn [omap list_omap]. rewrite Hr1. cbn [fmap option_fmap option_map].
    rewrite omap_app. cbn [omap list_omap]. rewrite Hr2. cbn [fmap option_fmap option_map].
    intros Hnd. apply NoDup_app in Hnd as (_ & _ & Hnd).
    apply NoDup_cons in Hnd as [Hnotin _].
    apply Hnotin. apply elem_of_app. right. left. }
  destruct (bulkInsertSkills_statement userId _ skillRows) as [[text values]|].
  - exists text, values. split; [reflexivity |].
    destruct Haux as [-> _]. exact Hdup.
  - exfalso. apply Hdup. cbn [default from_option id] in Haux.
    rewrite Haux. constructor.
Qed.

Lemma bulkInsertSkills_inserts_a_repeated_skill_twice_witness :
  exists text values,
    bulkInsertSkills_statement "u-1" (Some skills_twice)
      [mkSkillRow "s-7" "Welding"]
    = Some (text, values)
    /\ ~ NoDup (inserted_keys values).
Proof.
  apply (bulkInsertSkills_inserts_a_repeated_skill_twice
           "u-1" [mkSkillRow "s-7" "Welding"] [] [] []
           (mkSkillInput (Some "Welding") (Some "expert") (Some 5%Z))
           (mkSkillInput (Some "Welding") None None)
           "Welding" (mkSkillRow "s-7" "Welding"));
    first [reflexivity | apply list_elem_of_here].
Defined.
